(** * jupyter_book/toc.py: a global table of contents for a documentation build

    A shallow embedding of [toc.py] and the properties of its three parts:
    the recursive lookup [find_name], the per-document injection
    [add_toctree] with the loader [update_indexname], and the directory
    walk [_find_content_structure] behind [build_toc].

    Python values are modelled as follows.
    - [str] is [string]; a value that is a [str] or [None] is [option string].
    - A raised exception is the [Raise] case of [result].
    - [pathlib.Path] is the record [Path] of a root and the list of the
      components after it, with the operations of [PurePosixPath] as CPython
      3.8 to 3.11 define them.
    - A list that is mutated while it is shared ([skip_text], the [source]
      buffer) is passed in and handed back. *)

From Stdlib Require Import List String Ascii Bool Arith Lia Permutation.
Import ListNotations.
Open Scope string_scope.
Open Scope list_scope.

Set Implicit Arguments.

(** ** Exceptions *)

Inductive exn : Type :=
| ValueError (msg : string)
| FileNotFoundError (msg : string)
| KeyError (key : string)
| IndexError (msg : string)
| NbformatError.

Inductive result (A : Type) : Type :=
| Ok (a : A)
| Raise (e : exn).

Arguments Ok {A} a.
Arguments Raise {A} e.

Definition bind {A B : Type} (r : result A) (k : A -> result B) : result B :=
  match r with
  | Ok a => k a
  | Raise e => Raise e
  end.

Notation "x <- r ;; k" := (bind r (fun x => k))
  (at level 61, r at next level, right associativity).

(** ** Python string operations *)

Module Py.

Definition nl : string := String (ascii_of_nat 10) EmptyString.

Definition slash : ascii := ascii_of_nat 47.
Definition dot : ascii := ascii_of_nat 46.

(** [sep.join(l)] *)
Fixpoint join (sep : string) (l : list string) : string :=
  match l with
  | [] => ""
  | [x] => x
  | x :: r => x ++ sep ++ join sep r
  end.

(** [s.split(c)] for a one-character separator: the pieces between the
    occurrences of [c], always at least one piece. *)
Fixpoint split (c : ascii) (s : string) : list string :=
  match s with
  | EmptyString => [""]
  | String a s' =>
      if Ascii.eqb a c then "" :: split c s'
      else match split c s' with
           | [] => [String a ""]
           | w :: ws => String a w :: ws
           end
  end.

(** [needle in hay] on strings. *)
Fixpoint contains (needle hay : string) : bool :=
  prefix needle hay ||
  match hay with
  | EmptyString => false
  | String _ hay' => contains needle hay'
  end.

(** [s.rfind(c)]: the index of the last occurrence, [None] for Python's -1. *)
Fixpoint rfind (c : ascii) (s : string) : option nat :=
  match s with
  | EmptyString => None
  | String a s' =>
      match rfind c s' with
      | Some i => Some (S i)
      | None => if Ascii.eqb a c then Some 0 else None
      end
  end.

(** [s[i:]] and [s[:i]] *)
Definition from (i : nat) (s : string) : string := substring i (length s - i) s.
Definition upto (i : nat) (s : string) : string := substring 0 i s.

(** Truthiness of a [str] or [None]. *)
Definition truthy (s : option string) : bool :=
  match s with
  | Some s => negb (s =? "")
  | None => false
  end.

End Py.

(** ** pathlib.PurePosixPath *)

Record Path : Type := mkPath {
  root : string;          (* "", "/" or "//" *)
  parts : list string     (* the components after the root *)
}.

(** [splitroot]: one slash for any number of leading slashes but two. *)
Fixpoint lstrip_slash (s : string) : nat * string :=
  match s with
  | String a s' =>
      if Ascii.eqb a Py.slash
      then let (n, r) := lstrip_slash s' in (S n, r)
      else (0, s)
  | EmptyString => (0, s)
  end.

Definition splitroot (part : string) : string * string :=
  match lstrip_slash part with
  | (0, rel) => ("", rel)
  | (2, rel) => ("//", rel)
  | (_, rel) => ("/", rel)
  end.

Definition proper_part (x : string) : bool :=
  negb (x =? "") && negb (x =? ".").

(** [Path(s)] for a string: empty and "." components are dropped. *)
Definition parse (s : string) : Path :=
  let (r, rel) := splitroot s in
  mkPath r (filter proper_part (Py.split Py.slash rel)).

(** [str(p)] *)
Definition path_str (p : Path) : string :=
  match root p, parts p with
  | EmptyString, [] => "."
  | r, ps => r ++ Py.join "/" ps
  end.

(** [p.name] *)
Definition name_of (p : Path) : string := last (parts p) "".

(** The suffix of a file name: from the last dot on, when that dot is
    neither the first nor the last character. *)
Definition suffix_of (name : string) : string :=
  match Py.rfind Py.dot name with
  | Some i =>
      if Nat.ltb 0 i && Nat.ltb i (length name - 1) then Py.from i name else ""
  | None => ""
  end.

Definition stem_of (name : string) : string :=
  Py.upto (length name - length (suffix_of name)) name.

(** [p.suffix] *)
Definition suffix (p : Path) : string := suffix_of (name_of p).

(** [repr(p)] *)
Definition path_repr (p : Path) : string :=
  "PosixPath('" ++ path_str p ++ "')".

(** [p.with_suffix("")]: raises on a path with an empty name. *)
Definition with_suffix_empty (p : Path) : result Path :=
  if name_of p =? "" then Raise (ValueError (path_repr p ++ " has an empty name"))
  else Ok (mkPath (root p) (removelast (parts p) ++ [stem_of (name_of p)])).

(** [p.parent] *)
Definition parent (p : Path) : Path := mkPath (root p) (removelast (parts p)).

(** [p / name] for a directory entry, as [iterdir] builds it: the name is
    appended as one component. *)
Definition child (p : Path) (name : string) : Path :=
  mkPath (root p) (parts p ++ [name]).

Notation "p // n" := (child p n) (at level 40, left associativity).

(** Normalisation of the components of an absolute path, as
    [os.path.normpath] does it: empty and "." components vanish and ".."
    removes the component before it (nothing at the root). *)
Definition norm_step (acc : list string) (c : string) : list string :=
  if (c =? "") || (c =? ".") then acc
  else if c =? ".." then removelast acc
  else acc ++ [c].

Definition normalize_abs (comps : list string) : list string :=
  fold_left norm_step comps [].

(** [p.resolve()] in a file system without symbolic links; [cwd] holds the
    components of the working directory. *)
Definition resolve (cwd : list string) (p : Path) : Path :=
  match root p with
  | EmptyString => mkPath "/" (normalize_abs (cwd ++ parts p))
  | r => mkPath r (normalize_abs (parts p))
  end.

(** ** os.path.relpath *)

(** The components of [os.path.abspath(s)]. *)
Definition abspath_list (cwd : list string) (s : string) : list string :=
  if prefix "/" s then normalize_abs (Py.split Py.slash s)
  else normalize_abs (cwd ++ Py.split Py.slash s).

Fixpoint common_prefix_len (a b : list string) : nat :=
  match a, b with
  | x :: a', y :: b' => if x =? y then S (common_prefix_len a' b') else 0
  | _, _ => 0
  end.

Definition relpath_list (start_list path_list : list string) : list string :=
  let i := common_prefix_len start_list path_list in
  repeat ".." (List.length start_list - i) ++ skipn i path_list.

(** [os.path.relpath(path, start)]; a [None] or empty [path] raises. *)
Definition relpath (cwd : list string) (path : option string) (start : string)
  : result string :=
  if negb (Py.truthy path) then Raise (ValueError "no path specified")
  else
    match path with
    | None => Raise (ValueError "no path specified")
    | Some p =>
        match relpath_list (abspath_list cwd start) (abspath_list cwd p) with
        | [] => Ok "."
        | rel => Ok (Py.join "/" rel)
        end
    end.

(** ** The tree of the table of contents *)

(** A page of the table of contents: a mapping with the keys [file],
    [title], [name], [numbered] and [pages], each of which may be absent.
    [numbered] is only ever tested for truth. *)
Inductive node : Type := mkNode {
  file : option string;
  title : option string;
  name : option string;
  numbered : bool;
  pages : option (list node)
}.

(** What [find_name] accepts: one mapping or a list of mappings. *)
Inductive tree : Type :=
| Single (page : node)
| Siblings (sections : list node).

Definition option_string_eqb (a b : option string) : bool :=
  match a, b with
  | Some x, Some y => x =? y
  | None, None => true
  | _, _ => false
  end.

(** [page.get("pages", [])] *)
Definition get_pages (page : node) : list node :=
  match pages page with
  | Some l => l
  | None => []
  end.

Definition _no_suffix (path : option string) : result (option string) :=
  match path with
  | Some s => p <- with_suffix_empty (parse s) ;; Ok (Some (path_str p))
  | None => Ok None
  end.

(** The loop of [find_name] over a list of pages; [turn] is one turn of it,
    where [Ok None] lets the loop go on to the next sibling. *)
Definition find_name_loop (turn : node -> result (option node))
  : list node -> result (option node) :=
  fix loop (l : list node) : result (option node) :=
    match l with
    | [] => Ok None
    | p :: r =>
        found <- turn p ;;
        match found with
        | Some hit => Ok (Some hit)
        | None => loop r
        end
    end.

(** One turn: the page itself, then [find_name] on its sections. *)
Fixpoint find_name_page (X : option string) (page : node)
  : result (option node) :=
  match page with
  | mkNode f _ _ _ pg =>
      stripped <- _no_suffix f ;;
      if option_string_eqb stripped X then Ok (Some page)
      else
        match pg with
        | None => Ok None
        | Some sections => find_name_loop (find_name_page X) sections
        end
  end.

Definition find_name_pages (X : option string) : list node -> result (option node) :=
  find_name_loop (find_name_page X).

Definition find_name (toc : tree) (X : option string) : result (option node) :=
  match toc with
  | Single page => find_name_pages X [page]
  | Siblings l => find_name_pages X l
  end.

(** Depth-first pre-order: a page, then its sections, then its next
    sibling. *)
Fixpoint preorder (n : node) : list node :=
  match n with
  | mkNode _ _ _ _ pg =>
      n :: match pg with
           | Some l => flat_map preorder l
           | None => []
           end
  end.

Definition tree_nodes (toc : tree) : list node :=
  match toc with
  | Single page => preorder page
  | Siblings l => flat_map preorder l
  end.

(** ** The loader *)

Record Config : Type := mkConfig {
  globaltoc_path : option string;
  globaltoc : tree;
  master_doc : string
}.

Definition set_pages (n : node) (subsections : list node) : node :=
  mkNode (file n) (title n) (name n) (numbered n) (Some subsections).

(** [update_indexname]; [loaded] is what [yaml.safe_load] made of the file
    at [globaltoc_path]. The configuration is handed back as the call left
    it, also when it raised. *)
Definition update_indexname (config : Config) (loaded : tree)
  : result unit * Config :=
  if negb (Py.truthy (globaltoc_path config)) then (Ok tt, config)
  else
    let normalised :=
      match loaded with
      | Siblings toc =>
          match toc with
          | [] => Raise (IndexError "list index out of range")
          | toc_updated :: subsections =>
              if Nat.ltb 1 (List.length toc)
              then Ok (set_pages toc_updated subsections)
              else Ok toc_updated
          end
      | Single toc => Ok toc
      end in
    match normalised with
    | Raise e => (Raise e, config)
    | Ok toc =>
        let config1 := mkConfig (globaltoc_path config) (Single toc)
                                (master_doc config) in
        match file toc with
        | None => (Raise (KeyError "file"), config1)
        | Some f =>
            match _no_suffix (Some f) with
            | Ok (Some m) =>
                (Ok tt, mkConfig (globaltoc_path config) (Single toc) m)
            | Ok None => (Ok tt, config1)
            | Raise e => (Raise e, config1)
            end
        end
    end.

(** ** The injection of the toctree directive *)

Section Injection.

Local Open Scope string_scope.

(** [nbformat], which the notebook branch imports. *)
Variable cell : Type.
Variable notebook_rest : Type.

Record notebook : Type := mkNotebook {
  cells : list cell;
  nb_rest : notebook_rest
}.

Variable nbf_reads : string -> result notebook.
Variable nbf_new_markdown_cell : string -> cell.
Variable nbf_writes : notebook -> string.

(** The working directory, against which [os.path.relpath] reads relative
    paths. *)
Variable cwd : list string.

Record App : Type := mkApp {
  config : Config;
  doc2path : string -> string       (* app.env.doc2path(docname, base=None) *)
}.

(** The text of one section of the directive. *)
Definition this_section (path_sec : string) (label : option string) : string :=
  if Py.truthy label
  then match label with
       | Some l => l ++ " <" ++ path_sec ++ ">"
       | None => path_sec
       end
  else path_sec.

(** The label of a child: its [name], when it has one that [if name:]
    takes for true. *)
Definition label_of (c : node) : option string :=
  if Py.truthy (name c) then name c else None.

(** The loop over [sections], which stops at the first child that raises. *)
Fixpoint rewrite_sections (page_file : option string)
    (sections : list (option string * option string)) : result (list string) :=
  match sections with
  | [] => Ok []
  | (path_sec, label) :: rest =>
      match page_file with
      | None => Raise (KeyError "file")
      | Some f =>
          let path_parent_folder := parent (parse f) in
          rel <- relpath cwd path_sec (path_str path_parent_folder) ;;
          others <- rewrite_sections page_file rest ;;
          Ok (this_section rel label :: others)
      end
  end.

Definition toctree_options (page : node) : string :=
  Py.join Py.nl
    (map (fun ii => ":" ++ ii ++ ":")
         (if numbered page then ["numbered"] else [])).

(** The dedented template with [options] and [sections] filled in. *)
Definition toctree_text (options sections : string) : string :=
  Py.nl ++ "```{toctree}" ++ Py.nl
  ++ ":hidden:" ++ Py.nl
  ++ ":titlesonly:" ++ Py.nl
  ++ options ++ Py.nl
  ++ Py.nl
  ++ sections ++ Py.nl
  ++ "```" ++ Py.nl.

Definition not_found_message (path : string) : string :=
  "The following path in your table of contents couldn't be found:"
  ++ Py.nl ++ Py.nl ++ path ++ "." ++ Py.nl ++ Py.nl
  ++ "Double check your `_toc.yml` file to make sure the paths are correct.".

(** [add_toctree(app, docname, source)]: the outcome and the content of
    [source[0]] after the call. *)
Definition add_toctree (app : App) (docname : string) (source : string)
  : result unit * string :=
  if negb (Py.truthy (globaltoc_path (config app))) then (Ok tt, source)
  else
    let path := doc2path app docname in
    let toc := globaltoc (config app) in
    match (X <- _no_suffix (Some path) ;; find_name toc X) with
    | Raise e => (Raise e, source)
    | Ok None => (Raise (FileNotFoundError (not_found_message path)), source)
    | Ok (Some page) =>
        let sections := map (fun ii => (file ii, name ii)) (get_pages page) in
        if Nat.eqb (List.length sections) 0 then (Ok tt, source)
        else
          match rewrite_sections (file page) sections with
          | Raise e => (Raise e, source)
          | Ok sections =>
              let options := toctree_options page in
              let suff := suffix (parse path) in
              let toctree := toctree_text options (Py.join Py.nl sections) in
              if suff =? ".md" then (Ok tt, source ++ toctree ++ Py.nl)
              else if suff =? ".ipynb" then
                match nbf_reads source with
                | Raise e => (Raise e, source)
                | Ok ntbk =>
                    let md := nbf_new_markdown_cell toctree in
                    (Ok tt, nbf_writes
                              (mkNotebook (cells ntbk ++ [md])%list (nb_rest ntbk)))
                end
              else
                (Raise (ValueError
                          "Only markdown and ipynb files are supported."),
                 source)
          end
    end.

End Injection.

(** ** The directory walk *)

(** A directory as [iterdir] lists it: the entries in the order of the file
    system, each a plain file or a folder with its own listing. *)
Inductive entry : Type :=
| File (name : string)
| Folder (name : string) (content : dir)
with dir : Type :=
| Listing (entries : list entry).

Definition entry_name (e : entry) : string :=
  match e with
  | File n => n
  | Folder n _ => n
  end.

Definition entries_of (d : dir) : list entry :=
  match d with
  | Listing es => es
  end.

(** [path.iterdir()] *)
Definition iterdir (path : Path) (d : dir) : list Path :=
  map (fun e => path // entry_name e) (entries_of d).

(** [any(iskip in str(p) for iskip in skip_text)] *)
Definition any_skip (skip_text : list string) (p : Path) : bool :=
  existsb (fun iskip => Py.contains iskip (path_str p)) skip_text.

(** [l.pop(ii)] leaves these. *)
Definition pop_rest {A : Type} (ii : nat) (l : list A) : list A :=
  firstn ii l ++ skipn (S ii) l.

(** [ifile.with_suffix("").name == "index"] *)
Definition is_index (ifile : Path) : result bool :=
  p <- with_suffix_empty ifile ;; Ok (name_of p =? "index").

(** The loop that looks for an index page. It runs over [content_files]
    while it pops from it: the iterator yields the element at position [ii]
    of the list as it is then, and stops when [ii] is past its end. Each
    turn uses up one unit of [fuel]; the length of the list is enough. *)
Fixpoint index_loop (fuel ii : nat) (content_files : list Path)
    (first_content : option Path) : result (list Path * option Path) :=
  match fuel with
  | 0 => Ok (content_files, first_content)
  | S fuel' =>
      match nth_error content_files ii with
      | None => Ok (content_files, first_content)
      | Some ifile =>
          found <- is_index ifile ;;
          if (found : bool)
          then index_loop fuel' (S ii) (pop_rest ii content_files) (Some ifile)
          else index_loop fuel' (S ii) content_files first_content
      end
  end.

(** The choice of the parent: the index page, else the first content file.
    Only called on a list that is not empty. *)
Definition select_parent (content_files : list Path)
  : result (Path * list Path) :=
  st <- index_loop (List.length content_files) 0 content_files None ;;
  match st with
  | (content_files, Some first_content) => Ok (first_content, content_files)
  | (content_files, None) =>
      match content_files with
      | first_content :: rest => Ok (first_content, rest)
      | [] => Raise (IndexError "pop from empty list")
      end
  end.

(** ** Well-formed inputs *)

(** What a directory listing of a real file system always satisfies: no
    entry has an empty name and no two entries of a directory share one. *)
Inductive fs_ok : dir -> Prop :=
| fs_ok_listing (es : list entry) :
    NoDup (map entry_name es) ->
    (forall e, In e es -> entry_name e <> "") ->
    (forall n sub, In (Folder n sub) es -> fs_ok sub) ->
    fs_ok (Listing es).

Fixpoint has_char (c : ascii) (s : string) : bool :=
  match s with
  | EmptyString => false
  | String a r => Ascii.eqb a c || has_char c r
  end.

(** A component as [Path(s)] keeps it: not empty, not ".", no slash. *)
Definition part_ok (x : string) : Prop :=
  x <> "" /\ x <> "." /\ has_char Py.slash x = false.

(** A path as [Path(s)] builds it, which [str] and [Path] take back and
    forth unchanged. *)
Definition canonical (p : Path) : Prop :=
  (root p = "" \/ root p = "/" \/ root p = "//") /\ Forall part_ok (parts p).

(** An entry name that is a component of its own and does not start with
    two dots. *)
Definition ordinary (n : string) : Prop :=
  part_ok n /\ prefix ".." n = false.

Inductive fs_ordinary : dir -> Prop :=
| fs_ordinary_listing (es : list entry) :
    (forall e, In e es -> ordinary (entry_name e)) ->
    (forall n sub, In (Folder n sub) es -> fs_ordinary sub) ->
    fs_ordinary (Listing es).

(** What a listing of a real file system satisfies as well: no entry name
    holds a slash. *)
Inductive fs_slashless : dir -> Prop :=
| fs_slashless_listing (es : list entry) :
    (forall e, In e es -> has_char Py.slash (entry_name e) = false) ->
    (forall n sub, In (Folder n sub) es -> fs_slashless sub) ->
    fs_slashless (Listing es).

(** The invariant of the data model: a [pages] field is never empty. *)
Definition pages_ok (n : node) : Prop := pages n <> Some [].

(** What the code writes into [file] for the content file [p]: the string
    of the path after two calls of [with_suffix("")], as in
    [_content_path_to_yaml]. This is the code's value, not the identifier
    that the spec gives to the file, which is [file_identifier] below. *)
Definition node_file (p : Path) : option string :=
  match (q <- with_suffix_empty p ;; with_suffix_empty q) with
  | Ok r => Some (path_str r)
  | Raise _ => None
  end.

(** A page whose [file] can be stripped of its suffix: it is absent, or a
    path with a name. *)
Definition strips (n : node) : Prop := exists s, _no_suffix (file n) = Ok s.

(** A page whose suffix-stripped [file] is [X]. *)
Definition matches (X : option string) (n : node) : Prop :=
  _no_suffix (file n) = Ok X.

Definition matchb (X : option string) (n : node) : bool :=
  match _no_suffix (file n) with
  | Ok s => option_string_eqb s X
  | Raise _ => false
  end.

(** Modelled from the spec: a suffix-stripped path is a path identifier
    with its format extension removed. On the string: the extension is the
    suffix of what follows the last slash, and it is cut off the end. *)
Definition basename (s : string) : string := last (Py.split Py.slash s) "".

Definition suffix_stripped (s : string) : string :=
  Py.upto (length s - length (suffix_of (basename s))) s.

(** Modelled from the spec: the suffix-stripped [file] of a page, the key
    under which the page is looked up. The [file] is read as a path, so
    "a//b.md" and "./a/b.md" are "a/b.md"; a page without [file] has no
    identifier. *)
Definition identifier_of (n : node) : option string :=
  match file n with
  | Some f => Some (suffix_stripped (path_str (parse f)))
  | None => None
  end.


(** The lookup as a scan of pages in the order of the pre-order: the first
    page that matches, or whose [file] cannot be stripped, decides. *)
Fixpoint first_decisive (X : option string) (l : list node)
  : result (option node) :=
  match l with
  | [] => Ok None
  | n :: r =>
      match _no_suffix (file n) with
      | Raise e => Raise e
      | Ok s => if option_string_eqb s X then Ok (Some n) else first_decisive X r
      end
  end.

(** A page whose [file] strips to something other than [X]. *)
Definition passes (X : option string) (n : node) : Prop :=
  exists s, _no_suffix (file n) = Ok s /\ s <> X.

(** The keys of a generated node: [file] and [title], and [pages] at most. *)
Definition generated_shape (n : node) : Prop :=
  file n <> None /\ title n <> None /\ name n = None /\ numbered n = false.

(** What [with_suffix_empty] returns when it returns. *)
Definition strip (p : Path) : Path :=
  mkPath (root p) (removelast (parts p) ++ [stem_of (name_of p)]).

(** Modelled from the spec: the identifier of a content file in the tree is
    its path without the format suffix, that is, with the name of the file
    cut down to its stem. *)
Definition file_identifier (p : Path) : option string :=
  Some (path_str (strip p)).

(** The node that [_content_path_to_yaml] builds for a file with a name. *)
Definition leaf_node (title_of : Path -> string) (p : Path) : node :=
  mkNode (Some (path_str (strip (strip p)))) (Some (title_of (strip p)))
         None false None.

(** Components that [normalize_abs] leaves alone. *)
Definition plain (c : string) : Prop := c <> "" /\ c <> "." /\ c <> "..".

(** Induction on pages with the sections as induction hypotheses. *)
Section NodeInduction.

Variable P : node -> Prop.
Hypothesis step : forall f t nm num pg,
  Forall P (match pg with Some l => l | None => [] end) ->
  P (mkNode f t nm num pg).

Fixpoint node_ind_sections (n : node) : P n :=
  match n with
  | mkNode f t nm num pg =>
      step f t nm num pg
        (match pg as pg0
               return Forall P (match pg0 with Some l => l | None => [] end)
         with
         | Some l =>
             (fix all (l : list node) : Forall P l :=
                match l with
                | [] => Forall_nil P
                | x :: r => Forall_cons x (node_ind_sections x) (all r)
                end) l
         | None => Forall_nil P
         end)
  end.

End NodeInduction.

(** Induction on directories with the folders as induction hypotheses. *)
Section DirInduction.

Variable P : dir -> Prop.
Hypothesis step : forall es,
  (forall n sub, In (Folder n sub) es -> P sub) -> P (Listing es).

Fixpoint dir_ind_folders (d : dir) : P d :=
  match d with
  | Listing es =>
      step es
        ((fix all (l : list entry)
            : forall n sub, In (Folder n sub) l -> P sub :=
            match l with
            | [] => fun n sub H => match H with end
            | e :: r =>
                fun n sub H =>
                  match H with
                  | or_introl E =>
                      match e as e0 return e0 = Folder n sub -> P sub with
                      | File _ => fun E0 =>
                          match E0 in _ = y
                                return match y with File _ => True | Folder _ _ => P sub end
                          with eq_refl => I end
                      | Folder _ s => fun E0 =>
                          match E0 in _ = y
                                return match y with File _ => True | Folder _ s0 => P s0 end
                          with eq_refl => dir_ind_folders s end
                      end E
                  | or_intror H' => all r n sub H'
                  end
            end) es)
  end.

End DirInduction.

(** ** The parts of utils.py *)

Definition upper (a : ascii) : ascii :=
  let n := nat_of_ascii a in
  if Nat.leb 97 n && Nat.leb n 122 then ascii_of_nat (n - 32) else a.

Definition lower (a : ascii) : ascii :=
  let n := nat_of_ascii a in
  if Nat.leb 65 n && Nat.leb n 90 then ascii_of_nat (n + 32) else a.

Fixpoint map_string (f : ascii -> ascii) (s : string) : string :=
  match s with
  | EmptyString => EmptyString
  | String a r => String (f a) (map_string f r)
  end.

Definition capitalize (w : string) : string :=
  match w with
  | EmptyString => EmptyString
  | String a r => String (upper a) (map_string lower r)
  end.

(** Modelled from the spec: [_filename_to_title] of utils.py, which is not
    among the sources. "Title derivation splits the name on a configurable
    split character (default [_]) and applies title-casing per resulting
    word." *)
Definition filename_to_title_spec (filename split_char : string) : string :=
  match split_char with
  | String c _ => Py.join " " (map capitalize (Py.split c filename))
  | EmptyString => capitalize filename
  end.

(** Modelled from the spec: [SUPPORTED_FILE_SUFFIXES] of utils.py, which is
    not among the sources, "a fixed, small allow-list of document-format
    extensions (markup and notebook formats)". *)
Definition supported_suffixes_spec : list string := [".md"; ".ipynb"].

(** ** Example inputs *)

Definition cwd_example : list string := ["home"; "docs"].

(** A plain block rendering that stands in for [yaml.safe_dump] in the
    examples: one line per key, the pages as a list of nested mappings. *)
Fixpoint dump_lines (n : node) : list string :=
  match n with
  | mkNode f t _ _ pg =>
      (match f with Some f => ["file: " ++ f]%string | None => [] end)
      ++ (match t with Some t => ["title: " ++ t]%string | None => [] end)
      ++ match pg with
         | Some l =>
             "pages:"
             :: flat_map
                  (fun c =>
                     match dump_lines c with
                     | [] => []
                     | x :: r =>
                         ("- " ++ x)%string :: map (fun y => ("  " ++ y)%string) r
                     end) l
         | None => []
         end
  end.

Definition dump_example (n : node) : string :=
  (Py.join Py.nl (dump_lines n) ++ Py.nl)%string.

(** The directory of the example of the spec, with one more folder. *)
Definition book_example : dir :=
  Listing [File "ch1.md"; File "index.md"; File "notes.txt";
           Folder "appendix" (Listing [File "a1.md"; File "a2.ipynb"]);
           Folder "drafts" (Listing [File "old.md"])].

(** A folder whose files are named with dashes. *)
Definition dashes_example : dir :=
  Listing [File "index.md"; File "my-page.md"].

(** One folder as two file systems may list it. *)
Definition listing_ab : dir := Listing [File "a.md"; File "b.md"].
Definition listing_ba : dir := Listing [File "b.md"; File "a.md"].

(** A folder without content files of its own between the top and a file. *)
Definition barren_example : dir :=
  Listing [File "index.md";
           Folder "part" (Listing [Folder "deep" (Listing [File "a.md"])])].

(** Two index pages with a file between them. *)
Definition two_index_example : dir :=
  Listing [File "index.md"; File "x.md"; File "index.ipynb"].

(** A first file that carries a skip marker. *)
Definition skipped_parent_example : dir :=
  Listing [File "draft_intro.md"; File "b.md"].

(** A book for the marker "draft": a file and a folder that are skipped,
    and a folder that holds no content file of its own above a folder
    that the walk never visits. The skipped folder and the folder never
    visited are in disorder. *)
Definition attic_example : dir :=
  Listing [File "index.md"; File "ch1.md"; File "draft.v1.md";
           File "notes.txt";
           Folder "appendix" (Listing [File "a1.md"; File "a2.ipynb"]);
           Folder "drafts" (Listing [File "old.md"; File "old.ipynb"]);
           Folder "attic"
             (Listing [Folder "old"
                         (Listing [File "index.md"; File "x.md";
                                   File "index.ipynb"; File "x.v2.md"])])].

Definition leaf_example (f : string) (label : option string) : node :=
  mkNode (Some f) None label false None.

(** The table of the injection example of the spec, with more pages. *)
Definition toc_example : node :=
  mkNode (Some "index") None None true
    (Some [leaf_example "sub/ch1" (Some "Chapter One");
           leaf_example "sub/ch2.md" None;
           mkNode (Some "part/intro") None None false
             (Some [leaf_example "part/details" None;
                    leaf_example "other/notes" (Some "Notes")])]).

(** A persisted description whose only page has an empty [pages]. *)
Definition empty_pages_example : tree :=
  Siblings [mkNode (Some "intro") None None false (Some [])].

Definition config_example : Config :=
  mkConfig (Some "_toc.yml") (Single toc_example) "index".

Section Generation.

(** From [utils.py]: the suffixes of content files and the title of a file
    name for a split character. *)
Variable SUPPORTED_FILE_SUFFIXES : list string.
Variable _filename_to_title : string -> string -> string.

(** The working directory, which [Path.resolve] reads. *)
Variable cwd : list string.

(** [yaml.safe_dump(structure, default_flow_style=False, sort_keys=False)] *)
Variable yaml_safe_dump : node -> string.

Definition supported (ii : Path) : bool :=
  existsb (String.eqb (suffix ii)) SUPPORTED_FILE_SUFFIXES.

Definition _content_path_to_yaml (path : Path) (split_char : string)
  : result node :=
  path <- with_suffix_empty path ;;
  let title :=
    if name_of path =? "index"
    then _filename_to_title (name_of (parent (resolve cwd path))) split_char
    else _filename_to_title (name_of path) split_char in
  stripped <- with_suffix_empty path ;;
  Ok (mkNode (Some (path_str stripped)) (Some title) None false None).

(** The loop over the remaining content files; the call at its end leaves
    [split_char] at its default. *)
Fixpoint children_loop (skip_text : list string) (content_files : list Path)
    (pages : list node) : result (list node) :=
  match content_files with
  | [] => Ok pages
  | content_file :: rest =>
      if any_skip skip_text content_file
      then children_loop skip_text rest pages
      else
        page <- _content_path_to_yaml content_file "_" ;;
        children_loop skip_text rest (pages ++ [page])
  end.

(** The loop over the folders; [walk] is the recursive call, which takes
    the shared [skip_text] and hands it back. *)
Definition folders_loop
    (walk : Path -> dir -> list string -> result (option node) * list string)
    (path : Path)
  : list entry -> list node -> list string -> result (list node) * list string :=
  fix loop (l : list entry) (pages : list node) (skip_text : list string)
    : result (list node) * list string :=
    match l with
    | [] => (Ok pages, skip_text)
    | e :: rest =>
        match e with
        | File _ => loop rest pages skip_text
        | Folder n sub =>
            let folder := path // n in
            if any_skip skip_text folder then loop rest pages skip_text
            else
              match walk folder sub skip_text with
              | (Raise err, skip_text) => (Raise err, skip_text)
              | (Ok (Some folder_out), skip_text) =>
                  loop rest (pages ++ [folder_out]) skip_text
              | (Ok None, skip_text) => loop rest pages skip_text
              end
        end
    end.

(** [_find_content_structure(path, split_char, skip_text)] on the directory
    [d] found at [path]: what it returns or raises, and the content of the
    list [skip_text] after the call. That list is the caller's own when one
    was passed. *)
Fixpoint _find_content_structure (path : Path) (d : dir) (split_char : string)
    (skip_text : option (list string)) {struct d}
  : result (option node) * list string :=
  let skip_text :=
    match skip_text with
    | None => []
    | Some l => l
    end ++ [".ipynb_checkpoints"] in
  match d with
  | Listing entries =>
      let content_files :=
        filter supported (map (fun e => path // entry_name e) entries) in
      if Nat.eqb (List.length content_files) 0 then (Ok None, skip_text)
      else
        match
          (sel <- select_parent content_files ;;
           let (first_content, content_files) := sel : Path * list Path in
           parent <- _content_path_to_yaml first_content split_char ;;
           pages <- children_loop skip_text content_files [] ;;
           Ok (parent, pages))
        with
        | Raise err => (Raise err, skip_text)
        | Ok (parent, pages) =>
            match
              folders_loop
                (fun folder sub skip_text =>
                   _find_content_structure folder sub split_char (Some skip_text))
                path entries pages skip_text
            with
            | (Raise err, skip_text) => (Raise err, skip_text)
            | (Ok pages, skip_text) =>
                (Ok (Some (if Nat.eqb (List.length pages) 0 then parent
                           else set_pages parent pages)),
                 skip_text)
            end
        end
  end.

Definition build_toc (path : string) (d : dir) (filename_split_char : string)
    (skip_text : option (list string)) : result string * list string :=
  match _find_content_structure (parse path) d filename_split_char skip_text with
  | (Raise err, skip_text) => (Raise err, skip_text)
  | (Ok None, skip_text) =>
      (Raise (ValueError ("No content files were found in " ++ path ++ ".")%string),
       skip_text)
  | (Ok (Some structure), skip_text) => (Ok (yaml_safe_dump structure), skip_text)
  end.

(** *** What the walk is measured against *)

Definition content_files_of (path : Path) (es : list entry) : list Path :=
  filter supported (map (fun e => path // entry_name e) es).

(** [under path d p]: [p] is a content file somewhere below the directory
    [d] found at [path]. *)
Inductive under : Path -> dir -> Path -> Prop :=
| under_here path es e :
    In e es -> supported (path // entry_name e) = true ->
    under path (Listing es) (path // entry_name e)
| under_below path es n sub p :
    In (Folder n sub) es -> under (path // n) sub p ->
    under path (Listing es) p.

(** [reached skipped path d p]: [p] is a content file below [d], every
    folder on the way from [d] down to it holds a content file of its own,
    and no folder below [d] on that way is skipped. [skipped] tells whether
    a path contains a skip marker. *)
Inductive reached (skipped : Path -> bool) : Path -> dir -> Path -> Prop :=
| reached_here path es e :
    In e es -> supported (path // entry_name e) = true ->
    reached skipped path (Listing es) (path // entry_name e)
| reached_below path es n sub p :
    content_files_of path es <> [] ->
    In (Folder n sub) es ->
    skipped (path // n) = false ->
    reached skipped (path // n) sub p ->
    reached skipped path (Listing es) p.

Definition index_stemmed (p : Path) : bool := stem_of (name_of p) =? "index".

(** The parent the spec asks for: the index page, else the first file. *)
Definition parent_by_rule (content_files : list Path) : option Path :=
  match find index_stemmed content_files with
  | Some p => Some p
  | None => hd_error content_files
  end.

(** Directories in which files and nodes correspond one to one. In the
    folder itself: no two content files have the same stem, so that at
    most one is an index page; the parent is not skipped; the content
    files that are not skipped have one suffix only. And the same in every
    folder that the walk visits below it: when the folder holds a content
    file, in each of its subfolders that is not skipped. *)
Inductive regular (skipped : Path -> bool) : Path -> dir -> Prop :=
| regular_listing path es :
    (forall p q, In p (content_files_of path es) ->
                 In q (content_files_of path es) ->
                 stem_of (name_of p) = stem_of (name_of q) -> p = q) ->
    (forall p, parent_by_rule (content_files_of path es) = Some p ->
               skipped p = false) ->
    (forall p, In p (content_files_of path es) -> skipped p = false ->
               suffix_of (stem_of (name_of p)) = "") ->
    (forall n sub, content_files_of path es <> [] ->
                   In (Folder n sub) es -> skipped (path // n) = false ->
                   regular skipped (path // n) sub) ->
    regular skipped path (Listing es).

(** The folders that a call works through: itself, and below a folder with
    content every subfolder that is not skipped. *)
Definition count_folders (visit : Path -> dir -> nat) (skipped : Path -> bool)
    (path : Path) : list entry -> nat :=
  fix count (l : list entry) : nat :=
    match l with
    | [] => 0
    | File _ :: rest => count rest
    | Folder n sub :: rest =>
        (if skipped (path // n) then 0 else visit (path // n) sub)
        + count rest
    end.

Fixpoint dirs_visited (skipped : Path -> bool) (path : Path) (d : dir) : nat :=
  match d with
  | Listing es =>
      S (match content_files_of path es with
         | [] => 0
         | _ => count_folders (dirs_visited skipped) skipped path es
         end)
  end.

(** The content files that end up as nodes, in the order of the nodes. *)
Definition kept_below (keep : Path -> dir -> list Path) (skipped : Path -> bool)
    (path : Path) : list entry -> list Path :=
  fix collect (l : list entry) : list Path :=
    match l with
    | [] => []
    | File _ :: rest => collect rest
    | Folder n sub :: rest =>
        (if skipped (path // n) then [] else keep (path // n) sub)
        ++ collect rest
    end.

Fixpoint kept (skipped : Path -> bool) (path : Path) (d : dir) : list Path :=
  match d with
  | Listing es =>
      match content_files_of path es with
      | [] => []
      | _ =>
          match select_parent (content_files_of path es) with
          | Ok (first_content, content_files) =>
              first_content
              :: filter (fun p => negb (skipped p)) content_files
              ++ kept_below (kept skipped) skipped path es
          | Raise _ => []
          end
      end
  end.

Definition marker : string := ".ipynb_checkpoints".

(** The list that a call starts from: the caller's, or a fresh one. *)
Definition given_skip (skip_text : option (list string)) : list string :=
  match skip_text with
  | None => []
  | Some l => l
  end.

(** Whether a path contains a marker of the list a call works with. *)
Definition skipped_by (skip_text : option (list string)) (p : Path) : bool :=
  any_skip (given_skip skip_text ++ [marker]) p.

(** The title that [_content_path_to_yaml] gives to a stripped path. *)
Definition title_for (split_char : string) (stripped : Path) : string :=
  if name_of stripped =? "index"
  then _filename_to_title (name_of (parent (resolve cwd stripped))) split_char
  else _filename_to_title (name_of stripped) split_char.

(** Content files with a name, which every real entry has. *)
Definition named (l : list Path) : Prop :=
  Forall (fun p => name_of p <> "") l.

(** What the walk of [d] yields once the folders below it are known to
    behave: the outcome, the skip list and the files behind the nodes. *)
Definition walk_spec (skipped : Path -> bool) (split_char : string) (path : Path)
    (d : dir) : Prop :=
  forall skip_text,
    (forall p, skipped_by skip_text p = skipped p) ->
    exists r,
      _find_content_structure path d split_char skip_text
      = (Ok r, given_skip skip_text ++ repeat marker (dirs_visited skipped path d))
      /\ match r with
         | None => content_files_of path (entries_of d) = []
         | Some t =>
             map file (preorder t) = map node_file (kept skipped path d) /\
             exists first rest,
               select_parent (content_files_of path (entries_of d))
               = Ok (first, rest) /\
               file t = Some (path_str (strip (strip first))) /\
               title t = Some (title_for split_char (strip first))
         end.

(** *** Paths of directory entries *)

Unset Implicit Arguments.

Lemma length_substring_le (a b : nat) (s : string) :
  length (substring a b s) <= b.
Proof.
  revert a b; induction s as [|c s IH]; intros a b.
  - destruct a, b; simpl; lia.
  - destruct a as [|a]; destruct b as [|b]; simpl; try lia.
    + specialize (IH 0 b). lia.
    + apply IH.
    + apply IH.
Qed.

Lemma suffix_of_shorter (n : string) : n <> "" -> length (suffix_of n) < length n.
Proof.
  intros Hn. unfold suffix_of.
  assert (Hlen : 0 < length n) by (destruct n; [congruence | simpl; lia]).
  destruct (Py.rfind Py.dot n) as [i|]; simpl; try lia.
  destruct (Nat.ltb 0 i && Nat.ltb i (length n - 1)) eqn:E; simpl; try lia.
  apply andb_prop in E. destruct E as [E1 E2].
  apply Nat.ltb_lt in E1. apply Nat.ltb_lt in E2.
  unfold Py.from. pose proof (length_substring_le i (length n - i) n). lia.
Qed.

Lemma stem_of_nonempty (n : string) : n <> "" -> stem_of n <> "".
Proof.
  intros Hn. pose proof (suffix_of_shorter _ Hn) as Hlt.
  unfold stem_of, Py.upto.
  destruct n as [|c n]; [congruence|].
  destruct (length (String c n) - length (suffix_of (String c n))) eqn:E;
    [lia | simpl; discriminate].
Qed.

Lemma name_of_child (path : Path) (n : string) : name_of (path // n) = n.
Proof. unfold name_of, child; simpl. apply last_last. Qed.

Lemma name_of_strip (p : Path) : name_of (strip p) = stem_of (name_of p).
Proof. unfold name_of at 1, strip; simpl. apply last_last. Qed.

Lemma strip_child (path : Path) (n : string) : strip (path // n) = path // stem_of n.
Proof.
  unfold strip. rewrite name_of_child. unfold child; simpl.
  now rewrite removelast_last.
Qed.

Lemma with_suffix_empty_named (p : Path) :
  name_of p <> "" -> with_suffix_empty p = Ok (strip p).
Proof.
  intros H. unfold with_suffix_empty.
  destruct (String.eqb_spec (name_of p) ""); [contradiction | reflexivity].
Qed.

Lemma is_index_named (p : Path) :
  name_of p <> "" -> is_index p = Ok (index_stemmed p).
Proof.
  intros H. unfold is_index. rewrite (with_suffix_empty_named _ H). simpl.
  now rewrite name_of_strip.
Qed.

Lemma content_path_to_yaml_named (p : Path) (split_char : string) :
  name_of p <> "" ->
  _content_path_to_yaml p split_char = Ok (leaf_node (title_for split_char) p).
Proof.
  intros H. unfold _content_path_to_yaml.
  rewrite (with_suffix_empty_named _ H). simpl.
  assert (H' : name_of (strip p) <> "")
    by (rewrite name_of_strip; now apply stem_of_nonempty).
  rewrite (with_suffix_empty_named _ H'). reflexivity.
Qed.

Lemma node_file_named (p : Path) :
  name_of p <> "" -> node_file p = Some (path_str (strip (strip p))).
Proof.
  intros H. unfold node_file. rewrite (with_suffix_empty_named _ H). simpl.
  assert (H' : name_of (strip p) <> "")
    by (rewrite name_of_strip; now apply stem_of_nonempty).
  now rewrite (with_suffix_empty_named _ H').
Qed.

(** *** The choice of the parent *)

Lemma incl_pop_rest {A : Type} (k : nat) (l : list A) : incl (pop_rest k l) l.
Proof.
  unfold pop_rest. intros x Hx. apply in_app_or in Hx. destruct Hx as [Hx|Hx].
  - rewrite <- (firstn_skipn k l). apply in_or_app. now left.
  - rewrite <- (firstn_skipn (S k) l). apply in_or_app. now right.
Qed.

Lemma named_incl (l l' : list Path) : incl l' l -> named l -> named l'.
Proof.
  unfold named. rewrite !Forall_forall. intros Hi H x Hx. apply H, Hi, Hx.
Qed.

Lemma nth_error_pop_rest_after {A : Type} (k j : nat) (l : list A) :
  k <= j -> nth_error (pop_rest k l) j = nth_error l (S j).
Proof.
  revert j l. induction k as [|k IH]; intros j l Hle.
  - unfold pop_rest. simpl. destruct l; simpl; [now destruct j | reflexivity].
  - destruct j as [|j]; [lia|]. destruct l as [|a l].
    + unfold pop_rest. simpl. reflexivity.
    + change (pop_rest (S k) (a :: l)) with (a :: pop_rest k l). simpl.
      apply IH. lia.
Qed.

Lemma pop_rest_split {A : Type} (k : nat) (l : list A) (x : A) :
  nth_error l k = Some x -> l = firstn k l ++ x :: skipn (S k) l.
Proof.
  revert l. induction k as [|k IH]; intros l H; destruct l as [|a l];
    simpl in *; try discriminate.
  - now inversion H.
  - f_equal. now apply IH.
Qed.

Lemma length_pop_rest {A : Type} (k : nat) (l : list A) :
  k < List.length l -> List.length (pop_rest k l) = List.length l - 1.
Proof.
  intros H. unfold pop_rest.
  rewrite length_app, length_firstn, length_skipn. lia.
Qed.

(** The length of the list is fuel enough: from there on, more fuel
    changes nothing. *)
Lemma index_loop_fuel (fuel : nat) : forall ii l first extra,
  List.length l - ii <= fuel ->
  index_loop (fuel + extra) ii l first = index_loop fuel ii l first.
Proof.
  induction fuel as [|fuel IH]; intros ii l first extra Hfuel.
  - assert (E : nth_error l ii = None) by (apply nth_error_None; lia).
    destruct extra; simpl; [reflexivity | now rewrite E].
  - simpl. destruct (nth_error l ii) as [ifile|] eqn:E; [|reflexivity].
    assert (Hlt : ii < List.length l) by (apply nth_error_Some; congruence).
    destruct (is_index ifile) as [[|]|]; simpl; [| |reflexivity].
    + apply IH. rewrite length_pop_rest by exact Hlt. lia.
    + apply IH. lia.
Qed.

Lemma index_loop_ok (fuel : nat) : forall ii l first,
  named l ->
  exists l' first',
    index_loop fuel ii l first = Ok (l', first') /\ incl l' l /\
    (first' = first \/
     exists f, first' = Some f /\ In f l /\ index_stemmed f = true).
Proof.
  induction fuel as [|fuel IH]; intros ii l first Hn; simpl.
  - exists l, first. repeat split; auto using incl_refl.
  - destruct (nth_error l ii) as [ifile|] eqn:E.
    + assert (Hin : In ifile l) by (eapply nth_error_In; eauto).
      assert (Hname : name_of ifile <> "")
        by (unfold named in Hn; rewrite Forall_forall in Hn; auto).
      rewrite (is_index_named _ Hname). simpl.
      destruct (index_stemmed ifile) eqn:Ei.
      * destruct (IH (S ii) (pop_rest ii l) (Some ifile)) as (l' & f' & H1 & H2 & H3).
        { eapply named_incl; [apply incl_pop_rest | exact Hn]. }
        exists l', f'. split; [exact H1|]. split.
        { eapply incl_tran; [exact H2 | apply incl_pop_rest]. }
        right. destruct H3 as [->|(f & -> & Hf & Hfi)].
        { exists ifile. auto. }
        { exists f. repeat split; auto. now apply (incl_pop_rest ii l). }
      * apply IH, Hn.
    + exists l, first. repeat split; auto using incl_refl.
Qed.

Lemma index_loop_none (fuel : nat) : forall ii l first,
  named l ->
  (forall j p, ii <= j -> nth_error l j = Some p -> index_stemmed p = false) ->
  index_loop fuel ii l first = Ok (l, first).
Proof.
  induction fuel as [|fuel IH]; intros ii l first Hn Hno; simpl; [reflexivity|].
  destruct (nth_error l ii) as [ifile|] eqn:E; [|reflexivity].
  assert (Hname : name_of ifile <> "").
  { unfold named in Hn; rewrite Forall_forall in Hn.
    apply Hn. eapply nth_error_In; eauto. }
  rewrite (is_index_named _ Hname). simpl.
  rewrite (Hno ii ifile (Nat.le_refl _) E).
  apply IH; [exact Hn|]. intros j p Hj. apply Hno. lia.
Qed.

Lemma index_loop_hits (fuel : nat) : forall ii l first,
  named l ->
  (exists k p, ii <= k /\ nth_error l k = Some p /\ index_stemmed p = true) ->
  List.length l - ii <= fuel ->
  exists l' f,
    index_loop fuel ii l first = Ok (l', Some f) /\ incl l' l /\
    In f l /\ index_stemmed f = true.
Proof.
  induction fuel as [|fuel IH]; intros ii l first Hn (k & p & Hk & Hp & Hi) Hfuel.
  - assert (k < List.length l) by (apply nth_error_Some; congruence). lia.
  - simpl. destruct (nth_error l ii) as [ifile|] eqn:E.
    + assert (Hin : In ifile l) by (eapply nth_error_In; eauto).
      assert (Hname : name_of ifile <> "")
        by (unfold named in Hn; rewrite Forall_forall in Hn; auto).
      rewrite (is_index_named _ Hname). simpl.
      destruct (index_stemmed ifile) eqn:Ei.
      * destruct (index_loop_ok fuel (S ii) (pop_rest ii l) (Some ifile))
          as (l' & f' & H1 & H2 & H3).
        { eapply named_incl; [apply incl_pop_rest | exact Hn]. }
        destruct H3 as [->|(f & -> & Hf & Hfi)].
        { exists l', ifile. repeat split; auto.
          eapply incl_tran; [exact H2 | apply incl_pop_rest]. }
        { exists l', f. repeat split; auto.
          - eapply incl_tran; [exact H2 | apply incl_pop_rest].
          - now apply (incl_pop_rest ii l). }
      * apply IH; [exact Hn | | lia].
        exists k, p. repeat split; auto.
        destruct (Nat.eq_dec k ii) as [->|]; [congruence | lia].
    + apply nth_error_None in E.
      assert (k < List.length l) by (apply nth_error_Some; congruence). lia.
Qed.

Lemma index_loop_unique (fuel : nat) : forall ii l first k p,
  named l ->
  ii <= k -> nth_error l k = Some p -> index_stemmed p = true ->
  (forall j q, j <> k -> nth_error l j = Some q -> index_stemmed q = false) ->
  k - ii < fuel ->
  index_loop fuel ii l first = Ok (pop_rest k l, Some p).
Proof.
  induction fuel as [|fuel IH]; intros ii l first k p Hn Hk Hp Hi Hu Hfuel; [lia|].
  simpl. destruct (Nat.eq_dec ii k) as [->|Hne].
  - rewrite Hp.
    assert (Hname : name_of p <> "").
    { unfold named in Hn; rewrite Forall_forall in Hn.
      apply Hn. eapply nth_error_In; eauto. }
    rewrite (is_index_named _ Hname). simpl. rewrite Hi.
    apply index_loop_none.
    + eapply named_incl; [apply incl_pop_rest | exact Hn].
    + intros j q Hj Hq. rewrite nth_error_pop_rest_after in Hq by lia.
      apply (Hu (S j)); [lia | exact Hq].
  - destruct (nth_error l ii) as [ifile|] eqn:E.
    + assert (Hname : name_of ifile <> "").
      { unfold named in Hn; rewrite Forall_forall in Hn.
        apply Hn. eapply nth_error_In; eauto. }
      rewrite (is_index_named _ Hname). simpl.
      rewrite (Hu ii ifile Hne E).
      apply IH; auto; lia.
    + apply nth_error_None in E.
      assert (k < List.length l) by (apply nth_error_Some; congruence). lia.
Qed.

(** With an index page among the content files, the parent is one. *)
Lemma select_parent_index (l : list Path) :
  named l ->
  (exists p, In p l /\ index_stemmed p = true) ->
  exists f rest,
    select_parent l = Ok (f, rest) /\ In f l /\ index_stemmed f = true /\
    incl rest l.
Proof.
  intros Hn (p & Hp & Hi). unfold select_parent.
  destruct (In_nth_error l p Hp) as (k & Hk).
  destruct (index_loop_hits (List.length l) 0 l None Hn) as (l' & f & H1 & H2 & H3 & H4).
  - exists k, p. repeat split; auto. lia.
  - lia.
  - rewrite H1. simpl. exists f, l'. auto.
Qed.

Lemma index_loop_keeps (fuel : nat) : forall ii l l',
  named l -> index_loop fuel ii l None = Ok (l', None) -> l' = l.
Proof.
  induction fuel as [|fuel IH]; intros ii l l' Hn H; simpl in H.
  - now inversion H.
  - destruct (nth_error l ii) as [ifile|] eqn:E; [|now inversion H].
    assert (Hname : name_of ifile <> "").
    { unfold named in Hn; rewrite Forall_forall in Hn.
      apply Hn. eapply nth_error_In; eauto. }
    rewrite (is_index_named _ Hname) in H. simpl in H.
    destruct (index_stemmed ifile).
    + destruct (index_loop_ok fuel (S ii) (pop_rest ii l) (Some ifile))
        as (l2 & f2 & G1 & _ & G3).
      { eapply named_incl; [apply incl_pop_rest | exact Hn]. }
      rewrite G1 in H. inversion H; subst.
      destruct G3 as [G|(? & G & _)]; discriminate.
    + eapply IH; eauto.
Qed.

(** The choice never fails on a list that is not empty. *)
Lemma select_parent_total (l : list Path) :
  named l -> l <> [] ->
  exists f rest, select_parent l = Ok (f, rest) /\ In f l /\ incl rest l.
Proof.
  intros Hn Hne. unfold select_parent.
  destruct (index_loop_ok (List.length l) 0 l None Hn) as (l' & f' & H1 & H2 & H3).
  rewrite H1. simpl. destruct f' as [f|].
  - destruct H3 as [H3|(f0 & E & Hf & _)]; [discriminate|].
    inversion E; subst. exists f0, l'. auto.
  - apply index_loop_keeps in H1; [subst l' | exact Hn].
    destruct l as [|a l]; [congruence|].
    exists a, l. repeat split.
    + now left.
    + intros x Hx. now right.
Qed.

(** With at most one index page, the parent is the one the rule names and
    the other content files all remain. *)
Lemma select_parent_regular (l : list Path) :
  named l -> NoDup l -> l <> [] ->
  (forall p q, In p l -> In q l ->
               index_stemmed p = true -> index_stemmed q = true -> p = q) ->
  exists f rest,
    select_parent l = Ok (f, rest) /\ parent_by_rule l = Some f /\
    Permutation l (f :: rest).
Proof.
  intros Hn Hnd Hne Hu. unfold select_parent, parent_by_rule.
  destruct (find index_stemmed l) as [p|] eqn:Ef.
  - apply find_some in Ef. destruct Ef as [Hp Hi].
    destruct (In_nth_error l p Hp) as (k & Hk).
    rewrite (index_loop_unique (List.length l) 0 l None k p); auto; try lia.
    + simpl. exists p, (pop_rest k l). repeat split.
      rewrite (pop_rest_split k l p Hk) at 1. unfold pop_rest.
      symmetry. apply Permutation_middle.
    + intros j q Hj Hq. destruct (index_stemmed q) eqn:Eq; [|reflexivity].
      exfalso. apply Hj.
      assert (q = p) by (apply Hu; auto; eapply nth_error_In; eauto). subst q.
      apply (proj1 (NoDup_nth_error l) Hnd); [|congruence].
      apply nth_error_Some. congruence.
    + assert (k < List.length l) by (apply nth_error_Some; congruence). lia.
  - rewrite index_loop_none; auto.
    + simpl. destruct l as [|a l]; [congruence|].
      exists a, l. repeat split. apply Permutation_refl.
    + intros j q _ Hq. apply (find_none _ _ Ef). eapply nth_error_In; eauto.
Qed.

(** *** The loops of the walk *)

Lemma children_loop_named (skip_text : list string) (l : list Path) :
  forall pages, named l ->
  children_loop skip_text l pages =
  Ok (pages ++ map (leaf_node (title_for "_"))
                   (filter (fun p => negb (any_skip skip_text p)) l)).
Proof.
  induction l as [|p l IH]; intros pages Hn; simpl.
  - now rewrite app_nil_r.
  - inversion Hn; subst. destruct (any_skip skip_text p); simpl.
    + now apply IH.
    + rewrite (content_path_to_yaml_named _ _ H1). simpl.
      rewrite IH by assumption. now rewrite <- app_assoc.
Qed.

Lemma any_skip_app (a b : list string) (p : Path) :
  any_skip (a ++ b) p = any_skip a p || any_skip b p.
Proof. unfold any_skip. apply existsb_app. Qed.

Lemma any_skip_repeat (l0 : list string) (k : nat) (p : Path) :
  any_skip (l0 ++ repeat marker (S k)) p = any_skip (l0 ++ [marker]) p.
Proof.
  rewrite !any_skip_app. f_equal.
  induction k as [|k IH]; [reflexivity|].
  change (repeat marker (S (S k))) with ([marker] ++ repeat marker (S k)).
  rewrite any_skip_app, IH. apply orb_diag.
Qed.

Lemma repeat_snoc (k : nat) : repeat marker k ++ [marker] = repeat marker (S k).
Proof. symmetry. apply repeat_cons. Qed.

Lemma content_files_named (path : Path) (es : list entry) :
  (forall e, In e es -> entry_name e <> "") -> named (content_files_of path es).
Proof.
  intros H. unfold named, content_files_of. apply Forall_forall. intros p Hp.
  apply filter_In in Hp. destruct Hp as [Hp _]. apply in_map_iff in Hp.
  destruct Hp as (e & <- & He). rewrite name_of_child. now apply H.
Qed.

Lemma preorder_leaf (title_of : Path -> string) (p : Path) :
  preorder (leaf_node title_of p) = [leaf_node title_of p].
Proof. reflexivity. Qed.

Lemma files_of_leaves (title_of : Path -> string) (l : list Path) :
  named l ->
  map file (flat_map preorder (map (leaf_node title_of) l)) = map node_file l.
Proof.
  induction l as [|p l IH]; intros Hn; [reflexivity|].
  inversion Hn; subst. simpl. rewrite IH by assumption.
  now rewrite node_file_named.
Qed.

Lemma find_content_structure_eq (path : Path) (es : list entry)
    (split_char : string) (skip_text : option (list string)) :
  _find_content_structure path (Listing es) split_char skip_text =
  let sk := given_skip skip_text ++ [marker] in
  let cfs := content_files_of path es in
  if Nat.eqb (List.length cfs) 0 then (Ok None, sk)
  else
    match
      (sel <- select_parent cfs ;;
       let (first_content, content_files) := sel : Path * list Path in
       parent <- _content_path_to_yaml first_content split_char ;;
       pages <- children_loop sk content_files [] ;;
       Ok (parent, pages))
    with
    | Raise err => (Raise err, sk)
    | Ok (parent, pages) =>
        match
          folders_loop
            (fun folder sub sk =>
               _find_content_structure folder sub split_char (Some sk))
            path es pages sk
        with
        | (Raise err, sk') => (Raise err, sk')
        | (Ok pages, sk') =>
            (Ok (Some (if Nat.eqb (List.length pages) 0 then parent
                       else set_pages parent pages)), sk')
        end
    end.
Proof. reflexivity. Qed.

Lemma folders_loop_file walk (path : Path) (n : string) (rest : list entry)
    (pages : list node) (sk : list string) :
  folders_loop walk path (File n :: rest) pages sk
  = folders_loop walk path rest pages sk.
Proof. reflexivity. Qed.

Lemma folders_loop_folder walk (path : Path) (n : string) (sub : dir)
    (rest : list entry) (pages : list node) (sk : list string) :
  folders_loop walk path (Folder n sub :: rest) pages sk
  = if any_skip sk (path // n) then folders_loop walk path rest pages sk
    else match walk (path // n) sub sk with
         | (Raise err, sk') => (Raise err, sk')
         | (Ok (Some folder_out), sk') =>
             folders_loop walk path rest (pages ++ [folder_out]) sk'
         | (Ok None, sk') => folders_loop walk path rest pages sk'
         end.
Proof. reflexivity. Qed.

Lemma dirs_visited_pos (skipped : Path -> bool) (path : Path) (d : dir) :
  exists v, dirs_visited skipped path d = S v.
Proof. destruct d. simpl. eauto. Qed.

Lemma folders_loop_spec (skipped : Path -> bool) (split_char : string)
    (path : Path) (l0 : list string) :
  (forall p, any_skip (l0 ++ [marker]) p = skipped p) ->
  forall l,
    (forall n sub, In (Folder n sub) l ->
                   walk_spec skipped split_char (path // n) sub) ->
    forall pages k,
    exists subs,
      folders_loop
        (fun folder sub sk =>
           _find_content_structure folder sub split_char (Some sk))
        path l pages (l0 ++ repeat marker (S k))
      = (Ok (pages ++ subs),
         l0 ++ repeat marker
                 (S k + count_folders (dirs_visited skipped) skipped path l))
      /\ map file (flat_map preorder subs)
         = map node_file (kept_below (kept skipped) skipped path l).
Proof.
  intros Hsk l. induction l as [|e l IH]; intros Hwalk pages k.
  - exists []. simpl. rewrite app_nil_r, Nat.add_0_r. auto.
  - assert (Hwalk' : forall n sub, In (Folder n sub) l ->
                                   walk_spec skipped split_char (path // n) sub)
      by (intros n sub H; apply (Hwalk n sub); now right).
    destruct e as [n|n sub].
    + rewrite folders_loop_file. apply IH, Hwalk'.
    + rewrite folders_loop_folder. rewrite any_skip_repeat, Hsk.
      cbn [count_folders kept_below].
      destruct (skipped (path // n)) eqn:Es.
      * apply IH, Hwalk'.
      * destruct (Hwalk n sub (or_introl eq_refl)
                        (Some (l0 ++ repeat marker (S k)))) as (r & Hr & Hfiles).
        { intros p. unfold skipped_by, given_skip.
          rewrite <- app_assoc, repeat_snoc, any_skip_repeat. apply Hsk. }
        rewrite Hr. unfold given_skip.
        destruct (dirs_visited_pos skipped (path // n) sub) as (v & Ev).
        rewrite Ev. rewrite <- app_assoc, <- repeat_app.
        replace (S k + S v) with (S (k + S v)) by lia.
        destruct r as [t|].
        -- destruct (IH Hwalk' (pages ++ [t]) (k + S v)) as (subs & H1 & H2).
           exists (t :: subs). rewrite H1. split.
           ++ f_equal; [now rewrite <- app_assoc | f_equal; f_equal; lia].
           ++ simpl. rewrite !map_app. rewrite H2. f_equal. apply Hfiles.
        -- destruct (IH Hwalk' pages (k + S v)) as (subs & H1 & H2).
           exists subs. rewrite H1. split.
           ++ f_equal. f_equal. f_equal. lia.
           ++ rewrite H2. destruct sub as [es']. simpl in Hfiles. simpl.
              now rewrite Hfiles.
Qed.

Lemma dirs_visited_content (skipped : Path -> bool) (path : Path)
    (es : list entry) :
  content_files_of path es <> [] ->
  dirs_visited skipped path (Listing es)
  = S (count_folders (dirs_visited skipped) skipped path es).
Proof. intros H. simpl. destruct (content_files_of path es); congruence. Qed.

Lemma kept_content (skipped : Path -> bool) (path : Path) (es : list entry)
    (first : Path) (rest : list Path) :
  content_files_of path es <> [] ->
  select_parent (content_files_of path es) = Ok (first, rest) ->
  kept skipped path (Listing es)
  = first :: filter (fun p => negb (skipped p)) rest
          ++ kept_below (kept skipped) skipped path es.
Proof.
  intros H Hsel. simpl. rewrite Hsel.
  destruct (content_files_of path es); congruence.
Qed.

Lemma preorder_root (parent : node) (pages0 : list node) :
  pages parent = None ->
  preorder (if Nat.eqb (List.length pages0) 0 then parent
            else set_pages parent pages0)
  = (if Nat.eqb (List.length pages0) 0 then parent
     else set_pages parent pages0) :: flat_map preorder pages0.
Proof.
  intros H. destruct pages0 as [|x l]; simpl.
  - destruct parent; simpl in *. now subst.
  - reflexivity.
Qed.

(** The walk of a well-formed directory never raises; it leaves the skip
    list longer by one marker for each folder it worked through, and its
    nodes stand for the kept files, in their order. *)
Lemma walk_correct (skipped : Path -> bool) (split_char : string) :
  forall d, fs_ok d -> forall path, walk_spec skipped split_char path d.
Proof.
  intros d. induction d as [es IH] using dir_ind_folders.
  intros Hok path skip_text Hsk. inversion Hok as [es0 Hnd Hnames Hsub]; subst.
  rewrite find_content_structure_eq. cbv zeta.
  pose proof (content_files_named path es Hnames) as Hn.
  assert (Hcase : content_files_of path es = [] \/ content_files_of path es <> [])
    by (destruct (content_files_of path es); [now left | right; discriminate]).
  destruct Hcase as [Hnil|Hne].
  - exists None. simpl. rewrite Hnil. auto.
  - replace (Nat.eqb (List.length (content_files_of path es)) 0) with false
      by (destruct (content_files_of path es); [congruence | reflexivity]).
    destruct (select_parent_total _ Hn Hne) as (first & rest & Hsel & Hfirst & Hrest).
    rewrite (dirs_visited_content _ _ _ Hne).
    rewrite (kept_content _ _ _ _ _ Hne Hsel).
    rewrite Hsel. simpl bind.
    assert (Hnf : name_of first <> "")
      by (unfold named in Hn; rewrite Forall_forall in Hn; auto).
    assert (Hnr : named rest) by (eapply named_incl; eauto).
    rewrite (content_path_to_yaml_named _ _ Hnf). simpl bind.
    rewrite (children_loop_named _ _ [] Hnr). simpl bind. simpl app.
    destruct (folders_loop_spec skipped split_char path (given_skip skip_text) Hsk es)
      with (pages := map (leaf_node (title_for "_"))
                         (filter (fun p => negb (any_skip (given_skip skip_text ++ [marker]) p)) rest))
           (k := 0)
      as (subs & Hloop & Hfiles).
    { intros n sub Hin. apply IH with (n := n); auto. eapply Hsub; eauto. }
    change (given_skip skip_text ++ repeat marker 1)
      with (given_skip skip_text ++ [marker]) in Hloop.
    rewrite Hloop.
    eexists. split.
    + reflexivity.
    + cbv beta iota. split.
      * rewrite preorder_root by reflexivity.
        cbn [map]. f_equal.
        -- rewrite (node_file_named _ Hnf).
           destruct (Nat.eqb _ 0); reflexivity.
        -- rewrite flat_map_app, !map_app. f_equal; [|exact Hfiles].
           rewrite files_of_leaves.
           ++ f_equal. apply filter_ext. intros p. f_equal. apply Hsk.
           ++ eapply named_incl; [|exact Hnr]. intros x Hx.
              apply filter_In in Hx. tauto.
      * exists first, rest. split; [exact Hsel|].
        destruct (Nat.eqb _ 0); simpl; auto.
Qed.

(** *** The invariant of the generated tree *)

Lemma content_path_to_yaml_leaf (p : Path) (split_char : string) (n : node) :
  _content_path_to_yaml p split_char = Ok n -> pages n = None.
Proof.
  unfold _content_path_to_yaml. intros H.
  destruct (with_suffix_empty p) as [q|]; simpl in H; [|discriminate].
  destruct (with_suffix_empty q) as [r|]; simpl in H; [|discriminate].
  inversion H. reflexivity.
Qed.

Lemma preorder_without_pages (n : node) : pages n = None -> preorder n = [n].
Proof. destruct n; simpl. now intros ->. Qed.

Lemma children_loop_pages_ok (sk : list string) (l : list Path) :
  forall pages0 pages1,
    children_loop sk l pages0 = Ok pages1 ->
    Forall (fun n => Forall pages_ok (preorder n)) pages0 ->
    Forall (fun n => Forall pages_ok (preorder n)) pages1.
Proof.
  induction l as [|p l IH]; intros pages0 pages1 H Hall; simpl in H.
  - inversion H; subst; assumption.
  - destruct (any_skip sk p); [eapply IH; eauto|].
    destruct (_content_path_to_yaml p "_") as [n|] eqn:E; simpl in H;
      [|discriminate].
    eapply IH; [exact H|]. apply Forall_app. split; [exact Hall|].
    constructor; [|constructor].
    pose proof (content_path_to_yaml_leaf _ _ _ E) as Hp.
    rewrite (preorder_without_pages _ Hp). constructor; [|constructor].
    unfold pages_ok. rewrite Hp. discriminate.
Qed.

Lemma folders_loop_pages_ok
    (walk : Path -> dir -> list string -> result (option node) * list string)
    (path : Path) (l : list entry) :
  (forall n sub sk t sk', In (Folder n sub) l ->
     walk (path // n) sub sk = (Ok (Some t), sk') ->
     Forall pages_ok (preorder t)) ->
  forall pages0 sk pages1 sk',
    folders_loop walk path l pages0 sk = (Ok pages1, sk') ->
    Forall (fun n => Forall pages_ok (preorder n)) pages0 ->
    Forall (fun n => Forall pages_ok (preorder n)) pages1.
Proof.
  induction l as [|e l IH]; intros Hwalk pages0 sk pages1 sk' H Hall.
  - simpl in H. inversion H; subst; assumption.
  - assert (Hwalk' : forall n sub sk t sk', In (Folder n sub) l ->
              walk (path // n) sub sk = (Ok (Some t), sk') ->
              Forall pages_ok (preorder t))
      by (intros n sub sk0 t sk0' Hin; apply (Hwalk n sub); now right).
    destruct e as [n|n sub].
    + rewrite folders_loop_file in H. eapply IH; eauto.
    + rewrite folders_loop_folder in H.
      destruct (any_skip sk (path // n)); [eapply IH; eauto|].
      destruct (walk (path // n) sub sk) as [[[t|]|err] sk1] eqn:E.
      * eapply IH; [exact Hwalk' | exact H |].
        apply Forall_app. split; [exact Hall|]. constructor; [|constructor].
        eapply Hwalk; [now left | exact E].
      * eapply IH; eauto.
      * discriminate.
Qed.

Lemma generated_pages_ok (split_char : string) : forall d path skip_text t sk,
  _find_content_structure path d split_char skip_text = (Ok (Some t), sk) ->
  Forall pages_ok (preorder t).
Proof.
  intros d. induction d as [es IH] using dir_ind_folders.
  intros path skip_text t sk H. rewrite find_content_structure_eq in H.
  cbv zeta in H.
  destruct (Nat.eqb (List.length (content_files_of path es)) 0); [discriminate|].
  destruct (select_parent (content_files_of path es)) as [[first rest]|];
    simpl bind in H; [|discriminate].
  destruct (_content_path_to_yaml first split_char) as [parent0|] eqn:Ep;
    simpl bind in H; [|discriminate].
  destruct (children_loop (given_skip skip_text ++ [marker]) rest []) as [pages0|] eqn:Ec;
    simpl bind in H; [|discriminate].
  cbv beta iota in H.
  destruct (folders_loop
              (fun folder sub sk =>
                 _find_content_structure folder sub split_char (Some sk))
              path es pages0 (given_skip skip_text ++ [marker]))
    as [[pages1|] sk1] eqn:Ef; [|discriminate].
  inversion H; subst. clear H.
  assert (Hall : Forall (fun n => Forall pages_ok (preorder n)) pages1).
  { eapply folders_loop_pages_ok; [| exact Ef |].
    - intros n sub sk0 t sk0' Hin Hw. cbv beta in Hw.
      eapply IH; [exact Hin | exact Hw].
    - eapply children_loop_pages_ok; [exact Ec | constructor]. }
  pose proof (content_path_to_yaml_leaf _ _ _ Ep) as Hp.
  rewrite (preorder_root _ _ Hp). constructor.
  - unfold pages_ok. destruct pages1; simpl; [rewrite Hp|]; discriminate.
  - clear - Hall. induction Hall; simpl; [constructor|].
    apply Forall_app. split; assumption.
Qed.

(** *** The index page *)

Lemma normalize_abs_snoc (xs : list string) (n : string) :
  plain n -> normalize_abs (xs ++ [n]) = normalize_abs xs ++ [n].
Proof.
  intros (H1 & H2 & H3). unfold normalize_abs. rewrite fold_left_app. simpl.
  unfold norm_step at 1.
  destruct (String.eqb_spec n ""); [contradiction|].
  destruct (String.eqb_spec n "."); [contradiction|].
  destruct (String.eqb_spec n ".."); [contradiction|]. reflexivity.
Qed.

Lemma resolve_child_parent (path : Path) (n : string) :
  plain n ->
  name_of (parent (resolve cwd (path // n))) = name_of (resolve cwd path).
Proof.
  intros Hn. unfold resolve, parent, name_of, child. simpl.
  destruct (root path); simpl.
  - now rewrite app_assoc, normalize_abs_snoc, removelast_last.
  - now rewrite normalize_abs_snoc, removelast_last.
Qed.

Lemma in_content_files (path : Path) (es : list entry) (p : Path) :
  In p (content_files_of path es) <->
  exists e, In e es /\ p = path // entry_name e /\ supported p = true.
Proof.
  unfold content_files_of. rewrite filter_In, in_map_iff. split.
  - intros ((e & <- & He) & Hs). eauto.
  - intros (e & He & -> & Hs). eauto.
Qed.

(** *** The files behind the nodes *)

Lemma in_kept_below (keep : Path -> dir -> list Path) (skipped : Path -> bool)
    (path : Path) (l : list entry) (p : Path) :
  In p (kept_below keep skipped path l) <->
  exists n sub,
    In (Folder n sub) l /\ skipped (path // n) = false /\
    In p (keep (path // n) sub).
Proof.
  induction l as [|e l IH].
  - simpl. split; [tauto | intros (n & sub & [] & _)].
  - destruct e as [n|n sub]; cbn [kept_below].
    + rewrite IH. split.
      * intros (n' & sub' & H1 & H2). exists n', sub'. split; [now right|exact H2].
      * intros (n' & sub' & [H1|H1] & H2); [discriminate|]. eauto.
    + rewrite in_app_iff, IH. split.
      * intros [H|(n' & sub' & H1 & H2)].
        -- destruct (skipped (path // n)) eqn:E; [destruct H|].
           exists n, sub. repeat split; auto. now left.
        -- exists n', sub'. split; [now right|exact H2].
      * intros (n' & sub' & [H1|H1] & H2 & H3).
        -- inversion H1; subst. left. now rewrite H2.
        -- right. eauto.
Qed.

Lemma kept_empty (skipped : Path -> bool) (path : Path) (es : list entry) :
  content_files_of path es = [] -> kept skipped path (Listing es) = [].
Proof. intros H. simpl. now rewrite H. Qed.

Lemma content_files_cases (path : Path) (es : list entry) :
  content_files_of path es = [] \/ content_files_of path es <> [].
Proof.
  destruct (content_files_of path es); [now left | right; discriminate].
Qed.

Lemma kept_reached (skipped : Path -> bool) : forall d,
  fs_ok d -> forall path p, In p (kept skipped path d) -> reached skipped path d p.
Proof.
  intros d. induction d as [es IH] using dir_ind_folders.
  intros Hok path p Hin. inversion Hok as [es0 Hnd Hnames Hsub]; subst.
  destruct (content_files_cases path es) as [Hnil|Hne].
  - rewrite (kept_empty _ _ _ Hnil) in Hin. destruct Hin.
  - pose proof (content_files_named path es Hnames) as Hn.
    destruct (select_parent_total _ Hn Hne) as (first & rest & Hsel & Hfirst & Hrest).
    rewrite (kept_content _ _ _ _ _ Hne Hsel) in Hin.
    assert (Hhere : forall q, In q (content_files_of path es) ->
                              reached skipped path (Listing es) q).
    { intros q Hq. apply in_content_files in Hq.
      destruct Hq as (e & He & -> & Hs). now apply reached_here. }
    destruct Hin as [<-|Hin]; [now apply Hhere|].
    apply in_app_or in Hin. destruct Hin as [Hin|Hin].
    + apply filter_In in Hin. apply Hhere, Hrest, Hin.
    + apply in_kept_below in Hin. destruct Hin as (n & sub & H1 & H2 & H3).
      eapply reached_below; eauto.
Qed.

Lemma reached_parts (skipped : Path -> bool) (path : Path) (d : dir) (p : Path) :
  reached skipped path d p ->
  exists m tail, parts p = parts path ++ m :: tail.
Proof.
  induction 1 as [path es e He Hs | path es n sub p Hne Hin Hsk Hr IH].
  - exists (entry_name e), []. reflexivity.
  - destruct IH as (m & tail & E). exists n, (m :: tail).
    rewrite E. unfold child. simpl. now rewrite <- app_assoc.
Qed.

Lemma child_injective (path : Path) (a b : string) :
  path // a = path // b -> a = b.
Proof.
  unfold child. intros H. inversion H as [H1].
  apply app_inv_head in H1. now inversion H1.
Qed.

Lemma content_files_NoDup (path : Path) (es : list entry) :
  NoDup (map entry_name es) -> NoDup (content_files_of path es).
Proof.
  intros H. unfold content_files_of. apply NoDup_filter.
  induction es as [|e es IH]; simpl; [constructor|].
  inversion H as [|x l Hx Hl]; subst. constructor; [|now apply IH].
  intros Hin. apply in_map_iff in Hin. destruct Hin as (e' & E & He').
  apply child_injective in E. apply Hx. rewrite <- E. now apply in_map.
Qed.

Lemma regular_parent (skipped : Path -> bool) (path : Path) (es : list entry) :
  fs_ok (Listing es) -> regular skipped path (Listing es) ->
  content_files_of path es <> [] ->
  exists first rest,
    select_parent (content_files_of path es) = Ok (first, rest) /\
    skipped first = false /\
    Permutation (content_files_of path es) (first :: rest).
Proof.
  intros Hok Hreg Hne.
  inversion Hok as [es0 Hnd Hnames Hsub]; subst.
  inversion Hreg as [path0 es0 Hstem Hpar Hsuf Hrec]; subst.
  destruct (select_parent_regular (content_files_of path es))
    as (first & rest & Hsel & Hrule & Hperm); auto.
  - now apply content_files_named.
  - now apply content_files_NoDup.
  - intros p q Hp Hq Hip Hiq. apply Hstem; auto.
    unfold index_stemmed in Hip, Hiq.
    apply String.eqb_eq in Hip. apply String.eqb_eq in Hiq. congruence.
  - exists first, rest. auto.
Qed.

Lemma kept_unskipped (skipped : Path -> bool) : forall d,
  fs_ok d -> forall path, regular skipped path d ->
  forall p, In p (kept skipped path d) -> skipped p = false.
Proof.
  intros d. induction d as [es IH] using dir_ind_folders.
  intros Hok path Hreg p Hin.
  destruct (content_files_cases path es) as [Hnil|Hne].
  - rewrite (kept_empty _ _ _ Hnil) in Hin. destruct Hin.
  - destruct (regular_parent _ _ _ Hok Hreg Hne) as (first & rest & Hsel & Hsk & _).
    rewrite (kept_content _ _ _ _ _ Hne Hsel) in Hin.
    inversion Hok as [es0 Hnd Hnames Hsub]; subst.
    inversion Hreg as [path0 es0 Hstem Hpar Hsuf Hrec]; subst.
    destruct Hin as [<-|Hin]; [exact Hsk|].
    apply in_app_or in Hin. destruct Hin as [Hin|Hin].
    + apply filter_In in Hin. destruct Hin as [_ Hin].
      now apply negb_true_iff in Hin.
    + apply in_kept_below in Hin. destruct Hin as (n & sub & H1 & H2 & H3).
      eapply IH; eauto.
Qed.

Lemma reached_kept (skipped : Path -> bool) (path : Path) (d : dir) (p : Path) :
  reached skipped path d p ->
  fs_ok d -> regular skipped path d -> skipped p = false ->
  In p (kept skipped path d).
Proof.
  induction 1 as [path es e He Hs | path es n sub p Hne Hin Hsk Hr IH];
    intros Hok Hreg Hp.
  - assert (Hc : In (path // entry_name e) (content_files_of path es))
      by (apply in_content_files; eauto).
    assert (Hne : content_files_of path es <> [])
      by (intros E; rewrite E in Hc; destruct Hc).
    destruct (regular_parent _ _ _ Hok Hreg Hne) as (first & rest & Hsel & _ & Hperm).
    rewrite (kept_content _ _ _ _ _ Hne Hsel).
    apply (Permutation_in _ Hperm) in Hc. destruct Hc as [Hc|Hc]; [now left|].
    right. apply in_or_app. left. apply filter_In. split; [exact Hc|].
    now rewrite Hp.
  - destruct (regular_parent _ _ _ Hok Hreg Hne) as (first & rest & Hsel & _ & _).
    rewrite (kept_content _ _ _ _ _ Hne Hsel).
    inversion Hok as [es0 Hnd Hnames Hsub]; subst.
    inversion Hreg as [path0 es0 Hstem Hpar Hsuf Hrec]; subst.
    right. apply in_or_app. right. apply in_kept_below.
    exists n, sub. repeat split; auto. apply IH; eauto.
Qed.

Lemma kept_below_NoDup (skipped : Path -> bool) (path : Path) (l : list entry) :
  NoDup (map entry_name l) ->
  (forall n sub, In (Folder n sub) l -> fs_ok sub) ->
  (forall n sub, In (Folder n sub) l -> skipped (path // n) = false ->
                 NoDup (kept skipped (path // n) sub)) ->
  NoDup (kept_below (kept skipped) skipped path l).
Proof.
  induction l as [|e l IH]; intros Hnd Hok Hsub; [constructor|].
  inversion Hnd as [|x l0 Hx Hl]; subst.
  assert (IH' : NoDup (kept_below (kept skipped) skipped path l)).
  { apply IH; auto.
    - intros n sub H. apply (Hok n sub). now right.
    - intros n sub H. apply (Hsub n sub). now right. }
  destruct e as [n|n sub]; cbn [kept_below]; [exact IH'|].
  destruct (skipped (path // n)) eqn:E; [exact IH'|].
  apply NoDup_app; [apply (Hsub n sub); [now left | exact E] | exact IH' |].
  intros p Hp Hq.
  apply kept_reached in Hp; [|apply (Hok n sub); now left].
  apply reached_parts in Hp. destruct Hp as (m & tail & Ep).
  apply in_kept_below in Hq. destruct Hq as (n' & sub' & H1 & _ & H3).
  apply kept_reached in H3; [|apply (Hok n' sub'); now right].
  apply reached_parts in H3. destruct H3 as (m' & tail' & Eq).
  rewrite Ep in Eq. unfold child in Eq. simpl in Eq.
  rewrite <- !app_assoc in Eq. apply app_inv_head in Eq. simpl in Eq.
  inversion Eq; subst. apply Hx. simpl.
  change n' with (entry_name (Folder n' sub')). now apply in_map.
Qed.

Lemma kept_NoDup (skipped : Path -> bool) : forall d,
  fs_ok d -> forall path, regular skipped path d -> NoDup (kept skipped path d).
Proof.
  intros d. induction d as [es IH] using dir_ind_folders.
  intros Hok path Hreg.
  destruct (content_files_cases path es) as [Hnil|Hne].
  - rewrite (kept_empty _ _ _ Hnil). constructor.
  - destruct (regular_parent _ _ _ Hok Hreg Hne) as (first & rest & Hsel & _ & Hperm).
    rewrite (kept_content _ _ _ _ _ Hne Hsel).
    inversion Hok as [es0 Hnd Hnames Hsub]; subst.
    inversion Hreg as [path0 es0 Hstem Hpar Hsuf Hrec]; subst.
    pose proof (content_files_NoDup path es Hnd) as Hcf.
    apply (Permutation_NoDup Hperm) in Hcf.
    inversion Hcf as [|x l Hx Hl]; subst.
    assert (Hdirect : forall q, In q (first :: rest) ->
                                exists e, parts q = parts path ++ [entry_name e]).
    { intros q Hq. apply (Permutation_in _ (Permutation_sym Hperm)) in Hq.
      apply in_content_files in Hq. destruct Hq as (e & _ & -> & _).
      exists e. reflexivity. }
    assert (Hbelow : forall q,
              In q (kept_below (kept skipped) skipped path es) ->
              exists a b tail, parts q = parts path ++ a :: b :: tail).
    { intros q Hq. apply in_kept_below in Hq.
      destruct Hq as (n & sub & H1 & _ & H3).
      apply kept_reached in H3; [|eauto].
      apply reached_parts in H3. destruct H3 as (m & tail & E).
      exists n, m, tail. rewrite E. unfold child. simpl.
      now rewrite <- app_assoc. }
    assert (Hdisj : forall q, In q (first :: rest) ->
              ~ In q (kept_below (kept skipped) skipped path es)).
    { intros q Hq Hq'. destruct (Hdirect q Hq) as (e & E1).
      destruct (Hbelow q Hq') as (a & b & tail & E2).
      rewrite E1 in E2. apply app_inv_head in E2. discriminate. }
    constructor.
    + intros Hin. apply in_app_or in Hin. destruct Hin as [Hin|Hin].
      * apply filter_In in Hin. apply Hx, Hin.
      * apply (Hdisj first); [now left | exact Hin].
    + apply NoDup_app.
      * now apply NoDup_filter.
      * apply kept_below_NoDup; auto.
        intros n sub Hin Hsk. eapply IH; eauto.
      * intros q Hq Hq'. apply filter_In in Hq.
        apply (Hdisj q); [right; apply Hq | exact Hq'].
Qed.

(** *** The loader *)

Lemma loader_preserves_pages_ok (config config' : Config) (loaded : tree) :
  Py.truthy (globaltoc_path config) = true ->
  update_indexname config loaded = (Ok tt, config') ->
  Forall pages_ok (tree_nodes loaded) ->
  Forall pages_ok (tree_nodes (globaltoc config')).
Proof.
  intros Hpath H Hall. unfold update_indexname in H. rewrite Hpath in H.
  simpl in H.
  assert (Hnorm : forall toc,
            Forall pages_ok (preorder toc) ->
            match file toc with
            | Some f =>
                match _no_suffix (Some f) with
                | Ok (Some m) =>
                    (Ok tt, mkConfig (globaltoc_path config) (Single toc) m)
                | Ok None =>
                    (Ok tt, mkConfig (globaltoc_path config) (Single toc)
                                     (master_doc config))
                | Raise e =>
                    (Raise e, mkConfig (globaltoc_path config) (Single toc)
                                       (master_doc config))
                end
            | None =>
                (Raise (KeyError "file"),
                 mkConfig (globaltoc_path config) (Single toc) (master_doc config))
            end = (Ok tt, config') ->
            Forall pages_ok (tree_nodes (globaltoc config'))).
  { intros toc Htoc E. destruct (file toc); [|discriminate].
    destruct (_no_suffix (Some s)) as [[m|]|]; inversion E; subst; exact Htoc. }
  destruct loaded as [toc|[|toc_updated subsections]].
  - apply (Hnorm toc); assumption.
  - discriminate.
  - simpl in Hall. apply Forall_app in Hall. destruct Hall as [Hroot Hsubs].
    destruct subsections as [|s subsections].
    + apply (Hnorm toc_updated); assumption.
    + apply (Hnorm (set_pages toc_updated (s :: subsections))); [|exact H].
      simpl. constructor; [unfold pages_ok; simpl; discriminate | exact Hsubs].
Qed.

(** ** The claims about the walk *)

(** C4. In a directory with a content file whose stem is "index", the walk
    makes such a file the parent: the node it returns carries the path of
    the index page, and its title is made from the name of the directory
    itself, with the split character of the call. *)
Theorem index_page_is_parent (path : Path) (es : list entry)
    (split_char : string) (skip_text : option (list string)) :
  fs_ok (Listing es) ->
  (exists e, In e es /\ supported (path // entry_name e) = true /\
             stem_of (entry_name e) = "index") ->
  exists e rest t sk,
    In e es /\ supported (path // entry_name e) = true /\
    stem_of (entry_name e) = "index" /\
    select_parent (content_files_of path es) = Ok (path // entry_name e, rest) /\
    _find_content_structure path (Listing es) split_char skip_text
    = (Ok (Some t), sk) /\
    file t = Some (path_str (path // "index")) /\
    title t = Some (_filename_to_title (name_of (resolve cwd path)) split_char).
Proof.
  intros Hok (e & He & Hs & Hi).
  inversion Hok as [es0 Hnd Hnames Hsub]; subst.
  assert (Hc : In (path // entry_name e) (content_files_of path es))
    by (apply in_content_files; eauto).
  destruct (select_parent_index (content_files_of path es))
    as (f & rest & Hsel & Hf & Hfi & _).
  { now apply content_files_named. }
  { exists (path // entry_name e). split; [exact Hc|].
    unfold index_stemmed. rewrite name_of_child, Hi. reflexivity. }
  apply in_content_files in Hf. destruct Hf as (e' & He' & -> & Hs').
  unfold index_stemmed in Hfi. rewrite name_of_child in Hfi.
  apply String.eqb_eq in Hfi.
  destruct (walk_correct (skipped_by skip_text) split_char (Listing es) Hok
              path skip_text (fun p => eq_refl)) as (r & Hwalk & Hr).
  destruct r as [t|].
  - destruct Hr as (_ & first & rest' & Hsel' & Hfile & Htitle).
    simpl entries_of in Hsel'. rewrite Hsel in Hsel'. inversion Hsel'; subst.
    eexists e', rest', t, _. repeat split; eauto.
    + rewrite Hfile, !strip_child, Hfi. reflexivity.
    + rewrite Htitle, strip_child, Hfi. unfold title_for.
      rewrite name_of_child. simpl.
      rewrite resolve_child_parent; [reflexivity|].
      repeat split; discriminate.
  - simpl in Hr. rewrite Hr in Hc. destruct Hc.
Qed.

(** C5, as amended. Every node of a tree that the walk returns satisfies
    the invariant: its [pages], when present, is not empty. The loader
    keeps the invariant: when every node of the loaded description
    satisfies it, so does every node of the table it publishes. *)
Theorem pages_never_empty :
  (forall path d split_char skip_text t sk,
     _find_content_structure path d split_char skip_text = (Ok (Some t), sk) ->
     Forall pages_ok (preorder t)) /\
  (forall config loaded config',
     Py.truthy (globaltoc_path config) = true ->
     update_indexname config loaded = (Ok tt, config') ->
     Forall pages_ok (tree_nodes loaded) ->
     Forall pages_ok (tree_nodes (globaltoc config'))).
Proof.
  split.
  - intros path d split_char skip_text t sk H.
    eapply generated_pages_ok; eauto.
  - intros config loaded config'. apply loader_preserves_pages_ok.
Qed.

(** C10. A list passed as [skip_text] comes back from the walk, and from
    [build_toc], longer by one checkpoint marker for each folder that the
    walk worked through, of which there is at least one. *)
Theorem skip_text_grows_per_folder (path : string) (d : dir)
    (split_char : string) (l : list string) :
  fs_ok d ->
  let visited := dirs_visited (skipped_by (Some l)) (parse path) d in
  snd (_find_content_structure (parse path) d split_char (Some l))
  = l ++ repeat ".ipynb_checkpoints" visited /\
  snd (build_toc path d split_char (Some l))
  = l ++ repeat ".ipynb_checkpoints" visited /\
  1 <= visited.
Proof.
  intros Hok visited.
  destruct (walk_correct (skipped_by (Some l)) split_char d Hok
              (parse path) (Some l) (fun p => eq_refl)) as (r & Hwalk & _).
  fold visited in Hwalk. simpl given_skip in Hwalk.
  repeat split.
  - now rewrite Hwalk.
  - unfold build_toc. rewrite Hwalk. now destruct r.
  - unfold visited. destruct (dirs_visited_pos (skipped_by (Some l)) (parse path) d)
      as (v & ->). lia.
Qed.

End Generation.

(** ** The lookup *)

Lemma option_string_eqb_eq (a b : option string) :
  option_string_eqb a b = true <-> a = b.
Proof.
  destruct a as [x|], b as [y|]; simpl; try (split; congruence).
  rewrite String.eqb_eq. split; congruence.
Qed.

Lemma matchb_true (X : option string) (n : node) :
  matchb X n = true <-> matches X n.
Proof.
  unfold matchb, matches. destruct (_no_suffix (file n)) as [s|e].
  - rewrite option_string_eqb_eq. split; congruence.
  - split; discriminate.
Qed.

Lemma find_name_page_eq (X : option string) (page : node) :
  find_name_page X page =
  (stripped <- _no_suffix (file page) ;;
   if option_string_eqb stripped X then Ok (Some page)
   else find_name_pages X (get_pages page)).
Proof. destruct page as [f t nm num [l|]]; reflexivity. Qed.

Lemma find_name_pages_cons (X : option string) (p : node) (r : list node) :
  find_name_pages X (p :: r) =
  (found <- find_name_page X p ;;
   match found with
   | Some hit => Ok (Some hit)
   | None => find_name_pages X r
   end).
Proof. reflexivity. Qed.

Lemma find_app_first {A : Type} (f : A -> bool) (a b : list A) :
  find f (a ++ b) = match find f a with
                    | Some x => Some x
                    | None => find f b
                    end.
Proof.
  induction a as [|x a IH]; simpl; [reflexivity|]. now destruct (f x).
Qed.

Lemma find_all_false {A : Type} (f : A -> bool) (l : list A) :
  (forall x, In x l -> f x = false) -> find f l = None.
Proof.
  induction l as [|x l IH]; intros H; simpl; [reflexivity|].
  rewrite (H x (or_introl eq_refl)). apply IH. intros y Hy. apply H. now right.
Qed.

Lemma preorder_eq (n : node) : preorder n = n :: flat_map preorder (get_pages n).
Proof. destruct n as [f t nm num [l|]]; reflexivity. Qed.

(** On pages that all strip, the lookup is the search for the first match
    along the pre-order. *)
Lemma find_name_pages_is_find (X : option string) (l : list node) :
  Forall (fun n => (forall m, In m (preorder n) -> strips m) ->
                   find_name_page X n = Ok (find (matchb X) (preorder n))) l ->
  (forall m, In m (flat_map preorder l) -> strips m) ->
  find_name_pages X l = Ok (find (matchb X) (flat_map preorder l)).
Proof.
  induction 1 as [|x r Hx Hr IH]; intros Hs; [reflexivity|].
  rewrite find_name_pages_cons. simpl flat_map. rewrite find_app_first.
  rewrite Hx by (intros m Hm; apply Hs; simpl; apply in_or_app; now left).
  simpl. destruct (find (matchb X) (preorder x)); [reflexivity|].
  apply IH. intros m Hm. apply Hs. simpl. apply in_or_app. now right.
Qed.

Lemma find_name_page_is_find (X : option string) (n : node) :
  (forall m, In m (preorder n) -> strips m) ->
  find_name_page X n = Ok (find (matchb X) (preorder n)).
Proof.
  induction n as [f t nm num pg IH] using node_ind_sections. intros Hs.
  rewrite find_name_page_eq, preorder_eq.
  destruct (Hs _ (or_introl eq_refl)) as (s & Es).
  cbn [find]. unfold matchb at 1. simpl file in *. rewrite Es. simpl bind.
  destruct (option_string_eqb s X); [reflexivity|].
  apply find_name_pages_is_find.
  - unfold get_pages. simpl. exact IH.
  - intros m Hm. apply Hs. rewrite preorder_eq. right. exact Hm.
Qed.

(** The page that the lookup returns is a match. *)
Lemma find_name_pages_sound (X : option string) (l : list node) :
  Forall (fun n => forall hit, find_name_page X n = Ok (Some hit) ->
                               matches X hit) l ->
  forall hit, find_name_pages X l = Ok (Some hit) -> matches X hit.
Proof.
  induction 1 as [|x r Hx Hr IH]; intros hit H; [discriminate|].
  rewrite find_name_pages_cons in H.
  destruct (find_name_page X x) as [[h|]|] eqn:E; simpl in H.
  - inversion H; subst. now apply Hx.
  - now apply IH.
  - discriminate.
Qed.

Lemma find_name_page_sound (X : option string) (n : node) :
  forall hit, find_name_page X n = Ok (Some hit) -> matches X hit.
Proof.
  induction n as [f t nm num pg IH] using node_ind_sections. intros hit H.
  rewrite find_name_page_eq in H. simpl file in H.
  destruct (_no_suffix f) as [s|] eqn:Es; simpl in H; [|discriminate].
  destruct (option_string_eqb s X) eqn:E.
  - inversion H; subst. unfold matches. simpl.
    apply option_string_eqb_eq in E. congruence.
  - eapply find_name_pages_sound; [|exact H]. exact IH.
Qed.

Lemma find_name_sound (toc : tree) (X : option string) (hit : node) :
  find_name toc X = Ok (Some hit) -> matches X hit.
Proof.
  destruct toc as [page|l]; unfold find_name; apply find_name_pages_sound;
    apply Forall_forall; intros n _; apply find_name_page_sound.
Qed.

Lemma find_name_is_find (toc : tree) (X : option string) :
  (forall m, In m (tree_nodes toc) -> strips m) ->
  find_name toc X = Ok (find (matchb X) (tree_nodes toc)).
Proof.
  intros Hs. destruct toc as [page|l]; unfold find_name, tree_nodes in *.
  - rewrite <- (app_nil_r (preorder page)).
    change (preorder page ++ []) with (flat_map preorder [page]).
    apply find_name_pages_is_find.
    + apply Forall_forall. intros n _. apply find_name_page_is_find.
    + simpl. rewrite app_nil_r. exact Hs.
  - apply find_name_pages_is_find; [|exact Hs].
    apply Forall_forall. intros n _. apply find_name_page_is_find.
Qed.

(** ** Relative paths *)

Lemma plain_step (acc : list string) (c : string) :
  plain c -> norm_step acc c = acc ++ [c].
Proof.
  intros (H1 & H2 & H3). unfold norm_step.
  destruct (String.eqb_spec c ""); [contradiction|].
  destruct (String.eqb_spec c "."); [contradiction|].
  destruct (String.eqb_spec c ".."); [contradiction|]. reflexivity.
Qed.

Lemma norm_fold_plain (l : list string) : forall acc,
  Forall plain l -> fold_left norm_step l acc = acc ++ l.
Proof.
  induction l as [|c l IH]; intros acc H; simpl.
  - now rewrite app_nil_r.
  - inversion H; subst. rewrite plain_step by assumption.
    rewrite IH by assumption. now rewrite <- app_assoc.
Qed.

Lemma Forall_removelast {A : Type} (P : A -> Prop) (l : list A) :
  Forall P l -> Forall P (removelast l).
Proof.
  intros H. rewrite removelast_firstn_len. rewrite Forall_forall in *.
  intros x Hx. apply H. rewrite <- (firstn_skipn (pred (List.length l)) l).
  apply in_or_app. now left.
Qed.

Lemma norm_fold_keeps_plain (l : list string) : forall acc,
  Forall plain acc -> Forall plain (fold_left norm_step l acc).
Proof.
  induction l as [|c l IH]; intros acc H; simpl; [exact H|].
  apply IH. unfold norm_step.
  destruct (String.eqb_spec c ""); simpl; [exact H|].
  destruct (String.eqb_spec c "."); simpl; [exact H|].
  destruct (String.eqb_spec c "..").
  - now apply Forall_removelast.
  - apply Forall_app. split; [exact H|]. constructor; [|constructor].
    repeat split; assumption.
Qed.

Lemma normalize_abs_plain (l : list string) : Forall plain (normalize_abs l).
Proof. apply norm_fold_keeps_plain. constructor. Qed.

Lemma norm_fold_dotdot (k : nat) : forall acc,
  fold_left norm_step (repeat ".." k) acc = firstn (List.length acc - k) acc.
Proof.
  induction k as [|k IH]; intros acc; simpl.
  - rewrite Nat.sub_0_r. symmetry. apply firstn_all.
  - change (norm_step acc "..") with (removelast acc). rewrite IH.
    rewrite removelast_firstn_len, firstn_firstn, length_firstn.
    f_equal. lia.
Qed.

Lemma common_prefix_firstn (a : list string) : forall b,
  firstn (common_prefix_len a b) a = firstn (common_prefix_len a b) b.
Proof.
  induction a as [|x a IH]; intros [|y b]; simpl; try reflexivity.
  destruct (String.eqb_spec x y); simpl; [|reflexivity].
  subst. f_equal. apply IH.
Qed.

Lemma common_prefix_le (a : list string) : forall b,
  common_prefix_len a b <= List.length a.
Proof.
  induction a as [|x a IH]; intros [|y b]; simpl; try lia.
  destruct (x =? y)%string; [specialize (IH b)|]; lia.
Qed.

(** From the start directory, the relative path leads to the target. *)
Lemma relpath_list_correct (A B : list string) :
  Forall plain A -> Forall plain B ->
  normalize_abs (A ++ relpath_list A B) = B.
Proof.
  intros HA HB. unfold normalize_abs, relpath_list.
  rewrite !fold_left_app. rewrite (norm_fold_plain A [] HA). simpl app.
  rewrite norm_fold_dotdot.
  pose proof (common_prefix_le A B) as Hle.
  replace (List.length A - (List.length A - common_prefix_len A B))
    with (common_prefix_len A B) by lia.
  rewrite norm_fold_plain.
  - rewrite common_prefix_firstn. apply firstn_skipn.
  - rewrite Forall_forall in *. intros x Hx. apply HB.
    rewrite <- (firstn_skipn (common_prefix_len A B) B).
    apply in_or_app. now right.
Qed.

(** ** The claims about the injection *)

Section InjectionProperties.

Local Open Scope string_scope.

Variable cell : Type.
Variable notebook_rest : Type.
Variable nbf_reads : string -> result (notebook cell notebook_rest).
Variable nbf_new_markdown_cell : string -> cell.
Variable nbf_writes : notebook cell notebook_rest -> string.
Variable cwd : list string.

Lemma rewrite_sections_cons (f : string) (path_sec label : option string)
    (rest : list (option string * option string)) :
  rewrite_sections cwd (Some f) ((path_sec, label) :: rest) =
  (rel <- relpath cwd path_sec (path_str (parent (parse f))) ;;
   others <- rewrite_sections cwd (Some f) rest ;;
   Ok (this_section rel label :: others)).
Proof. reflexivity. Qed.

Lemma relpath_truthy (path : option string) (start : string) :
  Py.truthy path = true -> exists rel, relpath cwd path start = Ok rel.
Proof.
  intros H. unfold relpath. rewrite H. simpl.
  destruct path as [p|]; [|discriminate].
  destruct (relpath_list _ _); eauto.
Qed.

(** Children that all carry a path are all rewritten. *)
Lemma rewrite_sections_total (f : string) (children : list node) :
  Forall (fun c => Py.truthy (file c) = true) children ->
  exists entries,
    rewrite_sections cwd (Some f) (map (fun ii => (file ii, name ii)) children)
    = Ok entries.
Proof.
  induction 1 as [|c l Hc Hl (entries & IH)]; [exists []; reflexivity|].
  cbn [map]. rewrite rewrite_sections_cons.
  destruct (relpath_truthy (file c) (path_str (parent (parse f))) Hc) as (rel & ->).
  simpl. rewrite IH. simpl. eauto.
Qed.

(** C6. With a table of contents configured: when the lookup of the
    document returns absent, [add_toctree] raises an error whose message
    contains the path of the document, and the source is as it was; when
    the page found has no children, it returns without an error and the
    source is as it was. *)
Theorem add_toctree_absent_or_childless (app : App) (docname source : string)
    (X : option string) :
  Py.truthy (globaltoc_path (config app)) = true ->
  _no_suffix (Some (doc2path app docname)) = Ok X ->
  (find_name (globaltoc (config app)) X = Ok None ->
   exists before after,
     add_toctree nbf_reads nbf_new_markdown_cell nbf_writes cwd app docname source
     = (Raise (FileNotFoundError (before ++ doc2path app docname ++ after)),
        source)) /\
  (forall page,
     find_name (globaltoc (config app)) X = Ok (Some page) ->
     get_pages page = [] ->
     add_toctree nbf_reads nbf_new_markdown_cell nbf_writes cwd app docname source
     = (Ok tt, source)).
Proof.
  intros Hpath HX. split.
  - intros Hfind.
    exists ("The following path in your table of contents couldn't be found:"
            ++ Py.nl ++ Py.nl),
           ("." ++ Py.nl ++ Py.nl
            ++ "Double check your `_toc.yml` file to make sure the paths are correct.").
    unfold add_toctree. rewrite Hpath. simpl negb.
    cbv iota. rewrite HX. simpl bind. rewrite Hfind.
    reflexivity.
  - intros page Hfind Hpages. unfold add_toctree. rewrite Hpath. simpl negb.
    cbv iota. rewrite HX. simpl bind. rewrite Hfind. rewrite Hpages.
    reflexivity.
Qed.

Lemma no_suffix_of_string (s : string) (X : option string) :
  _no_suffix (Some s) = Ok X -> exists x, X = Some x.
Proof.
  unfold _no_suffix. destruct (with_suffix_empty (parse s)); simpl;
    [|discriminate].
  intros H. inversion H. eauto.
Qed.

Lemma matches_some_file (x : string) (page : node) :
  matches (Some x) page -> exists f, file page = Some f.
Proof.
  unfold matches. destruct (file page) as [f|]; [eauto|].
  simpl. discriminate.
Qed.

(** C7. For a document whose page has children, all with a path: the
    children are rewritten into entries, and with the directive made of
    them, a [.md] source gets the directive and a newline appended, an
    [.ipynb] source that [nbformat] reads is written back with one more
    markdown cell holding the directive, and any other suffix raises the
    error of unsupported formats and leaves the source as it was. *)
Theorem injection_by_format (app : App) (docname source : string)
    (X : option string) (page : node) :
  Py.truthy (globaltoc_path (config app)) = true ->
  _no_suffix (Some (doc2path app docname)) = Ok X ->
  find_name (globaltoc (config app)) X = Ok (Some page) ->
  get_pages page <> [] ->
  Forall (fun c => Py.truthy (file c) = true) (get_pages page) ->
  exists entries,
    rewrite_sections cwd (file page)
      (map (fun ii => (file ii, name ii)) (get_pages page)) = Ok entries /\
    let toctree := toctree_text (toctree_options page) (Py.join Py.nl entries) in
    let suff := suffix (parse (doc2path app docname)) in
    (suff = ".md" ->
     add_toctree nbf_reads nbf_new_markdown_cell nbf_writes cwd app docname source
     = (Ok tt, source ++ toctree ++ Py.nl)) /\
    (suff = ".ipynb" ->
     forall ntbk, nbf_reads source = Ok ntbk ->
     add_toctree nbf_reads nbf_new_markdown_cell nbf_writes cwd app docname source
     = (Ok tt,
        nbf_writes
          (mkNotebook (cells ntbk ++ [nbf_new_markdown_cell toctree])%list
                      (nb_rest ntbk)))) /\
    (suff <> ".md" -> suff <> ".ipynb" ->
     add_toctree nbf_reads nbf_new_markdown_cell nbf_writes cwd app docname source
     = (Raise (ValueError "Only markdown and ipynb files are supported."),
        source)).
Proof.
  intros Hpath HX Hfind Hne Hall.
  destruct (no_suffix_of_string _ _ HX) as (x & ->).
  destruct (matches_some_file x page (find_name_sound _ _ _ Hfind)) as (f & Hf).
  destruct (rewrite_sections_total f (get_pages page) Hall) as (entries & He).
  exists entries. rewrite Hf. split; [exact He|].
  assert (Hlen : Nat.eqb (List.length (map (fun ii => (file ii, name ii))
                                           (get_pages page))) 0 = false)
    by (destruct (get_pages page); [congruence | reflexivity]).
  cbv zeta. unfold add_toctree. rewrite Hpath. simpl negb. cbv iota zeta.
  rewrite HX. simpl bind. rewrite Hfind. rewrite Hlen. rewrite Hf, He.
  repeat split.
  - intros ->. reflexivity.
  - intros -> ntbk Hread. simpl. rewrite Hread. reflexivity.
  - intros H1 H2.
    destruct (String.eqb_spec (suffix (parse (doc2path app docname))) ".md");
      [contradiction|].
    destruct (String.eqb_spec (suffix (parse (doc2path app docname))) ".ipynb");
      [contradiction|].
    reflexivity.
Qed.

(** C8. The entries of the directive follow the children in their order.
    The path of an entry is the path of the child taken relative to the
    directory of the parent document: from that directory it leads to the
    child. The entry reads [label <path>] for a child with a label and is
    the bare path for a child without one. *)
Theorem sections_relative_and_labelled (f : string) (children : list node)
    (entries : list string) :
  rewrite_sections cwd (Some f) (map (fun ii => (file ii, name ii)) children)
  = Ok entries ->
  let start := path_str (parent (parse f)) in
  Forall2
    (fun c entry =>
       exists p rel_parts rel,
         file c = Some p /\
         rel_parts = relpath_list (abspath_list cwd start) (abspath_list cwd p) /\
         normalize_abs (abspath_list cwd start ++ rel_parts) = abspath_list cwd p /\
         rel = match rel_parts with
               | [] => "."
               | _ => Py.join "/" rel_parts
               end /\
         relpath cwd (file c) start = Ok rel /\
         entry = match label_of c with
                 | Some label => label ++ " <" ++ rel ++ ">"
                 | None => rel
                 end)
    children entries.
Proof.
  intros H start. revert entries H.
  induction children as [|c l IH]; intros entries H.
  - simpl in H. inversion H. constructor.
  - cbn [map] in H. rewrite rewrite_sections_cons in H. fold start in H.
    destruct (relpath cwd (file c) start) as [rel|] eqn:Er; simpl in H;
      [|discriminate].
    destruct (rewrite_sections cwd (Some f) (map (fun ii => (file ii, name ii)) l))
      as [others|] eqn:Eo; simpl in H; [|discriminate].
    inversion H; subst. constructor; [|now apply IH].
    pose proof Er as Er'. unfold relpath in Er'.
    destruct (Py.truthy (file c)) eqn:Et; simpl in Er'; [|discriminate].
    destruct (file c) as [p|] eqn:Ef; [|discriminate].
    exists p, (relpath_list (abspath_list cwd start) (abspath_list cwd p)), rel.
    split; [reflexivity|]. split; [reflexivity|]. split.
    { apply relpath_list_correct; unfold abspath_list;
        destruct (prefix "/" _); apply normalize_abs_plain. }
    split.
    { destruct (relpath_list (abspath_list cwd start) (abspath_list cwd p));
        now inversion Er'. }
    split; [exact Er|].
    unfold this_section, label_of.
    destruct (Py.truthy (name c)) eqn:En; [|reflexivity].
    destruct (name c); [reflexivity | discriminate].
Qed.

End InjectionProperties.

(** ** The examples *)

Local Notation walk_example :=
  (_find_content_structure supported_suffixes_spec filename_to_title_spec
     cwd_example).

Local Notation build_example :=
  (build_toc supported_suffixes_spec filename_to_title_spec cwd_example
     dump_example).

Ltac names_differ :=
  repeat constructor; simpl; intuition discriminate.

Ltac entry_cases H :=
  simpl in H;
  repeat match type of H with
         | _ \/ _ => destruct H as [H|H]
         | False => destruct H
         end.

Lemma book_example_ok : fs_ok book_example.
Proof.
  constructor.
  - names_differ.
  - intros e H. entry_cases H; subst; discriminate.
  - intros n sub H. entry_cases H; inversion H; subst; constructor;
      try names_differ;
      try (intros e He; entry_cases He; subst; discriminate);
      intros n' sub' H'; entry_cases H'; discriminate.
Qed.

(** C2: what the code does with the split character "-". The title of the
    parent is made with it; the title of the child is made with "_", the
    default, and so keeps its dash, where the split on "-" gives two
    words. *)
Theorem child_title_ignores_split_char :
  walk_example (parse "book") dashes_example "-" None
  = (Ok (Some (mkNode (Some "book/index") (Some "Book") None false
                 (Some [mkNode (Some "book/my-page") (Some "My-page")
                               None false None]))),
     [".ipynb_checkpoints"]) /\
  filename_to_title_spec "my-page" "-" = "My Page" /\
  filename_to_title_spec "my-page" "_" = "My-page".
Proof.
  split; [vm_compute; reflexivity|]. split; vm_compute; reflexivity.
Qed.

(** C9: what the code does with one folder listed in two orders. Nothing
    is sorted: the first file of each listing becomes the parent, and the
    two outputs differ. *)
Theorem listing_order_decides_output :
  Permutation (entries_of listing_ab) (entries_of listing_ba) /\
  fst (walk_example (parse "book") listing_ab "_" None)
  = Ok (Some (mkNode (Some "book/a") (Some "A") None false
                (Some [mkNode (Some "book/b") (Some "B") None false None]))) /\
  fst (walk_example (parse "book") listing_ba "_" None)
  = Ok (Some (mkNode (Some "book/b") (Some "B") None false
                (Some [mkNode (Some "book/a") (Some "A") None false None]))) /\
  fst (build_example "book" listing_ab "_" None)
  <> fst (build_example "book" listing_ba "_" None).
Proof.
  split; [apply perm_swap|].
  split; [vm_compute; reflexivity|]. split; [vm_compute; reflexivity|].
  vm_compute. discriminate.
Qed.

(** Two slips that the amended C3 leaves aside. With two index pages and a
    file between them, the first index page is popped and then forgotten.
    A first file becomes the parent also when it carries a skip marker. *)
Example second_index_page_drops_first :
  fst (walk_example (parse "book") two_index_example "_" None)
  = Ok (Some (mkNode (Some "book/index") (Some "Book") None false
                (Some [mkNode (Some "book/x") (Some "X") None false None]))) /\
  select_parent (content_files_of supported_suffixes_spec (parse "book")
                   (entries_of two_index_example))
  = Ok (parse "book" // "index.ipynb", [parse "book" // "x.md"]).
Proof. split; vm_compute; reflexivity. Qed.

Example parent_is_not_checked_for_markers :
  skipped_by (Some ["draft"]) (parse "book" // "draft_intro.md") = true /\
  fst (walk_example (parse "book") skipped_parent_example "_" (Some ["draft"]))
  = Ok (Some (mkNode (Some "book/draft_intro") (Some "Draft Intro") None false
                (Some [mkNode (Some "book/b") (Some "B") None false None]))).
Proof. split; vm_compute; reflexivity. Qed.

(** C5 fails on the loader: a description whose page has an empty [pages]
    is published as it is. *)
Lemma loader_keeps_empty_pages :
  exists config',
    update_indexname config_example empty_pages_example = (Ok tt, config') /\
    ~ Forall pages_ok (tree_nodes (globaltoc config')).
Proof.
  eexists. split; [vm_compute; reflexivity|].
  simpl. intros H. inversion H as [|x l Hx Hl]; subst.
  apply Hx. reflexivity.
Qed.

(** ** The theorems at work on the examples *)

Lemma index_page_is_parent_witness :
  exists e rest t sk,
    In e (entries_of book_example) /\
    supported supported_suffixes_spec (parse "book" // entry_name e) = true /\
    stem_of (entry_name e) = "index" /\
    select_parent (content_files_of supported_suffixes_spec (parse "book")
                     (entries_of book_example))
    = Ok (parse "book" // entry_name e, rest) /\
    walk_example (parse "book") book_example "-" None = (Ok (Some t), sk) /\
    file t = Some "book/index" /\
    title t = Some (filename_to_title_spec "book" "-").
Proof.
  apply (index_page_is_parent supported_suffixes_spec filename_to_title_spec
           cwd_example (parse "book") (entries_of book_example) "-" None
           book_example_ok).
  exists (File "index.md"). split; [|split].
  - simpl. right. left. reflexivity.
  - vm_compute. reflexivity.
  - vm_compute. reflexivity.
Defined.

Lemma pages_never_empty_witness :
  Forall pages_ok
    (preorder
       (mkNode (Some "book/a") (Some "A") None false
          (Some [mkNode (Some "book/b") (Some "B") None false None]))) /\
  Forall pages_ok
    (tree_nodes
       (Single (set_pages (leaf_example "intro" None)
                          [leaf_example "ch1" None]))).
Proof.
  split.
  - apply (proj1 (pages_never_empty supported_suffixes_spec
                    filename_to_title_spec cwd_example)
             (parse "book") listing_ab "_" None _ [".ipynb_checkpoints"]).
    vm_compute. reflexivity.
  - apply (proj2 (pages_never_empty supported_suffixes_spec
                    filename_to_title_spec cwd_example)
             config_example
             (Siblings [leaf_example "intro" None; leaf_example "ch1" None])
             (mkConfig (Some "_toc.yml")
                (Single (set_pages (leaf_example "intro" None)
                                   [leaf_example "ch1" None]))
                "intro")).
    + reflexivity.
    + vm_compute. reflexivity.
    + repeat constructor; unfold pages_ok; simpl; discriminate.
Defined.

Lemma skip_text_grows_per_folder_witness :
  fs_ok book_example /\
  snd (walk_example (parse "book") book_example "_" (Some ["draft"]))
  = ["draft"; ".ipynb_checkpoints"; ".ipynb_checkpoints"] /\
  snd (build_example "book" book_example "_" (Some ["draft"]))
  = ["draft"; ".ipynb_checkpoints"; ".ipynb_checkpoints"].
Proof.
  split; [exact book_example_ok|].
  destruct (skip_text_grows_per_folder supported_suffixes_spec
              filename_to_title_spec cwd_example dump_example
              "book" book_example "_" ["draft"] book_example_ok)
    as (H1 & H2 & _).
  split; [exact H1 | exact H2].
Defined.

Local Notation add_toctree_example :=
  (add_toctree (cell := string) (notebook_rest := unit)
     (fun _ => Raise NbformatError) (fun text => text) (fun _ => "{}"%string)
     cwd_example
     (mkApp config_example (fun docname => (docname ++ ".md")%string))).

Lemma add_toctree_absent_or_childless_witness :
  (exists before after,
     add_toctree_example "missing" "# Title"%string
     = (Raise (FileNotFoundError (before ++ "missing.md" ++ after)%string),
        "# Title"%string)) /\
  add_toctree_example "sub/ch1" "# Title"%string = (Ok tt, "# Title"%string).
Proof.
  split.
  - apply (proj1 (add_toctree_absent_or_childless string unit
                    (fun _ => Raise NbformatError) (fun text => text)
                    (fun _ : notebook string unit => "{}"%string)
                    cwd_example
                    (mkApp config_example (fun docname => (docname ++ ".md")%string))
                    "missing" "# Title" (Some "missing")
                    eq_refl eq_refl)).
    vm_compute. reflexivity.
  - apply (proj2 (add_toctree_absent_or_childless string unit
                    (fun _ => Raise NbformatError) (fun text => text)
                    (fun _ : notebook string unit => "{}"%string)
                    cwd_example
                    (mkApp config_example (fun docname => (docname ++ ".md")%string))
                    "sub/ch1" "# Title" (Some "sub/ch1")
                    eq_refl eq_refl)
             (leaf_example "sub/ch1" (Some "Chapter One"))).
    + vm_compute. reflexivity.
    + reflexivity.
Defined.

Lemma injection_by_format_witness :
  exists entries,
    entries = ["Chapter One <sub/ch1>"; "sub/ch2.md"; "part/intro"]%string /\
    add_toctree_example "index" "# Title"%string
    = (Ok tt,
       ("# Title"
        ++ toctree_text ":numbered:" (Py.join Py.nl entries) ++ Py.nl)%string).
Proof.
  destruct (injection_by_format string unit
              (fun _ => Raise NbformatError) (fun text => text)
              (fun _ : notebook string unit => "{}"%string)
              cwd_example
              (mkApp config_example (fun docname => (docname ++ ".md")%string))
              "index" "# Title" (Some "index") toc_example
              eq_refl eq_refl)
    as (entries & He & Hmd & _).
  - vm_compute. reflexivity.
  - simpl. discriminate.
  - repeat constructor.
  - exists entries. split.
    + vm_compute in He. inversion He. reflexivity.
    + apply Hmd. vm_compute. reflexivity.
Defined.

Lemma sections_relative_and_labelled_witness :
  Forall2
    (fun c entry =>
       exists p rel_parts rel,
         file c = Some p /\
         rel_parts = relpath_list (abspath_list cwd_example "part")
                                  (abspath_list cwd_example p) /\
         normalize_abs (abspath_list cwd_example "part" ++ rel_parts)
         = abspath_list cwd_example p /\
         rel = match rel_parts with
               | [] => "."%string
               | _ => Py.join "/" rel_parts
               end /\
         relpath cwd_example (file c) "part" = Ok rel /\
         entry = match label_of c with
                 | Some label => (label ++ " <" ++ rel ++ ">")%string
                 | None => rel
                 end)
    [leaf_example "part/details" None; leaf_example "other/notes" (Some "Notes")]
    ["details"; "Notes <../other/notes>"]%string.
Proof.
  apply (sections_relative_and_labelled cwd_example "part/intro"
           [leaf_example "part/details" None;
            leaf_example "other/notes" (Some "Notes")]
           ["details"; "Notes <../other/notes>"]%string).
  vm_compute. reflexivity.
Defined.

(** ** More about the lookup *)

Lemma first_decisive_app (X : option string) (a b : list node) :
  first_decisive X (a ++ b) =
  match first_decisive X a with
  | Ok None => first_decisive X b
  | r => r
  end.
Proof.
  induction a as [|n a IH]; simpl; [reflexivity|].
  destruct (_no_suffix (file n)) as [s|e]; [|reflexivity].
  destruct (option_string_eqb s X); [reflexivity | exact IH].
Qed.

Lemma find_name_pages_scans (X : option string) (l : list node) :
  Forall (fun n => find_name_page X n = first_decisive X (preorder n)) l ->
  find_name_pages X l = first_decisive X (flat_map preorder l).
Proof.
  induction 1 as [|x r Hx Hr IH]; [reflexivity|].
  rewrite find_name_pages_cons. simpl flat_map. rewrite first_decisive_app.
  rewrite Hx. destruct (first_decisive X (preorder x)) as [[hit|]|e]; simpl;
    [reflexivity | exact IH | reflexivity].
Qed.

Lemma find_name_page_scans (X : option string) (n : node) :
  find_name_page X n = first_decisive X (preorder n).
Proof.
  induction n as [f t nm num pg IH] using node_ind_sections.
  rewrite find_name_page_eq, preorder_eq. simpl first_decisive. simpl file.
  destruct (_no_suffix f) as [s|e]; simpl bind; [|reflexivity].
  destruct (option_string_eqb s X); [reflexivity|].
  apply find_name_pages_scans. unfold get_pages. simpl. exact IH.
Qed.

Lemma find_name_scans (toc : tree) (X : option string) :
  find_name toc X = first_decisive X (tree_nodes toc).
Proof.
  destruct toc as [page|l]; unfold find_name, tree_nodes.
  - rewrite <- (app_nil_r (preorder page)).
    change (preorder page ++ []) with (flat_map preorder [page]).
    apply find_name_pages_scans. constructor; [|constructor].
    apply find_name_page_scans.
  - apply find_name_pages_scans. apply Forall_forall. intros n _.
    apply find_name_page_scans.
Qed.

Lemma first_decisive_raise (X : option string) (l : list node) (e : exn) :
  first_decisive X l = Raise e <->
  exists before n after,
    l = before ++ n :: after /\
    (forall m, In m before -> passes X m) /\
    _no_suffix (file n) = Raise e.
Proof.
  induction l as [|x l IH]; simpl.
  - split; [discriminate|]. intros (before & n & after & E & _).
    destruct before; discriminate.
  - destruct (_no_suffix (file x)) as [s|e0] eqn:Es.
    + destruct (option_string_eqb s X) eqn:Eb.
      * split; [discriminate|]. intros (before & n & after & E & Hb & Hn).
        destruct before as [|b before]; simpl in E; inversion E; subst.
        -- congruence.
        -- destruct (Hb b (or_introl eq_refl)) as (s' & Hs' & Hne).
           apply option_string_eqb_eq in Eb. congruence.
      * rewrite IH. split.
        -- intros (before & n & after & -> & Hb & Hn).
           exists (x :: before), n, after. repeat split; auto.
           intros m [<-|Hm]; [|now apply Hb].
           exists s. split; [exact Es|]. intros ->.
           rewrite (proj2 (option_string_eqb_eq X X) eq_refl) in Eb. discriminate.
        -- intros (before & n & after & E & Hb & Hn).
           destruct before as [|b before]; simpl in E; inversion E; subst.
           ++ congruence.
           ++ exists before, n, after. repeat split; auto.
              intros m Hm. apply Hb. now right.
    + split.
      * intros H. inversion H; subst. exists [], x, l. repeat split; auto.
        intros m [].
      * intros (before & n & after & E & Hb & Hn).
        destruct before as [|b before]; simpl in E; inversion E; subst.
        -- congruence.
        -- destruct (Hb b (or_introl eq_refl)) as (s' & Hs' & _). congruence.
Qed.

Lemma first_decisive_hit (X : option string) (l : list node) (hit : node) :
  first_decisive X l = Ok (Some hit) ->
  exists before after,
    l = before ++ hit :: after /\
    (forall m, In m before -> passes X m) /\
    matches X hit.
Proof.
  induction l as [|x l IH]; simpl; [discriminate|].
  destruct (_no_suffix (file x)) as [s|e0] eqn:Es; [|discriminate].
  destruct (option_string_eqb s X) eqn:Eb.
  - intros H. inversion H; subst. exists [], l. repeat split.
    + intros m [].
    + unfold matches. apply option_string_eqb_eq in Eb. congruence.
  - intros H. destruct (IH H) as (before & after & -> & Hb & Hm).
    exists (x :: before), after. repeat split; auto.
    intros m [<-|Hin]; [|now apply Hb].
    exists s. split; [exact Es|]. intros ->.
    rewrite (proj2 (option_string_eqb_eq X X) eq_refl) in Eb. discriminate.
Qed.

(** X2. [find_name] raises exactly when, along the pre-order, a page whose
    [file] cannot be stripped of its suffix comes before any match; the
    error is the one of that page. *)
Theorem find_name_raises_before_match (toc : tree) (X : option string)
    (e : exn) :
  find_name toc X = Raise e <->
  exists before n after,
    tree_nodes toc = before ++ n :: after /\
    (forall m, In m before -> passes X m) /\
    _no_suffix (file n) = Raise e.
Proof. rewrite find_name_scans. apply first_decisive_raise. Qed.

(** X3. The page that [find_name] returns is a page of the tree, its
    suffix-stripped [file] is X, and no page before it in pre-order has
    that [file]. *)
Theorem find_name_result_in_tree (toc : tree) (X : option string)
    (hit : node) :
  find_name toc X = Ok (Some hit) ->
  In hit (tree_nodes toc) /\ matches X hit /\
  exists before after,
    tree_nodes toc = before ++ hit :: after /\
    forall m, In m before -> ~ matches X m.
Proof.
  rewrite find_name_scans. intros H.
  destruct (first_decisive_hit X _ hit H) as (before & after & E & Hb & Hm).
  split; [|split].
  - rewrite E. apply in_or_app. right. now left.
  - exact Hm.
  - exists before, after. split; [exact E|].
    intros m Hin Hmatch. destruct (Hb m Hin) as (s & Hs & Hne).
    unfold matches in Hmatch. congruence.
Qed.

Lemma find_name_result_in_tree_witness :
  In (leaf_example "sub/ch2.md" None) (tree_nodes (Single toc_example)) /\
  matches (Some "sub/ch2") (leaf_example "sub/ch2.md" None).
Proof.
  destruct (find_name_result_in_tree (Single toc_example) (Some "sub/ch2")
              (leaf_example "sub/ch2.md" None) eq_refl) as (H1 & H2 & _).
  split; assumption.
Defined.

Lemma find_name_raises_before_match_witness :
  exists msg,
    find_name (Siblings [leaf_example "a.md" None; leaf_example "" None;
                         leaf_example "b" None]) (Some "b")
    = Raise (ValueError msg).
Proof.
  eexists.
  apply (proj2 (find_name_raises_before_match
                  (Siblings [leaf_example "a.md" None; leaf_example "" None;
                             leaf_example "b" None]) (Some "b") _)).
  exists [leaf_example "a.md" None], (leaf_example "" None),
         [leaf_example "b" None].
  split; [reflexivity|]. split.
  - intros m H. entry_cases H; subst. eexists. split; [vm_compute; reflexivity|].
    discriminate.
  - vm_compute. reflexivity.
Defined.

(** ** More about the stripping of suffixes *)

Lemma last_of_proper (l : list string) :
  l <> [] -> Forall (fun x => proper_part x = true) l -> last l "" <> "".
Proof.
  induction l as [|x l IH]; intros Hne Hall; [congruence|].
  inversion Hall as [|y l' Hx Hl]; subst. destruct l as [|z l].
  - simpl. intros ->. discriminate.
  - apply IH; [discriminate | exact Hl].
Qed.

Lemma parse_parts_proper (s : string) :
  Forall (fun x => proper_part x = true) (parts (parse s)).
Proof.
  unfold parse. destruct (splitroot s) as [r rel]. simpl.
  apply Forall_forall. intros x Hx. apply filter_In in Hx. apply Hx.
Qed.

(** X1. [_no_suffix] hands [None] through. On a string it raises
    [ValueError] exactly when the path has no final component, as for the
    empty string, "." and "/"; otherwise it returns the path as a string,
    without the suffix of its final component. *)
Theorem no_suffix_raises_without_name (s : string) :
  _no_suffix None = Ok None /\
  (parts (parse s) = [] ->
   _no_suffix (Some s) = Raise (ValueError (path_repr (parse s) ++ " has an empty name")%string)) /\
  (parts (parse s) <> [] ->
   _no_suffix (Some s) = Ok (Some (path_str (strip (parse s))))).
Proof.
  split; [reflexivity|]. unfold _no_suffix, with_suffix_empty, name_of. split.
  - intros ->. reflexivity.
  - intros Hne.
    pose proof (last_of_proper _ Hne (parse_parts_proper s)) as Hlast.
    destruct (String.eqb_spec (last (parts (parse s)) "") ""); [contradiction|].
    reflexivity.
Qed.

Lemma no_suffix_raises_without_name_witness :
  _no_suffix (Some "./") = Raise (ValueError "PosixPath('.') has an empty name") /\
  _no_suffix (Some "book//ch1.tar.md") = Ok (Some "book/ch1.tar"%string).
Proof.
  split.
  - apply (proj1 (proj2 (no_suffix_raises_without_name "./"))). reflexivity.
  - apply (proj2 (proj2 (no_suffix_raises_without_name "book//ch1.tar.md"))).
    vm_compute. discriminate.
Defined.

(** ** More about the loader *)

(** X4. When [update_indexname] returns normally with a table configured,
    the table it publishes is a single root with a [file], the master
    document is that [file] without its suffix, and looking the master
    document up in the published table finds the root. *)
Theorem master_doc_is_root (config config' : Config) (loaded : tree) :
  Py.truthy (globaltoc_path config) = true ->
  update_indexname config loaded = (Ok tt, config') ->
  exists root f,
    globaltoc config' = Single root /\
    file root = Some f /\
    _no_suffix (Some f) = Ok (Some (master_doc config')) /\
    find_name (globaltoc config') (Some (master_doc config')) = Ok (Some root) /\
    globaltoc_path config' = globaltoc_path config.
Proof.
  intros Hpath H. unfold update_indexname in H. rewrite Hpath in H. simpl in H.
  assert (Hnorm : forall toc,
            match file toc with
            | Some f =>
                match _no_suffix (Some f) with
                | Ok (Some m) =>
                    (Ok tt, mkConfig (globaltoc_path config) (Single toc) m)
                | Ok None =>
                    (Ok tt, mkConfig (globaltoc_path config) (Single toc)
                                     (master_doc config))
                | Raise e =>
                    (Raise e, mkConfig (globaltoc_path config) (Single toc)
                                       (master_doc config))
                end
            | None =>
                (Raise (KeyError "file"),
                 mkConfig (globaltoc_path config) (Single toc) (master_doc config))
            end = (Ok tt, config') ->
            exists root f,
              globaltoc config' = Single root /\
              file root = Some f /\
              _no_suffix (Some f) = Ok (Some (master_doc config')) /\
              find_name (globaltoc config') (Some (master_doc config'))
              = Ok (Some root) /\
              globaltoc_path config' = globaltoc_path config).
  { intros toc E. destruct (file toc) as [f|] eqn:Ef; [|discriminate].
    destruct (_no_suffix (Some f)) as [[m|]|] eqn:Es.
    - inversion E; subst. exists toc, f.
      split; [reflexivity|]. split; [exact Ef|]. split; [exact Es|].
      split; [|reflexivity].
      cbn [globaltoc master_doc]. rewrite find_name_scans.
      unfold tree_nodes. rewrite preorder_eq.
      cbn [first_decisive]. rewrite Ef, Es. cbn [option_string_eqb].
      now rewrite String.eqb_refl.
    - destruct (no_suffix_of_string _ _ Es) as (x & Hx). discriminate.
    - discriminate. }
  destruct loaded as [toc|[|toc_updated subsections]].
  - now apply (Hnorm toc).
  - discriminate.
  - destruct subsections as [|s subsections]; simpl in H.
    + now apply (Hnorm toc_updated).
    + now apply (Hnorm (set_pages toc_updated (s :: subsections))).
Qed.

Lemma master_doc_is_root_witness :
  exists root,
    fst (update_indexname config_example
           (Siblings [leaf_example "intro.md" None; leaf_example "ch1" None]))
    = Ok tt /\
    find_name (Single root) (Some "intro") = Ok (Some root) /\
    get_pages root = [leaf_example "ch1" None].
Proof.
  destruct (master_doc_is_root config_example
              (mkConfig (Some "_toc.yml")
                 (Single (set_pages (leaf_example "intro.md" None)
                                    [leaf_example "ch1" None]))
                 "intro")
              (Siblings [leaf_example "intro.md" None; leaf_example "ch1" None])
              eq_refl eq_refl)
    as (root & f & Hroot & _ & _ & Hfind & _).
  simpl in Hroot. inversion Hroot; subst root.
  eexists. split; [reflexivity|]. split; [exact Hfind | reflexivity].
Defined.

(** X5. How [update_indexname] fails, and what it leaves behind. Without a
    configured path it does nothing. An empty sequence raises [IndexError]
    and leaves the configuration as it was. A root without [file] raises
    [KeyError] after the table has been published: the table is the new one
    and the master document the old one. A sequence of several pages makes
    the first one the root and the others its [pages], in place of any the
    first one had. *)
Theorem update_indexname_failures (config : Config) :
  (Py.truthy (globaltoc_path config) = false ->
   forall loaded, update_indexname config loaded = (Ok tt, config)) /\
  (Py.truthy (globaltoc_path config) = true ->
   update_indexname config (Siblings [])
   = (Raise (IndexError "list index out of range"), config) /\
   (forall root,
      file root = None ->
      update_indexname config (Single root)
      = (Raise (KeyError "file"),
         mkConfig (globaltoc_path config) (Single root) (master_doc config))) /\
   (forall first second others,
      globaltoc (snd (update_indexname config
                        (Siblings (first :: second :: others))))
      = Single (mkNode (file first) (title first) (name first)
                       (numbered first) (Some (second :: others))))).
Proof.
  split.
  - intros H loaded. unfold update_indexname. now rewrite H.
  - intros H. repeat split.
    + unfold update_indexname. now rewrite H.
    + intros root Hf. unfold update_indexname. rewrite H. simpl.
      now rewrite Hf.
    + intros first second others. unfold update_indexname. rewrite H. simpl.
      unfold set_pages.
      destruct (file first) as [f|]; simpl; [|reflexivity].
      destruct (with_suffix_empty (parse f)); reflexivity.
Qed.

Lemma update_indexname_failures_witness :
  update_indexname config_example (Siblings [])
  = (Raise (IndexError "list index out of range"), config_example) /\
  update_indexname (mkConfig None (Siblings []) "old") (Single toc_example)
  = (Ok tt, mkConfig None (Siblings []) "old").
Proof.
  split.
  - apply (proj1 (proj2 (update_indexname_failures config_example) eq_refl)).
  - apply (proj1 (update_indexname_failures (mkConfig None (Siblings []) "old"))
             eq_refl).
Defined.

(** ** More about the injection *)

Lemma string_app_nil_r (s : string) : (s ++ "")%string = s.
Proof. induction s as [|c s IH]; simpl; [reflexivity | now rewrite IH]. Qed.

Section MoreInjection.

Local Open Scope string_scope.

Variable cell : Type.
Variable notebook_rest : Type.
Variable nbf_reads : string -> result (notebook cell notebook_rest).
Variable nbf_new_markdown_cell : string -> cell.
Variable nbf_writes : notebook cell notebook_rest -> string.
Variable cwd : list string.

Local Notation inject :=
  (add_toctree nbf_reads nbf_new_markdown_cell nbf_writes cwd).

Lemma relpath_falsy (path : option string) (start : string) :
  Py.truthy path = false ->
  relpath cwd path start = Raise (ValueError "no path specified").
Proof. intros H. unfold relpath. now rewrite H. Qed.

Lemma relpath_only_error (path : option string) (start : string) (e : exn) :
  relpath cwd path start = Raise e -> e = ValueError "no path specified".
Proof.
  unfold relpath. destruct (Py.truthy path); simpl.
  - destruct path as [p|]; [|intros H; now inversion H].
    destruct (relpath_list _ _); discriminate.
  - intros H. now inversion H.
Qed.

Lemma rewrite_sections_missing (f : string)
    (sections : list (option string * option string)) :
  Exists (fun c => Py.truthy (fst c) = false) sections ->
  rewrite_sections cwd (Some f) sections
  = Raise (ValueError "no path specified").
Proof.
  induction sections as [|[path_sec label] rest IH]; intros H.
  - inversion H.
  - rewrite rewrite_sections_cons.
    destruct (relpath cwd path_sec (path_str (parent (parse f)))) as [rel|e] eqn:E.
    + simpl. rewrite IH; [reflexivity|].
      inversion H as [x l Hx|x l Hl]; subst; [|exact Hl].
      simpl in Hx. rewrite (relpath_falsy _ _ Hx) in E. discriminate.
    + simpl. now rewrite (relpath_only_error _ _ _ E).
Qed.

(** X6. [add_toctree] changes the source only when it returns normally for
    a page that has children: when no table is configured, when the page
    has no children and whenever it raises, the source is as it was. *)
Theorem source_changes_only_with_children (app : App) (docname source : string) :
  snd (inject app docname source) <> source ->
  Py.truthy (globaltoc_path (config app)) = true /\
  fst (inject app docname source) = Ok tt /\
  exists X page,
    _no_suffix (Some (doc2path app docname)) = Ok X /\
    find_name (globaltoc (config app)) X = Ok (Some page) /\
    get_pages page <> [].
Proof.
  unfold add_toctree.
  destruct (Py.truthy (globaltoc_path (config app))); simpl negb; cbv iota;
    [|simpl; congruence].
  destruct (_no_suffix (Some (doc2path app docname))) as [X|e]; simpl bind;
    [|simpl; congruence].
  destruct (find_name (globaltoc (config app)) X) as [[page|]|e] eqn:Ef;
    [|simpl; congruence|simpl; congruence].
  destruct (get_pages page) as [|c cs] eqn:Eg; [simpl; congruence|].
  cbn [map List.length Nat.eqb].
  destruct (rewrite_sections cwd (file page) _) as [entries|e];
    [|simpl; congruence].
  destruct (suffix (parse (doc2path app docname)) =? ".md").
  - intros _. split; [reflexivity|]. split; [reflexivity|].
    exists X, page. rewrite Eg. repeat split; auto. discriminate.
  - destruct (suffix (parse (doc2path app docname)) =? ".ipynb");
      [|simpl; congruence].
    destruct (nbf_reads source); [|simpl; congruence].
    intros _. split; [reflexivity|]. split; [reflexivity|].
    exists X, page. rewrite Eg. repeat split; auto. discriminate.
Qed.

(** X7. For a document that is not a notebook, the outcome of
    [add_toctree] and the text it appends do not depend on the source: the
    source comes back with one and the same text appended, so a second
    injection appends the directive a second time. *)
Theorem appended_text_ignores_source (app : App) (docname : string) :
  suffix (parse (doc2path app docname)) <> ".ipynb" ->
  exists outcome appended,
    forall source,
      inject app docname source = (outcome, source ++ appended).
Proof.
  intros Hnb. unfold add_toctree.
  destruct (Py.truthy (globaltoc_path (config app))); simpl negb; cbv iota;
    [|exists (Ok tt), ""; intros; now rewrite string_app_nil_r].
  destruct (_no_suffix (Some (doc2path app docname))) as [X|e]; simpl bind;
    [|exists (Raise e), ""; intros; now rewrite string_app_nil_r].
  destruct (find_name (globaltoc (config app)) X) as [[page|]|e];
    [| eexists _, ""; intros; now rewrite string_app_nil_r
     | exists (Raise e), ""; intros; now rewrite string_app_nil_r].
  destruct (Nat.eqb _ 0);
    [exists (Ok tt), ""; intros; now rewrite string_app_nil_r|].
  destruct (rewrite_sections cwd (file page) _) as [entries|e];
    [|exists (Raise e), ""; intros; now rewrite string_app_nil_r].
  destruct (suffix (parse (doc2path app docname)) =? ".md").
  - eexists _, _. intros source. reflexivity.
  - destruct (String.eqb_spec (suffix (parse (doc2path app docname))) ".ipynb");
      [contradiction|].
    eexists _, "". intros. now rewrite string_app_nil_r.
Qed.

(** X8. When a child of the page found carries no path ([file] absent or
    empty), [add_toctree] raises [ValueError] with the message of
    [os.path.relpath], whatever the suffix of the document, and the source
    is as it was. *)
Theorem child_without_path_raises (app : App) (docname source : string)
    (X : option string) (page : node) :
  Py.truthy (globaltoc_path (config app)) = true ->
  _no_suffix (Some (doc2path app docname)) = Ok X ->
  find_name (globaltoc (config app)) X = Ok (Some page) ->
  Exists (fun c => Py.truthy (file c) = false) (get_pages page) ->
  inject app docname source = (Raise (ValueError "no path specified"), source).
Proof.
  intros Hpath HX Hfind Hex.
  destruct (no_suffix_of_string _ _ HX) as (x & ->).
  destruct (matches_some_file x page (find_name_sound _ _ _ Hfind)) as (f & Hf).
  unfold add_toctree. rewrite Hpath. simpl negb. cbv iota.
  rewrite HX. simpl bind. rewrite Hfind.
  replace (Nat.eqb (List.length (map (fun ii => (file ii, name ii))
                                     (get_pages page))) 0) with false
    by (destruct (get_pages page); [inversion Hex | reflexivity]).
  rewrite Hf, rewrite_sections_missing; [reflexivity|].
  apply Exists_exists. apply Exists_exists in Hex.
  destruct Hex as (c & Hc & Hfalsy). exists (file c, name c). split.
  - apply in_map_iff. eauto.
  - exact Hfalsy.
Qed.

End MoreInjection.

Lemma source_changes_only_with_children_witness :
  fst (add_toctree_example "index" "# Title"%string) = Ok tt /\
  exists X page,
    _no_suffix (Some "index.md") = Ok X /\
    find_name (Single toc_example) X = Ok (Some page) /\
    get_pages page <> [].
Proof.
  destruct (source_changes_only_with_children string unit
              (fun _ => Raise NbformatError) (fun text => text)
              (fun _ : notebook string unit => "{}"%string)
              cwd_example
              (mkApp config_example (fun docname => (docname ++ ".md")%string))
              "index" "# Title") as (_ & H1 & H2).
  - vm_compute. discriminate.
  - split; [exact H1 | exact H2].
Defined.

Lemma appended_text_ignores_source_witness :
  exists outcome appended,
    add_toctree_example "index" "A"%string = (outcome, ("A" ++ appended)%string) /\
    add_toctree_example "index" ("A" ++ appended)%string
    = (outcome, (("A" ++ appended) ++ appended)%string).
Proof.
  destruct (appended_text_ignores_source string unit
              (fun _ => Raise NbformatError) (fun text => text)
              (fun _ : notebook string unit => "{}"%string)
              cwd_example
              (mkApp config_example (fun docname => (docname ++ ".md")%string))
              "index") as (outcome & appended & H).
  - vm_compute. discriminate.
  - exists outcome, appended. split; apply H.
Defined.

Lemma child_without_path_raises_witness :
  add_toctree (cell := string) (notebook_rest := unit)
    (fun _ => Raise NbformatError) (fun text => text) (fun _ => "{}"%string)
    cwd_example
    (mkApp (mkConfig (Some "_toc.yml")
              (Single (mkNode (Some "index") None None false
                         (Some [leaf_example "ch1" None;
                                mkNode None (Some "No path") None false None])))
              "index")
           (fun docname => (docname ++ ".rst")%string))
    "index" "Title"%string
  = (Raise (ValueError "no path specified"), "Title"%string).
Proof.
  apply (child_without_path_raises string unit
           (fun _ => Raise NbformatError) (fun text => text)
           (fun _ : notebook string unit => "{}"%string)
           cwd_example _ "index" "Title" (Some "index") 
           (mkNode (Some "index") None None false
              (Some [leaf_example "ch1" None;
                     mkNode None (Some "No path") None false None]))).
  - reflexivity.
  - vm_compute. reflexivity.
  - vm_compute. reflexivity.
  - apply Exists_cons_tl. apply Exists_cons_hd. reflexivity.
Defined.

(** ** More about the choice of the parent *)

(** X10. When at most one content file of a folder has the stem "index",
    the parent is the index page if there is one and the first file
    otherwise, and the other files remain in the order of the listing. *)
Theorem select_parent_keeps_order (l : list Path) :
  named l -> NoDup l -> l <> [] ->
  (forall p q, In p l -> In q l ->
               index_stemmed p = true -> index_stemmed q = true -> p = q) ->
  exists before f after,
    l = before ++ f :: after /\
    select_parent l = Ok (f, before ++ after) /\
    (index_stemmed f = true \/
     (before = [] /\ forall q, In q l -> index_stemmed q = false)).
Proof.
  intros Hn Hnd Hne Hu. unfold select_parent.
  destruct (find index_stemmed l) as [p|] eqn:Ef.
  - apply find_some in Ef. destruct Ef as [Hp Hi].
    destruct (In_nth_error l p Hp) as (k & Hk).
    assert (Hloop : index_loop (List.length l) 0 l None
                    = Ok (pop_rest k l, Some p)).
    { apply index_loop_unique; auto.
      - lia.
      - intros j q Hj Hq. destruct (index_stemmed q) eqn:Eq; [|reflexivity].
        exfalso. apply Hj.
        assert (q = p) by (apply Hu; auto; eapply nth_error_In; eauto). subst q.
        apply (proj1 (NoDup_nth_error l) Hnd); [|congruence].
        apply nth_error_Some. congruence.
      - assert (k < List.length l) by (apply nth_error_Some; congruence). lia. }
    exists (firstn k l), p, (skipn (S k) l).
    split; [now apply pop_rest_split|].
    rewrite Hloop. simpl. split; [reflexivity | now left].
  - assert (Hnone : forall q, In q l -> index_stemmed q = false)
      by (intros q Hq; apply (find_none _ _ Ef q Hq)).
    rewrite index_loop_none; auto.
    + simpl. destruct l as [|a l]; [congruence|].
      exists [], a, l. repeat split. right. split; [reflexivity | exact Hnone].
    + intros j q _ Hq. apply Hnone. eapply nth_error_In; eauto.
Qed.

Lemma select_parent_keeps_order_witness :
  exists before f after,
    [parse "book/ch1.md"; parse "book/index.md"; parse "book/z.md"]
    = before ++ f :: after /\
    select_parent [parse "book/ch1.md"; parse "book/index.md"; parse "book/z.md"]
    = Ok (f, before ++ after) /\
    (index_stemmed f = true \/
     (before = [] /\
      forall q, In q [parse "book/ch1.md"; parse "book/index.md"; parse "book/z.md"] ->
                index_stemmed q = false)).
Proof.
  apply (select_parent_keeps_order
           [parse "book/ch1.md"; parse "book/index.md"; parse "book/z.md"]).
  - repeat constructor; vm_compute; discriminate.
  - repeat constructor; simpl; intuition discriminate.
  - discriminate.
  - intros p q Hp Hq Hip Hiq.
    entry_cases Hp; entry_cases Hq; subst; try reflexivity;
      vm_compute in Hip, Hiq; discriminate.
Defined.

(** ** More about the walk *)

Section MoreGeneration.

Variable SUPPORTED_FILE_SUFFIXES : list string.
Variable _filename_to_title : string -> string -> string.
Variable cwd : list string.
Variable yaml_safe_dump : node -> string.

Local Notation walk :=
  (_find_content_structure SUPPORTED_FILE_SUFFIXES _filename_to_title cwd).
Local Notation build :=
  (build_toc SUPPORTED_FILE_SUFFIXES _filename_to_title cwd yaml_safe_dump).
Local Notation content_files :=
  (content_files_of SUPPORTED_FILE_SUFFIXES).
Local Notation to_yaml := (_content_path_to_yaml _filename_to_title cwd).

(** X9. [build_toc] raises [ValueError], with a message that names the
    path, exactly when the folder it is called on lists no content file of
    its own, also when folders below it hold content files; no folder below
    is visited then. Otherwise, on a well-formed directory, it returns the
    serialized tree of the walk. *)
Theorem build_toc_needs_content_at_top (path : string) (es : list entry)
    (filename_split_char : string) (skip_text : option (list string)) :
  (content_files (parse path) es = [] ->
   build path (Listing es) filename_split_char skip_text
   = (Raise (ValueError ("No content files were found in " ++ path ++ ".")%string),
      given_skip skip_text ++ [".ipynb_checkpoints"])) /\
  (content_files (parse path) es <> [] -> fs_ok (Listing es) ->
   exists t sk,
     walk (parse path) (Listing es) filename_split_char skip_text
     = (Ok (Some t), sk) /\
     build path (Listing es) filename_split_char skip_text
     = (Ok (yaml_safe_dump t), sk)).
Proof.
  split.
  - intros Hnil. unfold build_toc. rewrite find_content_structure_eq.
    cbv zeta. rewrite Hnil. reflexivity.
  - intros Hne Hok.
    destruct (walk_correct SUPPORTED_FILE_SUFFIXES _filename_to_title cwd
                (skipped_by skip_text) filename_split_char (Listing es) Hok
                (parse path) skip_text (fun p => eq_refl)) as (r & Hwalk & Hr).
    destruct r as [t|]; [|simpl in Hr; contradiction].
    eexists t, _. split; [exact Hwalk|].
    unfold build_toc. rewrite Hwalk. reflexivity.
Qed.

(** X11. For a path with a name, [_content_path_to_yaml] never raises. The
    [file] of its node has lost two suffixes, the title is made from the
    name that has lost one, or from the name of the folder when that name
    is "index"; the node has neither [name] nor [pages]. For a path without
    a name it raises [ValueError]. *)
Theorem content_path_to_yaml_strips_twice (path : Path) (n split_char : string) :
  (n <> "" ->
   to_yaml (path // n) split_char
   = Ok (mkNode (Some (path_str (path // stem_of (stem_of n))))
           (Some (if stem_of n =? "index"
                  then _filename_to_title (name_of (resolve cwd path)) split_char
                  else _filename_to_title (stem_of n) split_char))
           None false None)) /\
  (forall p, name_of p = "" ->
             to_yaml p split_char
             = Raise (ValueError (path_repr p ++ " has an empty name")%string)).
Proof.
  split.
  - intros Hn.
    rewrite content_path_to_yaml_named by (now rewrite name_of_child).
    unfold leaf_node, title_for. rewrite !strip_child, name_of_child.
    destruct (String.eqb_spec (stem_of n) "index") as [E|E]; [|reflexivity].
    rewrite E. rewrite resolve_child_parent; [reflexivity|].
    repeat split; discriminate.
  - intros p Hp. unfold _content_path_to_yaml, with_suffix_empty. rewrite Hp.
    reflexivity.
Qed.

Lemma children_loop_all (Q : node -> Prop) (sk : list string) (l : list Path) :
  (forall p c n, to_yaml p c = Ok n -> Forall Q (preorder n)) ->
  forall pages0 pages1,
    children_loop _filename_to_title cwd sk l pages0 = Ok pages1 ->
    Forall (fun n => Forall Q (preorder n)) pages0 ->
    Forall (fun n => Forall Q (preorder n)) pages1.
Proof.
  intros Hleaf. induction l as [|p l IH]; intros pages0 pages1 H Hall; simpl in H.
  - inversion H; subst; assumption.
  - destruct (any_skip sk p); [eapply IH; eauto|].
    destruct (to_yaml p "_") as [n|] eqn:E; simpl in H; [|discriminate].
    eapply IH; [exact H|]. apply Forall_app. split; [exact Hall|].
    constructor; [|constructor]. eapply Hleaf; eauto.
Qed.

Lemma folders_loop_all (Q : node -> Prop)
    (rec : Path -> dir -> list string -> result (option node) * list string)
    (path : Path) (l : list entry) :
  (forall n sub sk t sk', In (Folder n sub) l ->
     rec (path // n) sub sk = (Ok (Some t), sk') -> Forall Q (preorder t)) ->
  forall pages0 sk pages1 sk',
    folders_loop rec path l pages0 sk = (Ok pages1, sk') ->
    Forall (fun n => Forall Q (preorder n)) pages0 ->
    Forall (fun n => Forall Q (preorder n)) pages1.
Proof.
  induction l as [|e l IH]; intros Hrec pages0 sk pages1 sk' H Hall.
  - simpl in H. inversion H; subst; assumption.
  - assert (Hrec' : forall n sub sk t sk', In (Folder n sub) l ->
              rec (path // n) sub sk = (Ok (Some t), sk') -> Forall Q (preorder t))
      by (intros n sub sk0 t sk0' Hin; apply (Hrec n sub); now right).
    destruct e as [n|n sub].
    + rewrite folders_loop_file in H. eapply IH; eauto.
    + rewrite folders_loop_folder in H.
      destruct (any_skip sk (path // n)); [eapply IH; eauto|].
      destruct (rec (path // n) sub sk) as [[[t|]|err] sk1] eqn:E.
      * eapply IH; [exact Hrec' | exact H |].
        apply Forall_app. split; [exact Hall|]. constructor; [|constructor].
        eapply Hrec; [now left | exact E].
      * eapply IH; eauto.
      * discriminate.
Qed.

Lemma to_yaml_shape (p : Path) (c : string) (n : node) :
  to_yaml p c = Ok n -> Forall generated_shape (preorder n).
Proof.
  unfold _content_path_to_yaml. intros H.
  destruct (with_suffix_empty p) as [q|]; simpl in H; [|discriminate].
  destruct (with_suffix_empty q) as [r|]; simpl in H; [|discriminate].
  inversion H. simpl. constructor; [|constructor].
  repeat split; simpl; discriminate.
Qed.

(** X12. Every node of a tree that the walk returns carries a [file] and a
    [title], and never a [name] or the [numbered] flag, whatever the
    directory. *)
Theorem generated_nodes_have_file_and_title (split_char : string) :
  forall d path skip_text t sk,
    walk path d split_char skip_text = (Ok (Some t), sk) ->
    Forall generated_shape (preorder t).
Proof.
  intros d. induction d as [es IH] using dir_ind_folders.
  intros path skip_text t sk H. rewrite find_content_structure_eq in H.
  cbv zeta in H.
  destruct (Nat.eqb (List.length (content_files path es)) 0); [discriminate|].
  destruct (select_parent (content_files path es)) as [[first rest]|];
    simpl bind in H; [|discriminate].
  destruct (to_yaml first split_char) as [parent0|] eqn:Ep;
    simpl bind in H; [|discriminate].
  destruct (children_loop _filename_to_title cwd
              (given_skip skip_text ++ [marker]) rest []) as [pages0|] eqn:Ec;
    simpl bind in H; [|discriminate].
  cbv beta iota in H.
  destruct (folders_loop
              (fun folder sub sk =>
                 walk folder sub split_char (Some sk))
              path es pages0 (given_skip skip_text ++ [marker]))
    as [[pages1|] sk1] eqn:Ef; [|discriminate].
  inversion H; subst. clear H.
  assert (Hall : Forall (fun n => Forall generated_shape (preorder n)) pages1).
  { eapply folders_loop_all; [| exact Ef |].
    - intros n sub sk0 t sk0' Hin Hw. cbv beta in Hw.
      eapply IH; [exact Hin | exact Hw].
    - eapply children_loop_all; [exact to_yaml_shape | exact Ec | constructor]. }
  pose proof (content_path_to_yaml_leaf _ _ _ _ _ Ep) as Hp.
  pose proof (to_yaml_shape _ _ _ Ep) as Hshape.
  rewrite (preorder_without_pages _ Hp) in Hshape.
  inversion Hshape as [|x l0 Hx _]; subst.
  rewrite (preorder_root _ _ Hp). constructor.
  - destruct pages1; simpl; [exact Hx|]. destruct parent0; exact Hx.
  - clear - Hall. induction Hall; simpl; [constructor|].
    apply Forall_app. split; assumption.
Qed.

Lemma repeat_marker_app (s0 : list string) (i k : nat) :
  (s0 ++ repeat marker (S i)) ++ repeat marker (S k)
  = s0 ++ repeat marker (S (i + S k)).
Proof.
  rewrite <- app_assoc, <- repeat_app. do 2 f_equal.
Qed.

Lemma folders_loop_shape (split_char : string) (path : Path) (l : list entry) :
  (forall n sub, In (Folder n sub) l ->
     forall path' sk, exists k,
       snd (walk path' sub split_char sk) = given_skip sk ++ repeat marker (S k)) ->
  forall pages s0 k,
  exists k',
    snd (folders_loop (fun folder sub sk => walk folder sub split_char (Some sk))
           path l pages (s0 ++ repeat marker (S k)))
    = s0 ++ repeat marker (S k').
Proof.
  induction l as [|e l IH]; intros Hsub pages s0 k.
  - exists k. reflexivity.
  - assert (Hsub' : forall n sub, In (Folder n sub) l ->
              forall path' sk, exists k,
                snd (walk path' sub split_char sk)
                = given_skip sk ++ repeat marker (S k))
      by (intros n sub H; apply (Hsub n sub); now right).
    destruct e as [n|n sub].
    + rewrite folders_loop_file. apply IH, Hsub'.
    + rewrite folders_loop_folder.
      destruct (any_skip _ (path // n)); [apply IH, Hsub'|].
      destruct (Hsub n sub (or_introl eq_refl) (path // n)
                     (Some (s0 ++ repeat marker (S k)))) as (k1 & Hk1).
      cbv beta.
      destruct (walk (path // n) sub split_char (Some (s0 ++ repeat marker (S k))))
        as [r sk1]. cbn [snd given_skip] in Hk1. subst sk1.
      rewrite repeat_marker_app.
      destruct r as [[t|]|err].
      * apply IH, Hsub'.
      * apply IH, Hsub'.
      * eexists. reflexivity.
Qed.

(** The skip list only grows, by markers, also when the walk raises. *)
Lemma skip_list_shape (split_char : string) : forall d path sk,
  exists k,
    snd (walk path d split_char sk) = given_skip sk ++ repeat marker (S k).
Proof.
  intros d. induction d as [es IH] using dir_ind_folders. intros path sk.
  rewrite find_content_structure_eq. cbv zeta.
  destruct (Nat.eqb (List.length (content_files path es)) 0);
    [exists 0; reflexivity|].
  destruct (sel <- select_parent (content_files path es) ;; _) as [[parent0 pages0]|err];
    [|exists 0; reflexivity].
  destruct (folders_loop_shape split_char path es IH pages0 (given_skip sk) 0)
    as (k' & Hk').
  change (given_skip sk ++ repeat marker 1) with (given_skip sk ++ [marker]) in Hk'.
  destruct (folders_loop _ path es pages0 (given_skip sk ++ [marker]))
    as [[pages1|err] sk1]; cbn [snd] in Hk'; subst sk1; exists k'; reflexivity.
Qed.

Lemma children_loop_ext (a b : list string) (l : list Path) :
  (forall p, any_skip a p = any_skip b p) ->
  forall pages,
    children_loop _filename_to_title cwd a l pages
    = children_loop _filename_to_title cwd b l pages.
Proof.
  intros H. induction l as [|p l IH]; intros pages; simpl; [reflexivity|].
  rewrite (H p). destruct (any_skip b p); [apply IH|].
  destruct (to_yaml p "_"); simpl; [apply IH | reflexivity].
Qed.

Lemma folders_loop_indep (split_char : string) (path : Path) (l : list entry) :
  (forall n sub, In (Folder n sub) l ->
     forall path' sk1 sk2,
       (forall p, skipped_by sk1 p = skipped_by sk2 p) ->
       fst (walk path' sub split_char sk1) = fst (walk path' sub split_char sk2)) ->
  forall pages a0 b0 i j,
    (forall p, any_skip (a0 ++ [marker]) p = any_skip (b0 ++ [marker]) p) ->
    fst (folders_loop (fun folder sub sk => walk folder sub split_char (Some sk))
           path l pages (a0 ++ repeat marker (S i)))
    = fst (folders_loop (fun folder sub sk => walk folder sub split_char (Some sk))
             path l pages (b0 ++ repeat marker (S j))).
Proof.
  induction l as [|e l IH]; intros Hsub pages a0 b0 i j Hab; [reflexivity|].
  assert (Hsub' : forall n sub, In (Folder n sub) l ->
            forall path' sk1 sk2,
              (forall p, skipped_by sk1 p = skipped_by sk2 p) ->
              fst (walk path' sub split_char sk1)
              = fst (walk path' sub split_char sk2))
    by (intros n sub H; apply (Hsub n sub); now right).
  destruct e as [n|n sub].
  - rewrite !folders_loop_file. now apply IH.
  - rewrite !folders_loop_folder. rewrite !any_skip_repeat, Hab.
    destruct (any_skip (b0 ++ [marker]) (path // n)); [now apply IH|].
    cbv beta.
    pose proof (Hsub n sub (or_introl eq_refl) (path // n)
                  (Some (a0 ++ repeat marker (S i)))
                  (Some (b0 ++ repeat marker (S j)))) as Hfst.
    destruct (skip_list_shape split_char sub (path // n)
                (Some (a0 ++ repeat marker (S i)))) as (ka & Hka).
    destruct (skip_list_shape split_char sub (path // n)
                (Some (b0 ++ repeat marker (S j)))) as (kb & Hkb).
    destruct (walk (path // n) sub split_char (Some (a0 ++ repeat marker (S i))))
      as [ra ska].
    destruct (walk (path // n) sub split_char (Some (b0 ++ repeat marker (S j))))
      as [rb skb].
    cbn [fst snd given_skip] in Hka, Hkb, Hfst. subst ska skb.
    rewrite <- Hfst.
    + rewrite !repeat_marker_app.
      destruct ra as [[t|]|err]; [now apply IH | now apply IH | reflexivity].
    + intros p. unfold skipped_by, given_skip.
      rewrite <- !app_assoc, !repeat_snoc, !any_skip_repeat. apply Hab.
Qed.

Lemma walk_indep (split_char : string) : forall d path sk1 sk2,
  (forall p, skipped_by sk1 p = skipped_by sk2 p) ->
  fst (walk path d split_char sk1) = fst (walk path d split_char sk2).
Proof.
  intros d. induction d as [es IH] using dir_ind_folders.
  intros path sk1 sk2 H. rewrite !find_content_structure_eq. cbv zeta.
  destruct (Nat.eqb (List.length (content_files path es)) 0); [reflexivity|].
  destruct (select_parent (content_files path es)) as [[first rest]|err];
    simpl bind; [|reflexivity].
  destruct (to_yaml first split_char) as [parent0|err]; simpl bind;
    [|reflexivity].
  rewrite (children_loop_ext (given_skip sk1 ++ [marker])
             (given_skip sk2 ++ [marker]) rest H []).
  destruct (children_loop _filename_to_title cwd (given_skip sk2 ++ [marker]) rest [])
    as [pages0|err]; simpl bind; [|reflexivity].
  cbv beta iota.
  pose proof (folders_loop_indep split_char path es IH pages0
                (given_skip sk1) (given_skip sk2) 0 0 H) as Hloop.
  change (repeat marker 1) with [marker] in Hloop.
  destruct (folders_loop _ path es pages0 (given_skip sk1 ++ [marker]))
    as [r1 s1].
  destruct (folders_loop _ path es pages0 (given_skip sk2 ++ [marker]))
    as [r2 s2].
  simpl in Hloop. subst r2. destruct r1; reflexivity.
Qed.

(** X13. What the walk returns depends on [skip_text] only through the
    paths that it marks, the checkpoint marker included. So the mutation
    of the list does no harm: without a list, with an empty list and with
    the list that an earlier call has left longer, the outcome is the
    same. *)
Theorem outcome_ignores_marker_repeats (split_char : string) (d : dir)
    (path : Path) :
  (forall sk1 sk2,
     (forall p, skipped_by sk1 p = skipped_by sk2 p) ->
     fst (walk path d split_char sk1) = fst (walk path d split_char sk2)) /\
  fst (walk path d split_char None) = fst (walk path d split_char (Some [])) /\
  (forall l,
     fst (walk path d split_char
            (Some (snd (walk path d split_char (Some l)))))
     = fst (walk path d split_char (Some l))).
Proof.
  split; [|split].
  - intros sk1 sk2. apply walk_indep.
  - apply walk_indep. reflexivity.
  - intros l. destruct (skip_list_shape split_char d path (Some l)) as (k & ->).
    apply walk_indep. intros p. unfold skipped_by, given_skip.
    rewrite <- app_assoc, repeat_snoc, any_skip_repeat. reflexivity.
Qed.

End MoreGeneration.

(** ** Paths and their strings *)

Lemma split_slashless (c : ascii) (x : string) :
  has_char c x = false -> Py.split c x = [x].
Proof.
  induction x as [|a x IH]; simpl; [reflexivity|].
  intros H. apply orb_false_iff in H. destruct H as [Ha Hx].
  rewrite Ha. now rewrite (IH Hx).
Qed.

Lemma split_app_sep (c : ascii) (x rest : string) :
  has_char c x = false ->
  Py.split c (x ++ String c rest)%string = x :: Py.split c rest.
Proof.
  induction x as [|a x IH]; simpl; intros H.
  - now rewrite Ascii.eqb_refl.
  - apply orb_false_iff in H. destruct H as [Ha Hx].
    rewrite Ha. now rewrite (IH Hx).
Qed.

Lemma split_join (ps : list string) :
  ps <> [] -> Forall part_ok ps ->
  Py.split Py.slash (Py.join "/" ps) = ps.
Proof.
  induction ps as [|x ps IH]; intros Hne Hall; [congruence|].
  inversion Hall as [|y l Hx0 Hl]; subst. destruct Hx0 as (_ & _ & Hx).
  destruct ps as [|y ps].
  - simpl. now apply split_slashless.
  - change (Py.join "/" (x :: y :: ps))
      with (x ++ String Py.slash (Py.join "/" (y :: ps)))%string.
    rewrite split_app_sep by exact Hx. f_equal. apply IH; [discriminate|exact Hl].
Qed.

Lemma split_pieces_slashless (c : ascii) (s : string) :
  Forall (fun x => has_char c x = false) (Py.split c s).
Proof.
  induction s as [|a s IH]; simpl.
  - constructor; [reflexivity | constructor].
  - destruct (Ascii.eqb a c) eqn:E.
    + constructor; [reflexivity | exact IH].
    + destruct (Py.split c s) as [|w ws]; [repeat constructor; simpl; now rewrite E|].
      inversion IH; subst. constructor; [|assumption]. simpl. now rewrite E.
Qed.

Lemma filter_all_true {A : Type} (f : A -> bool) (l : list A) :
  Forall (fun x => f x = true) l -> filter f l = l.
Proof.
  induction 1 as [|x l Hx Hl IH]; simpl; [reflexivity|]. now rewrite Hx, IH.
Qed.

Lemma part_ok_proper (x : string) : part_ok x -> proper_part x = true.
Proof.
  intros (H1 & H2 & _). unfold proper_part.
  destruct (String.eqb_spec x ""); [contradiction|].
  destruct (String.eqb_spec x "."); [contradiction|]. reflexivity.
Qed.

Lemma lstrip_slash_no_slash (s : string) :
  match s with
  | String a _ => Ascii.eqb a Py.slash = false
  | EmptyString => True
  end ->
  lstrip_slash s = (0, s).
Proof. destruct s as [|a s]; simpl; [reflexivity|]. now intros ->. Qed.

Lemma join_starts_without_slash (x : string) (ps : list string) :
  part_ok x ->
  match Py.join "/" (x :: ps) with
  | String a _ => Ascii.eqb a Py.slash = false
  | EmptyString => True
  end.
Proof.
  intros (Hne & _ & Hs). destruct x as [|a x]; [congruence|].
  simpl in Hs. apply orb_false_iff in Hs. destruct Hs as [Ha _].
  destruct ps; simpl; exact Ha.
Qed.

Lemma parse_canonical (s : string) : canonical (parse s).
Proof.
  unfold canonical, parse, splitroot.
  destruct (lstrip_slash s) as [n rel]. split.
  - destruct n as [|[|[|n]]]; simpl; auto.
  - assert (Hparts : Forall part_ok (filter proper_part (Py.split Py.slash rel))).
    { apply Forall_forall. intros x Hx. apply filter_In in Hx.
      destruct Hx as [Hin Hp].
      pose proof (split_pieces_slashless Py.slash rel) as Hs.
      rewrite Forall_forall in Hs. unfold proper_part in Hp.
      apply andb_prop in Hp. destruct Hp as [H1 H2].
      repeat split.
      - intros ->. discriminate.
      - intros ->. discriminate.
      - now apply Hs. }
    destruct n as [|[|[|n]]]; simpl; exact Hparts.
Qed.

(** [Path(str(p))] is [p] for a path as [Path] builds it. *)
Lemma parse_path_str (p : Path) : canonical p -> parse (path_str p) = p.
Proof.
  destruct p as [r ps]. intros [Hroot Hparts]. simpl in *.
  destruct ps as [|x ps].
  - destruct Hroot as [-> | [-> | ->]]; reflexivity.
  - inversion Hparts as [|y l Hx Hl]; subst.
    assert (Hsplit : filter proper_part
                       (Py.split Py.slash (Py.join "/" (x :: ps))) = x :: ps).
    { rewrite split_join by (discriminate || assumption).
      apply filter_all_true. apply Forall_forall. intros z Hz.
      apply part_ok_proper. rewrite Forall_forall in Hparts. now apply Hparts. }
    pose proof (lstrip_slash_no_slash _ (join_starts_without_slash x ps Hx)) as Hl0.
    unfold path_str, parse, splitroot. simpl root. simpl parts.
    destruct Hroot as [-> | [-> | ->]].
    + change ("" ++ Py.join "/" (x :: ps))%string with (Py.join "/" (x :: ps)).
      rewrite Hl0. now rewrite Hsplit.
    + change (lstrip_slash ("/" ++ Py.join "/" (x :: ps))%string)
        with (let (n, r) := lstrip_slash (Py.join "/" (x :: ps)) in (S n, r)).
      rewrite Hl0. cbv iota beta zeta. now rewrite Hsplit.
    + change (lstrip_slash ("//" ++ Py.join "/" (x :: ps))%string)
        with (let '(n, r) :=
                (let (n, r) := lstrip_slash (Py.join "/" (x :: ps)) in (S n, r))
              in (S n, r)).
      rewrite Hl0. cbv iota beta zeta. now rewrite Hsplit.
Qed.

(** ** Names and their stems *)

Lemma length_substring (s : string) : forall a b,
  a + b <= length s -> length (substring a b s) = b.
Proof.
  induction s as [|c s IH]; intros a b H; simpl in H.
  - destruct a, b; simpl; lia.
  - destruct a as [|a]; destruct b as [|b]; simpl; try reflexivity.
    + f_equal. apply (IH 0 b). lia.
    + apply IH. lia.
    + apply IH. lia.
Qed.

Lemma has_char_upto (c : ascii) (s : string) : forall k,
  has_char c s = false -> has_char c (substring 0 k s) = false.
Proof.
  induction s as [|a s IH]; intros k H.
  - destruct k; reflexivity.
  - destruct k as [|k]; [reflexivity|]. simpl in *.
    apply orb_false_iff in H. destruct H as [Ha Hs].
    rewrite Ha. simpl. now apply IH.
Qed.

Lemma substring_none (s : string) : substring 0 0 s = "".
Proof. destruct s; reflexivity. Qed.

Lemma prefix_dots (s : string) :
  prefix ".." s = true <-> exists r, s = String "." (String "." r).
Proof.
  rewrite prefix_correct. change (length "..") with 2.
  destruct s as [|a [|b s]]; cbn [substring].
  - split; [discriminate | intros (r & H); discriminate].
  - split; [discriminate | intros (r & H); discriminate].
  - rewrite substring_none. split.
    + intros H. inversion H; subst. now exists s.
    + intros (r & H). inversion H; subst. reflexivity.
Qed.

Lemma prefix_upto (s : string) (k : nat) :
  prefix ".." s = false -> prefix ".." (substring 0 k s) = false.
Proof.
  intros H. destruct (prefix ".." (substring 0 k s)) eqn:E; [|reflexivity].
  apply prefix_dots in E. destruct E as (r & E).
  assert (Hs : prefix ".." s = true); [|congruence].
  apply prefix_dots.
  destruct s as [|a [|b s]]; destruct k as [|[|k]]; cbn [substring] in E;
    try discriminate.
  inversion E; subst. now exists s.
Qed.

Lemma rfind_at_one (c a b : ascii) (s : string) :
  Py.rfind c (String a (String b s)) = Some 1 -> b = c.
Proof.
  cbn [Py.rfind]. destruct (Py.rfind c s) as [i|]; [intros H; discriminate|].
  destruct (Ascii.eqb_spec b c) as [E|E]; [trivial|].
  destruct (Ascii.eqb a c); intros H; discriminate.
Qed.

(** The length that [stem_of] keeps: up to the dot of the suffix, or all. *)
Lemma stem_length (n : string) :
  (suffix_of n = "" /\ length n - length (suffix_of n) = length n) \/
  (exists i, Py.rfind Py.dot n = Some i /\ 0 < i /\
             length n - length (suffix_of n) = i).
Proof.
  unfold suffix_of. destruct (Py.rfind Py.dot n) as [i|] eqn:R.
  - destruct (Nat.ltb 0 i && Nat.ltb i (length n - 1)) eqn:C.
    + right. exists i. apply andb_prop in C. destruct C as [C1 C2].
      apply Nat.ltb_lt in C1. apply Nat.ltb_lt in C2.
      repeat split; auto. unfold Py.from.
      rewrite length_substring by lia. lia.
    + left. split; [reflexivity | simpl; lia].
  - left. split; [reflexivity | simpl; lia].
Qed.

Lemma stem_of_not_dot (n : string) : ordinary n -> stem_of n <> ".".
Proof.
  intros [(Hne & Hdot & _) Hpre] E. unfold stem_of, Py.upto in E.
  destruct (stem_length n) as [[_ Hk]|(i & R & Hi & Hk)]; rewrite Hk in E.
  - destruct n as [|a [|b r]]; [congruence | |].
    + cbn in E. congruence.
    + cbn in E. discriminate.
  - destruct n as [|a [|b r]]; [discriminate | |].
    + cbn [Py.rfind] in R. destruct (Ascii.eqb a Py.dot); inversion R; lia.
    + destruct i as [|[|i]]; [lia | |].
      * apply rfind_at_one in R. subst b.
        cbn [substring] in E. inversion E; subst.
        assert (Ht : prefix ".." (String "." (String Py.dot r)) = true)
          by (apply prefix_dots; now exists r).
        congruence.
      * cbn [substring] in E. discriminate.
Qed.

Lemma ordinary_stem (n : string) : ordinary n -> ordinary (stem_of n).
Proof.
  intros H. pose proof (stem_of_not_dot n H) as Hd.
  destruct H as [(Hne & Hdot & Hs) Hpre]. repeat split.
  - now apply stem_of_nonempty.
  - exact Hd.
  - unfold stem_of, Py.upto. now apply has_char_upto.
  - unfold stem_of, Py.upto. now apply prefix_upto.
Qed.

Lemma canonical_child (q : Path) (m : string) :
  canonical q -> part_ok m -> canonical (q // m).
Proof.
  intros [Hr Hp] Hm. split; [exact Hr|]. unfold child. simpl.
  apply Forall_app. split; [exact Hp | now constructor].
Qed.

(** A canonical path with a name loses its suffix when its string is
    stripped. *)
Lemma no_suffix_canonical (q : Path) (m : string) :
  canonical q -> part_ok m ->
  _no_suffix (Some (path_str (q // m))) = Ok (Some (path_str (q // stem_of m))).
Proof.
  intros Hq Hm. unfold _no_suffix.
  rewrite parse_path_str by now apply canonical_child.
  rewrite with_suffix_empty_named
    by (rewrite name_of_child; now destruct Hm).
  simpl. now rewrite strip_child.
Qed.

(** ** From the generated tree to the lookup *)

Lemma first_decisive_finds (X : option string) (l : list node) (n : node) :
  (forall m, In m l -> strips m) -> In n l -> matches X n ->
  exists hit, first_decisive X l = Ok (Some hit) /\ matches X hit.
Proof.
  induction l as [|a l IH]; intros Hs Hin Hm; [destruct Hin|].
  cbn [first_decisive].
  destruct (Hs a (or_introl eq_refl)) as (s & Es). rewrite Es.
  destruct (option_string_eqb s X) eqn:E.
  - exists a. split; [reflexivity|].
    apply option_string_eqb_eq in E. unfold matches. congruence.
  - destruct Hin as [->|Hin].
    + unfold matches in Hm. rewrite Hm in Es. inversion Es; subst.
      assert (Ht : option_string_eqb s s = true)
        by now apply option_string_eqb_eq.
      congruence.
    + apply IH; auto. intros m Hmem. apply Hs. now right.
Qed.

Section RoundTrip.

Variable SUPPORTED_FILE_SUFFIXES : list string.
Variable _filename_to_title : string -> string -> string.
Variable cwd : list string.

Local Notation walk :=
  (_find_content_structure SUPPORTED_FILE_SUFFIXES _filename_to_title cwd).

(** A content file that the walk reaches is an entry of a folder whose
    path is canonical. *)
Lemma reached_entry (skipped : Path -> bool) (path : Path) (d : dir) (p : Path) :
  reached SUPPORTED_FILE_SUFFIXES skipped path d p ->
  fs_ordinary d -> canonical path ->
  exists q m, p = q // m /\ canonical q /\ ordinary m.
Proof.
  induction 1 as [path es e He Hs | path es n sub p Hne Hin Hsk Hr IH];
    intros Hord Hcan; inversion Hord as [es0 Hnames Hsub]; subst.
  - exists path, (entry_name e). repeat split; try apply Hcan; apply Hnames; auto.
  - apply IH; [eapply Hsub; eauto|].
    apply canonical_child; [exact Hcan|].
    apply (Hnames (Folder n sub) Hin).
Qed.

(** The [file] of a generated node strips without an error. *)
Lemma generated_file_strips (q : Path) (m : string) :
  canonical q -> ordinary m ->
  exists x, node_file (q // m) = Some (path_str (q // stem_of (stem_of m))) /\
            _no_suffix (node_file (q // m)) = Ok (Some x).
Proof.
  intros Hq Hm.
  assert (Hfile : node_file (q // m) = Some (path_str (q // stem_of (stem_of m)))).
  { rewrite node_file_named by (rewrite name_of_child; apply Hm).
    now rewrite !strip_child. }
  eexists. split; [exact Hfile|]. rewrite Hfile.
  apply no_suffix_canonical; [exact Hq|].
  apply ordinary_stem, ordinary_stem, Hm.
Qed.

(** X14. Every page of a generated table of contents can be looked up. On
    a directory whose entries have ordinary names (a component of their
    own, not starting with two dots), the [file] of each node that
    [_find_content_structure] builds strips without an error, and
    [find_name] on the generated tree with that stripped name as the key
    returns a page whose stripped [file] is the key; the lookup of any key
    at all never raises. *)
Theorem generated_pages_are_found (path : string) (d : dir)
    (split_char : string) (skip_text : option (list string))
    (t : node) (sk : list string) :
  fs_ok d -> fs_ordinary d ->
  walk (parse path) d split_char skip_text = (Ok (Some t), sk) ->
  (forall X, exists r, find_name (Single t) X = Ok r) /\
  (forall n, In n (preorder t) ->
     exists x hit,
       _no_suffix (file n) = Ok (Some x) /\
       find_name (Single t) (Some x) = Ok (Some hit) /\
       matches (Some x) hit).
Proof.
  intros Hok Hord Hwalk.
  destruct (walk_correct SUPPORTED_FILE_SUFFIXES _filename_to_title cwd
              (skipped_by skip_text) split_char d Hok
              (parse path) skip_text (fun p => eq_refl)) as (r & Hw & Hr).
  rewrite Hwalk in Hw. inversion Hw; subst r. destruct Hr as [Hfiles _].
  assert (Hstrip : forall n, In n (preorder t) ->
                     exists x, _no_suffix (file n) = Ok (Some x)).
  { intros n Hn. apply (in_map file) in Hn. rewrite Hfiles in Hn.
    apply in_map_iff in Hn. destruct Hn as (p & Hp & Hin).
    apply kept_reached in Hin; [|exact Hok].
    destruct (reached_entry _ _ _ _ Hin Hord (parse_canonical path))
      as (q & m & -> & Hq & Hm).
    destruct (generated_file_strips q m Hq Hm) as (x & _ & Hx).
    exists x. now rewrite <- Hp. }
  assert (Hall : forall m, In m (tree_nodes (Single t)) -> strips m).
  { intros m Hm. destruct (Hstrip m Hm) as (x & Hx). now exists (Some x). }
  split.
  - intros X. rewrite (find_name_is_find _ X Hall). eauto.
  - intros n Hn. destruct (Hstrip n Hn) as (x & Hx). exists x.
    rewrite find_name_scans.
    destruct (first_decisive_finds (Some x) (tree_nodes (Single t)) n Hall Hn Hx)
      as (hit & Hhit & Hm).
    exists hit. auto.
Qed.

End RoundTrip.

(** ** The walk and the lookup on the example directories *)

Ltac name_is_ordinary :=
  repeat split; try discriminate; vm_compute; reflexivity.

Lemma book_example_ordinary : fs_ordinary book_example.
Proof.
  constructor.
  - intros e H. entry_cases H; subst; name_is_ordinary.
  - intros n sub H. entry_cases H; inversion H; subst; constructor;
      try (intros e He; entry_cases He; subst; name_is_ordinary);
      intros n' sub' H'; entry_cases H'; discriminate.
Qed.

Lemma build_toc_needs_content_at_top_witness :
  build_example "book"
    (Listing [File "notes.txt"; Folder "appendix" (Listing [File "a1.md"])])
    "_" None
  = (Raise (ValueError "No content files were found in book."),
     [".ipynb_checkpoints"]) /\
  exists t sk,
    walk_example (parse "book") book_example "_" None = (Ok (Some t), sk) /\
    build_example "book" book_example "_" None = (Ok (dump_example t), sk).
Proof.
  split.
  - apply (proj1 (build_toc_needs_content_at_top supported_suffixes_spec
                    filename_to_title_spec cwd_example dump_example "book"
                    [File "notes.txt"; Folder "appendix" (Listing [File "a1.md"])]
                    "_" None)).
    vm_compute. reflexivity.
  - apply (proj2 (build_toc_needs_content_at_top supported_suffixes_spec
                    filename_to_title_spec cwd_example dump_example "book"
                    (entries_of book_example) "_" None)).
    + vm_compute. discriminate.
    + exact book_example_ok.
Defined.

Lemma content_path_to_yaml_strips_twice_witness :
  _content_path_to_yaml filename_to_title_spec cwd_example
    (parse "book" // "data.tar.md") "-"
  = Ok (mkNode (Some "book/data")
          (Some (filename_to_title_spec "data.tar" "-")) None false None) /\
  _content_path_to_yaml filename_to_title_spec cwd_example
    (parse "book" // "index.md") "-"
  = Ok (mkNode (Some "book/index")
          (Some (filename_to_title_spec "book" "-")) None false None).
Proof.
  split.
  - apply (proj1 (content_path_to_yaml_strips_twice filename_to_title_spec
                    cwd_example (parse "book") "data.tar.md" "-")).
    discriminate.
  - apply (proj1 (content_path_to_yaml_strips_twice filename_to_title_spec
                    cwd_example (parse "book") "index.md" "-")).
    discriminate.
Defined.

Lemma generated_nodes_have_file_and_title_witness :
  Forall generated_shape
    (preorder
       (mkNode (Some "book/a") (Some "A") None false
          (Some [mkNode (Some "book/b") (Some "B") None false None]))).
Proof.
  apply (generated_nodes_have_file_and_title supported_suffixes_spec
           filename_to_title_spec cwd_example "_" listing_ab (parse "book")
           None _ [".ipynb_checkpoints"]).
  vm_compute. reflexivity.
Defined.

Lemma outcome_ignores_marker_repeats_witness :
  fst (walk_example (parse "book") book_example "_" (Some ["draft"; "draft"]))
  = fst (walk_example (parse "book") book_example "_" (Some ["draft"])) /\
  fst (walk_example (parse "book") book_example "_" None)
  = fst (walk_example (parse "book") book_example "_" (Some [])).
Proof.
  split.
  - apply (proj1 (outcome_ignores_marker_repeats supported_suffixes_spec
                    filename_to_title_spec cwd_example "_" book_example
                    (parse "book"))).
    intros p. unfold skipped_by, any_skip, given_skip. cbn [app existsb].
    destruct (Py.contains "draft" (path_str p)); reflexivity.
  - apply (proj1 (proj2 (outcome_ignores_marker_repeats supported_suffixes_spec
                           filename_to_title_spec cwd_example "_" book_example
                           (parse "book")))).
Defined.

Lemma generated_pages_are_found_witness :
  exists t sk,
    walk_example (parse "book") book_example "_" (Some ["draft"])
    = (Ok (Some t), sk) /\
    (forall X, exists r, find_name (Single t) X = Ok r) /\
    (forall n, In n (preorder t) ->
       exists x hit,
         _no_suffix (file n) = Ok (Some x) /\
         find_name (Single t) (Some x) = Ok (Some hit) /\
         matches (Some x) hit).
Proof.
  eexists. eexists. split; [vm_compute; reflexivity|].
  refine (generated_pages_are_found supported_suffixes_spec
            filename_to_title_spec cwd_example "book" book_example "_"
            (Some ["draft"]) _ _ book_example_ok book_example_ordinary _).
  vm_compute. reflexivity.
Defined.

(** ** What the choice of the parent can lose *)

Lemma in_pop_rest {A : Type} (k : nat) (l : list A) (x p : A) :
  nth_error l k = Some x -> In p l -> p <> x -> In p (pop_rest k l).
Proof.
  intros Hk Hin Hne. rewrite (pop_rest_split k l x Hk) in Hin.
  unfold pop_rest. apply in_app_or in Hin. apply in_or_app.
  destruct Hin as [Hin|[Hin|Hin]]; [now left | congruence | now right].
Qed.

Lemma index_loop_keeps_others (fuel : nat) : forall ii l first l' first',
  named l -> index_loop fuel ii l first = Ok (l', first') ->
  forall p, In p l -> index_stemmed p = false -> In p l'.
Proof.
  induction fuel as [|fuel IH]; intros ii l first l' first' Hn H p Hp Hi;
    simpl in H.
  - inversion H; subst. exact Hp.
  - destruct (nth_error l ii) as [ifile|] eqn:E.
    + assert (Hname : name_of ifile <> "").
      { unfold named in Hn; rewrite Forall_forall in Hn.
        apply Hn. eapply nth_error_In; eauto. }
      rewrite (is_index_named _ Hname) in H. simpl in H.
      destruct (index_stemmed ifile) eqn:Ei.
      * eapply IH; [| exact H | | exact Hi].
        -- eapply named_incl; [apply incl_pop_rest | exact Hn].
        -- eapply in_pop_rest; [exact E | exact Hp | congruence].
      * eapply IH; eauto.
    + inversion H; subst. exact Hp.
Qed.

(** X15. On content files with names, the choice of the parent never
    fails and takes its result from the list; a file whose stem is not
    "index" is never lost by it (it is the parent or stays among the other
    files), and with an index page in the list the parent is an index
    page. Only index pages can drop out, through the pops of the loop
    that runs over the list. *)
Theorem select_parent_drops_index_pages_only (l : list Path) :
  named l -> l <> [] ->
  exists f rest,
    select_parent l = Ok (f, rest) /\ In f l /\ incl rest l /\
    (forall p, In p l -> index_stemmed p = false -> p = f \/ In p rest) /\
    ((exists p, In p l /\ index_stemmed p = true) -> index_stemmed f = true).
Proof.
  intros Hn Hne. unfold select_parent.
  destruct (index_loop_ok (List.length l) 0 l None Hn) as (l' & f' & H1 & H2 & H3).
  pose proof (index_loop_keeps_others _ _ _ _ _ _ Hn H1) as Hkeep.
  rewrite H1. simpl. destruct f' as [f|].
  - destruct H3 as [H3|(f0 & E & Hf & Hfi)]; [discriminate|].
    inversion E; subst f0. exists f, l'. repeat split; auto.
  - pose proof (index_loop_keeps _ _ _ _ Hn H1) as El. subst l'.
    destruct l as [|a l]; [congruence|].
    exists a, l. repeat split.
    + now left.
    + intros x Hx. now right.
    + intros p Hp _. destruct Hp as [->|Hp]; auto.
    + intros (p & Hp & Hi).
      destruct (In_nth_error _ _ Hp) as (k & Hk).
      destruct (index_loop_hits (List.length (a :: l)) 0 (a :: l) None Hn)
        as (l2 & f2 & G & _); [exists k, p; repeat split; auto; lia | lia |].
      rewrite G in H1. discriminate.
Qed.

Lemma select_parent_drops_index_pages_only_witness :
  exists f rest,
    select_parent (content_files_of supported_suffixes_spec (parse "book")
                     (entries_of two_index_example))
    = Ok (f, rest) /\
    In f (content_files_of supported_suffixes_spec (parse "book")
            (entries_of two_index_example)) /\
    incl rest (content_files_of supported_suffixes_spec (parse "book")
                 (entries_of two_index_example)) /\
    (forall p, In p (content_files_of supported_suffixes_spec (parse "book")
                       (entries_of two_index_example)) ->
               index_stemmed p = false -> p = f \/ In p rest) /\
    ((exists p, In p (content_files_of supported_suffixes_spec (parse "book")
                        (entries_of two_index_example)) /\
                index_stemmed p = true) -> index_stemmed f = true).
Proof.
  apply (select_parent_drops_index_pages_only
           (content_files_of supported_suffixes_spec (parse "book")
              (entries_of two_index_example))).
  - repeat constructor; vm_compute; discriminate.
  - vm_compute. discriminate.
Defined.

(** ** A marker in the path of the folder itself *)

Lemma string_app_assoc (a b c : string) :
  ((a ++ b) ++ c = a ++ (b ++ c))%string.
Proof. induction a as [|x a IH]; simpl; [reflexivity | now rewrite IH]. Qed.

Lemma prefix_app (a : string) : forall s x,
  prefix a s = true -> prefix a (s ++ x) = true.
Proof.
  induction a as [|c a IH]; intros s x H; [now destruct (s ++ x)%string|].
  destruct s as [|b s]; [discriminate|].
  cbn [prefix append] in *. destruct (ascii_dec c b); [|discriminate].
  now apply IH.
Qed.

Lemma contains_eq (a s : string) :
  Py.contains a s
  = prefix a s || match s with
                  | EmptyString => false
                  | String _ s' => Py.contains a s'
                  end.
Proof. destruct s; reflexivity. Qed.

Lemma contains_app (a s x : string) :
  Py.contains a s = true -> Py.contains a (s ++ x) = true.
Proof.
  induction s as [|c s IH]; intros H; rewrite contains_eq in H.
  - rewrite orb_false_r in H. rewrite contains_eq.
    now rewrite (prefix_app a "" x H).
  - apply orb_prop in H. rewrite contains_eq. destruct H as [H|H].
    + now rewrite (prefix_app a (String c s) x H).
    + cbn [append]. rewrite (IH H). apply orb_true_r.
Qed.

Lemma join_snoc (ps : list string) (n : string) :
  ps <> [] -> Py.join "/" (ps ++ [n]) = (Py.join "/" ps ++ "/" ++ n)%string.
Proof.
  induction ps as [|x ps IH]; intros Hne; [congruence|].
  destruct ps as [|y ps]; [reflexivity|].
  change (Py.join "/" ((x :: y :: ps) ++ [n]))
    with (x ++ "/" ++ Py.join "/" ((y :: ps) ++ [n]))%string.
  rewrite IH by discriminate.
  change (Py.join "/" (x :: y :: ps)) with (x ++ "/" ++ Py.join "/" (y :: ps))%string.
  now rewrite !string_app_assoc.
Qed.

(** But for the path ".", the string of a folder starts the strings of its
    entries. *)
Lemma path_str_child (path : Path) (n : string) :
  parts path <> [] \/ root path <> "" ->
  exists x, path_str (path // n) = (path_str path ++ x)%string.
Proof.
  destruct path as [r ps]. unfold path_str, child. simpl root. simpl parts.
  intros H. destruct ps as [|p ps].
  - destruct H as [H|H]; [congruence|]. destruct r as [|a r]; [congruence|].
    exists n. cbn [app Py.join]. now rewrite string_app_nil_r.
  - exists ("/" ++ n)%string.
    assert (Hj : match ((p :: ps) ++ [n]) with
                 | [] => "."
                 | s :: l => ("" ++ Py.join "/" (s :: l))%string
                 end = Py.join "/" ((p :: ps) ++ [n])) by reflexivity.
    destruct r as [|a r].
    + rewrite Hj, join_snoc by discriminate. reflexivity.
    + rewrite join_snoc by discriminate. now rewrite !string_app_assoc.
Qed.

Lemma any_skip_child (sk : list string) (path : Path) (n : string) :
  parts path <> [] \/ root path <> "" ->
  any_skip sk path = true -> any_skip sk (path // n) = true.
Proof.
  intros Hp H. unfold any_skip in *. apply existsb_exists in H.
  destruct H as (m & Hm & Hc). apply existsb_exists. exists m. split; [exact Hm|].
  destruct (path_str_child path n Hp) as (x & ->). now apply contains_app.
Qed.

Lemma filter_none {A : Type} (f : A -> bool) (l : list A) :
  (forall x, In x l -> f x = false) -> filter f l = [].
Proof.
  induction l as [|a l IH]; intros H; [reflexivity|]. simpl.
  rewrite (H a (or_introl eq_refl)). apply IH. intros x Hx. apply H. now right.
Qed.

Lemma folders_loop_all_skipped
    (walk : Path -> dir -> list string -> result (option node) * list string)
    (path : Path) (l : list entry) (pages : list node) (sk : list string) :
  (forall n, any_skip sk (path // n) = true) ->
  folders_loop walk path l pages sk = (Ok pages, sk).
Proof.
  intros H. induction l as [|e l IH]; [reflexivity|].
  destruct e as [n|n sub].
  - rewrite folders_loop_file. exact IH.
  - rewrite folders_loop_folder, H. exact IH.
Qed.

Section OwnPath.

Variable SUPPORTED_FILE_SUFFIXES : list string.
Variable _filename_to_title : string -> string -> string.
Variable cwd : list string.

Local Notation walk :=
  (_find_content_structure SUPPORTED_FILE_SUFFIXES _filename_to_title cwd).
Local Notation content_files :=
  (content_files_of SUPPORTED_FILE_SUFFIXES).

(** X16. The skip markers are looked for in the whole path of an entry,
    the path of the folder included. So when a marker occurs in the path
    that the walk is called on (any path but "."), every page but the
    parent and every folder is skipped: the result is the parent page
    alone, without [pages], and no folder below is visited. *)
Theorem marker_in_own_path_leaves_parent (path : Path) (es : list entry)
    (split_char : string) (skip_text : option (list string)) :
  fs_ok (Listing es) -> content_files path es <> [] ->
  parts path <> [] \/ root path <> "" ->
  skipped_by skip_text path = true ->
  exists first rest,
    select_parent (content_files path es) = Ok (first, rest) /\
    walk path (Listing es) split_char skip_text
    = (Ok (Some (leaf_node (title_for _filename_to_title cwd split_char) first)),
       given_skip skip_text ++ [".ipynb_checkpoints"]).
Proof.
  intros Hok Hne Hpath Hsk. inversion Hok as [es0 Hnd Hnames Hsub]; subst.
  pose proof (content_files_named SUPPORTED_FILE_SUFFIXES path es Hnames) as Hn.
  destruct (select_parent_total _ Hn Hne) as (first & rest & Hsel & Hfirst & Hrest).
  exists first, rest. split; [exact Hsel|].
  assert (Hall : forall n, any_skip (given_skip skip_text ++ [marker]) (path // n)
                           = true)
    by (intros n; now apply any_skip_child).
  rewrite find_content_structure_eq. cbv zeta.
  replace (Nat.eqb (List.length (content_files path es)) 0) with false
    by (destruct (content_files path es); [congruence | reflexivity]).
  rewrite Hsel. simpl bind.
  assert (Hnf : name_of first <> "")
    by (unfold named in Hn; rewrite Forall_forall in Hn; auto).
  assert (Hnr : named rest) by (eapply named_incl; eauto).
  rewrite (content_path_to_yaml_named _ _ _ _ Hnf). simpl bind.
  rewrite (children_loop_named _ _ _ _ [] Hnr). simpl bind.
  rewrite filter_none.
  - cbn [map app]. rewrite folders_loop_all_skipped by exact Hall. reflexivity.
  - intros p Hp. apply Hrest in Hp. apply in_content_files in Hp.
    destruct Hp as (e & _ & -> & _). now rewrite Hall.
Qed.

End OwnPath.

Lemma marker_in_own_path_leaves_parent_witness :
  exists first rest,
    select_parent (content_files_of supported_suffixes_spec
                     (parse "drafts/book") (entries_of book_example))
    = Ok (first, rest) /\
    walk_example (parse "drafts/book") book_example "_" (Some ["draft"])
    = (Ok (Some (leaf_node (title_for filename_to_title_spec cwd_example "_")
                   first)),
       ["draft"; ".ipynb_checkpoints"]).
Proof.
  apply (marker_in_own_path_leaves_parent supported_suffixes_spec
           filename_to_title_spec cwd_example (parse "drafts/book")
           (entries_of book_example) "_" (Some ["draft"]) book_example_ok).
  - vm_compute. discriminate.
  - left. vm_compute. discriminate.
  - vm_compute. reflexivity.
Defined.

(** ** The suffix-stripped path, on the string *)

Lemma path_str_parts (p : Path) :
  parts p <> [] -> path_str p = (root p ++ Py.join "/" (parts p))%string.
Proof.
  destruct p as [r ps]. unfold path_str. simpl.
  destruct r; destruct ps; congruence || reflexivity.
Qed.

Lemma split_nonempty (c : ascii) (s : string) : Py.split c s <> [].
Proof.
  destruct s as [|a s]; simpl; [discriminate|].
  destruct (Ascii.eqb a c); [discriminate|].
  destruct (Py.split c s); discriminate.
Qed.

Lemma split_after_slash (s : string) :
  Py.split Py.slash (String Py.slash s) = "" :: Py.split Py.slash s.
Proof. cbn [Py.split]. now rewrite Ascii.eqb_refl. Qed.

Lemma last_after_head {A : Type} (x d : A) (l : list A) :
  l <> [] -> last (x :: l) d = last l d.
Proof. destruct l; [congruence | reflexivity]. Qed.

(** What follows the last slash of a path's string is the name. *)
Lemma basename_path_str (p : Path) :
  canonical p -> parts p <> [] -> basename (path_str p) = name_of p.
Proof.
  intros [Hroot Hparts] Hne. rewrite path_str_parts by exact Hne.
  unfold basename, name_of.
  assert (Hj : last (Py.split Py.slash (Py.join "/" (parts p))) ""
               = last (parts p) "")
    by (now rewrite split_join).
  destruct Hroot as [-> | [-> | ->]].
  - exact Hj.
  - change ("/" ++ Py.join "/" (parts p))%string
      with (String Py.slash (Py.join "/" (parts p))).
    rewrite split_after_slash, last_after_head by apply split_nonempty.
    exact Hj.
  - change ("//" ++ Py.join "/" (parts p))%string
      with (String Py.slash (String Py.slash (Py.join "/" (parts p)))).
    rewrite !split_after_slash.
    rewrite !last_after_head
      by (apply split_nonempty || discriminate).
    exact Hj.
Qed.

Lemma substring_app (a b : string) (k : nat) :
  substring 0 (length a + k) (a ++ b) = (a ++ substring 0 k b)%string.
Proof. induction a as [|c a IH]; simpl; [reflexivity | now rewrite IH]. Qed.

Lemma length_string_app (a b : string) :
  length (a ++ b) = length a + length b.
Proof. induction a as [|c a IH]; simpl; [reflexivity | now rewrite IH]. Qed.

(** The string of a path ends with the name: what comes before it does
    not depend on the name. *)
Lemma path_str_last (r : string) (init : list string) (x : string) :
  path_str (mkPath r (init ++ [x]))
  = ((r ++ match init with
           | [] => ""
           | _ => Py.join "/" init ++ "/"
           end) ++ x)%string.
Proof.
  rewrite path_str_parts by (simpl; destruct init; discriminate). simpl.
  destruct init as [|y init].
  - simpl. now rewrite string_app_nil_r.
  - rewrite join_snoc by discriminate. now rewrite !string_app_assoc.
Qed.

(** Stripping the suffix of a path cuts the extension off its string. *)
Lemma strip_chops_suffix (p : Path) :
  canonical p -> parts p <> [] ->
  path_str (strip p) = suffix_stripped (path_str p).
Proof.
  intros Hcan Hne. unfold suffix_stripped.
  rewrite (basename_path_str p Hcan Hne).
  assert (Hname : name_of p <> "").
  { destruct Hcan as [_ Hparts]. unfold name_of.
    destruct (exists_last Hne) as (init & x & E). rewrite E, last_last.
    rewrite E in Hparts. apply Forall_app in Hparts. destruct Hparts as [_ Hx].
    inversion Hx as [|y l Hy _]; subst. apply Hy. }
  pose proof (suffix_of_shorter _ Hname) as Hlt.
  destruct p as [r ps]. destruct (exists_last Hne) as (init & x & E).
  simpl in E. subst ps. unfold strip, name_of in *. cbn [root parts] in *.
  rewrite last_last in *. rewrite removelast_last.
  rewrite !path_str_last. unfold Py.upto.
  rewrite length_string_app.
  replace (length (r ++ match init with
                        | [] => ""
                        | _ :: _ => Py.join "/" init ++ "/"
                        end) + length x - length (suffix_of x))
    with (length (r ++ match init with
                       | [] => ""
                       | _ :: _ => Py.join "/" init ++ "/"
                       end) + (length x - length (suffix_of x))) by lia.
  rewrite substring_app. reflexivity.
Qed.


(** For a [file] that is written as a path writes itself, the identifier
    is the [file] without its extension. *)
Lemma identifier_of_written (n : node) (f : string) :
  file n = Some f -> path_str (parse f) = f ->
  identifier_of n = Some (suffix_stripped f).
Proof. intros Hf Hw. unfold identifier_of. now rewrite Hf, Hw. Qed.

(** The identifier of a content file is the string of its path without
    the extension. *)
Lemma file_identifier_chops (p : Path) :
  canonical p -> parts p <> [] ->
  file_identifier p = Some (suffix_stripped (path_str p)).
Proof.
  intros Hc Hne. unfold file_identifier. now rewrite strip_chops_suffix.
Qed.

(** ** The lookup by identifier *)






(** ** The identifiers of the generated pages *)

Lemma substring_full (s : string) : substring 0 (length s) s = s.
Proof. induction s as [|c s IH]; simpl; [reflexivity | now rewrite IH]. Qed.

Lemma stem_of_single (m : string) : suffix_of m = "" -> stem_of m = m.
Proof.
  intros H. unfold stem_of, Py.upto. rewrite H. simpl length.
  rewrite Nat.sub_0_r. apply substring_full.
Qed.

(** A file with one suffix only: the second [with_suffix("")] of the code
    changes nothing. *)
Lemma strip_idem (p : Path) :
  suffix_of (stem_of (name_of p)) = "" -> strip (strip p) = strip p.
Proof.
  intros H. unfold strip at 1. rewrite name_of_strip, (stem_of_single _ H).
  unfold strip. simpl. now rewrite removelast_last.
Qed.

Lemma length_parts_strip (p : Path) :
  parts p <> [] -> List.length (parts (strip p)) = List.length (parts p).
Proof.
  intros H. destruct (exists_last H) as (init & x & E). unfold strip. simpl.
  rewrite E, removelast_last, !length_app. reflexivity.
Qed.

Lemma strip_parts_head (p : Path) (A : list string) (n m : string)
    (tail : list string) :
  parts p = A ++ n :: m :: tail ->
  exists rest, parts (strip p) = A ++ n :: rest.
Proof.
  intros E. unfold strip. simpl. rewrite E.
  exists (removelast (m :: tail) ++ [stem_of (name_of p)]).
  rewrite removelast_app by discriminate.
  change (removelast (n :: m :: tail)) with (n :: removelast (m :: tail)).
  now rewrite <- app_assoc.
Qed.

Lemma folder_unique (es : list entry) (n : string) (sub sub' : dir) :
  NoDup (map entry_name es) ->
  In (Folder n sub) es -> In (Folder n sub') es -> sub = sub'.
Proof.
  induction es as [|e es IH]; intros Hnd H1 H2; [destruct H1|].
  inversion Hnd as [|x l Hx Hl]; subst.
  assert (Hno : forall s, In (Folder n s) es -> entry_name e <> n).
  { intros s Hs E. apply Hx. rewrite E.
    change n with (entry_name (Folder n s)). now apply in_map. }
  destruct H1 as [H1|H1]; destruct H2 as [H2|H2].
  - congruence.
  - subst e. exfalso. now apply (Hno sub' H2).
  - subst e. exfalso. now apply (Hno sub H1).
  - now apply IH.
Qed.

Lemma split_join_slashless (ps : list string) :
  ps <> [] -> Forall (fun x => has_char Py.slash x = false) ps ->
  Py.split Py.slash (Py.join "/" ps) = ps.
Proof.
  induction ps as [|x ps IH]; intros Hne Hall; [congruence|].
  inversion Hall as [|y l Hx Hl]; subst.
  destruct ps as [|y ps].
  - simpl. now apply split_slashless.
  - change (Py.join "/" (x :: y :: ps))
      with (x ++ String Py.slash (Py.join "/" (y :: ps)))%string.
    rewrite split_app_sep by exact Hx. f_equal. apply IH; [discriminate|exact Hl].
Qed.

Lemma string_app_inv_head (a b c : string) :
  (a ++ b = a ++ c)%string -> b = c.
Proof.
  induction a as [|x a IH]; simpl; intros H; [exact H|].
  inversion H. now apply IH.
Qed.

(** Paths with the same root whose components hold no slash have
    different strings when they differ. *)
Lemma path_str_inj (p q : Path) :
  root p = root q -> parts p <> [] -> parts q <> [] ->
  Forall (fun x => has_char Py.slash x = false) (parts p) ->
  Forall (fun x => has_char Py.slash x = false) (parts q) ->
  path_str p = path_str q -> p = q.
Proof.
  intros Hr Hp Hq Sp Sq E. rewrite !path_str_parts in E by assumption.
  rewrite Hr in E. apply string_app_inv_head in E.
  apply (f_equal (Py.split Py.slash)) in E.
  rewrite !split_join_slashless in E by assumption.
  destruct p as [r ps], q as [r' qs]. simpl in *. now subst.
Qed.

Lemma NoDup_map_in {A B : Type} (f : A -> B) (l : list A) :
  NoDup l ->
  (forall x y, In x l -> In y l -> f x = f y -> x = y) ->
  NoDup (map f l).
Proof.
  induction 1 as [|a l Ha Hl IH]; intros Hinj; simpl; constructor.
  - intros Hin. apply in_map_iff in Hin. destruct Hin as (y & E & Hy).
    apply Ha. rewrite <- (Hinj y a); auto; [now right | now left].
  - apply IH. intros x y Hx Hy. apply Hinj; now right.
Qed.

Lemma last_in {A : Type} (l : list A) (d : A) : l <> [] -> In (last l d) l.
Proof.
  intros H. destruct (exists_last H) as (init & x & ->).
  rewrite last_last. apply in_or_app. right. now left.
Qed.

Lemma strip_slashless (p : Path) :
  parts p <> [] ->
  Forall (fun x => has_char Py.slash x = false) (parts p) ->
  parts (strip p) <> [] /\
  Forall (fun x => has_char Py.slash x = false) (parts (strip p)).
Proof.
  intros Hne Hall. unfold strip. simpl. split.
  - destruct (removelast (parts p)); discriminate.
  - apply Forall_app. split; [now apply Forall_removelast|].
    constructor; [|constructor]. unfold stem_of, Py.upto.
    apply has_char_upto. rewrite Forall_forall in Hall. apply Hall.
    now apply last_in.
Qed.

Section Identifiers.

Variable SUPPORTED_FILE_SUFFIXES : list string.
Variable _filename_to_title : string -> string -> string.
Variable cwd : list string.
Variable yaml_safe_dump : node -> string.

Local Notation walk :=
  (_find_content_structure SUPPORTED_FILE_SUFFIXES _filename_to_title cwd).
Local Notation build :=
  (build_toc SUPPORTED_FILE_SUFFIXES _filename_to_title cwd yaml_safe_dump).
Local Notation content_files :=
  (content_files_of SUPPORTED_FILE_SUFFIXES).
Local Notation reaches := (reached SUPPORTED_FILE_SUFFIXES).
Local Notation is_regular := (regular SUPPORTED_FILE_SUFFIXES).
Local Notation keeps := (kept SUPPORTED_FILE_SUFFIXES).

Lemma reached_named (skipped : Path -> bool) (path : Path) (d : dir) (p : Path) :
  reaches skipped path d p -> fs_ok d -> name_of p <> "".
Proof.
  induction 1 as [path es e He Hs | path es n sub p Hne Hin Hsk Hr IH];
    intros Hok; inversion Hok as [es0 Hnd Hnames Hsub]; subst.
  - rewrite name_of_child. now apply Hnames.
  - apply IH. eapply Hsub; eauto.
Qed.

Lemma reached_slashless (skipped : Path -> bool) (path : Path) (d : dir)
    (p : Path) :
  reaches skipped path d p -> fs_slashless d ->
  Forall (fun x => has_char Py.slash x = false) (parts path) ->
  root p = root path /\ parts p <> [] /\
  Forall (fun x => has_char Py.slash x = false) (parts p).
Proof.
  induction 1 as [path es e He Hs | path es n sub p Hne Hin Hsk Hr IH];
    intros Hsl Hpath; inversion Hsl as [es0 Hnames Hsub]; subst.
  - split; [reflexivity|]. unfold child. simpl. split.
    + destruct (parts path); discriminate.
    + apply Forall_app. split; [exact Hpath|].
      constructor; [now apply Hnames | constructor].
  - destruct IH as (H1 & H2 & H3); [eapply Hsub; eauto | | auto].
    unfold child. simpl. apply Forall_app. split; [exact Hpath|].
    constructor; [apply (Hnames (Folder n sub) Hin) | constructor].
Qed.

(** In a regular directory, the content files that are reached and not
    skipped have one suffix only. *)
Lemma reached_one_suffix (skipped : Path -> bool) (path : Path) (d : dir)
    (p : Path) :
  reaches skipped path d p -> is_regular skipped path d ->
  skipped p = false -> suffix_of (stem_of (name_of p)) = "".
Proof.
  induction 1 as [path es e He Hs | path es n sub p Hne Hin Hsk Hr IH];
    intros Hreg Hp; inversion Hreg as [path0 es0 Hstem Hpar Hsuf Hrec];
    subst.
  - apply Hsuf; [|exact Hp]. apply in_content_files. eauto.
  - apply IH; [|exact Hp]. now apply Hrec.
Qed.

Lemma reached_under (skipped : Path -> bool) (path : Path) (d : dir) (p : Path) :
  reaches skipped path d p -> under SUPPORTED_FILE_SUFFIXES path d p.
Proof.
  induction 1 as [path es e He Hs | path es n sub p Hne Hin Hsk Hr IH].
  - now apply under_here.
  - eapply under_below; eauto.
Qed.

Lemma under_parts (path : Path) (d : dir) (p : Path) :
  under SUPPORTED_FILE_SUFFIXES path d p ->
  exists m tail, parts p = parts path ++ m :: tail.
Proof.
  induction 1 as [path es e He Hs | path es n sub p Hin Hu IH].
  - exists (entry_name e), []. reflexivity.
  - destruct IH as (m & tail & E). exists n, (m :: tail).
    rewrite E. unfold child. simpl. now rewrite <- app_assoc.
Qed.

Lemma under_slashless (path : Path) (d : dir) (p : Path) :
  under SUPPORTED_FILE_SUFFIXES path d p -> fs_slashless d ->
  Forall (fun x => has_char Py.slash x = false) (parts path) ->
  root p = root path /\ parts p <> [] /\
  Forall (fun x => has_char Py.slash x = false) (parts p).
Proof.
  induction 1 as [path es e He Hs | path es n sub p Hin Hu IH];
    intros Hsl Hpath; inversion Hsl as [es0 Hnames Hsub]; subst.
  - split; [reflexivity|]. unfold child. simpl. split.
    + destruct (parts path); discriminate.
    + apply Forall_app. split; [exact Hpath|].
      constructor; [now apply Hnames | constructor].
  - destruct IH as (H1 & H2 & H3); [eapply Hsub; eauto | | auto].
    unfold child. simpl. apply Forall_app. split; [exact Hpath|].
    constructor; [apply (Hnames (Folder n sub) Hin) | constructor].
Qed.

(** In a regular directory, a content file that is reached shares its
    path without the suffix with no other content file of the
    directory. *)
Lemma strip_under_inj (skipped : Path -> bool) (path : Path) (d : dir)
    (q : Path) :
  reaches skipped path d q ->
  forall p, under SUPPORTED_FILE_SUFFIXES path d p ->
  fs_ok d -> is_regular skipped path d ->
  strip q = strip p -> q = p.
Proof.
  induction 1 as [path es e He Hs | path es n sub q Hne Hin Hsk Hr IH];
    intros p Hp Hok Hreg E;
    inversion Hok as [es0 Hnd Hnames Hsub]; subst;
    inversion Hreg as [path0 es0 Hstem Hpar Hsuf Hrec]; subst;
    inversion Hp as [path1 es1 e' He' Hs' | path1 es1 n' sub' p' Hin' Hu'];
    subst.
  - apply Hstem.
    + apply in_content_files. eauto.
    + apply in_content_files. eauto.
    + rewrite !strip_child in E. apply child_injective in E.
      now rewrite !name_of_child.
  - exfalso. apply (f_equal (fun x => List.length (parts x))) in E.
    destruct (under_parts _ _ _ Hu') as (m & tail & Ep).
    rewrite !length_parts_strip in E
      by (rewrite ?Ep; unfold child; simpl;
          match goal with |- ?l ++ _ <> [] => destruct l; discriminate end).
    rewrite Ep in E. unfold child in E. simpl in E.
    rewrite !length_app in E. simpl in E. lia.
  - exfalso. apply (f_equal (fun x => List.length (parts x))) in E.
    destruct (reached_parts _ _ _ _ _ Hr) as (m & tail & Eq).
    rewrite !length_parts_strip in E
      by (rewrite ?Eq; unfold child; simpl;
          match goal with |- ?l ++ _ <> [] => destruct l; discriminate end).
    rewrite Eq in E. unfold child in E. simpl in E.
    rewrite !length_app in E. simpl in E. lia.
  - destruct (reached_parts _ _ _ _ _ Hr) as (m & tail & Eq).
    destruct (under_parts _ _ _ Hu') as (m' & tail' & Ep).
    unfold child in Ep, Eq. simpl in Ep, Eq.
    rewrite <- app_assoc in Ep, Eq. simpl in Ep, Eq.
    destruct (strip_parts_head _ _ _ _ _ Ep) as (rest & Rp).
    destruct (strip_parts_head _ _ _ _ _ Eq) as (rest' & Rq).
    assert (En : n = n').
    { apply (f_equal parts) in E. rewrite Rp, Rq in E.
      apply app_inv_head in E. now inversion E. }
    subst n'.
    assert (Es : sub = sub') by (eapply folder_unique; eauto). subst sub'.
    apply IH; auto.
    eapply Hsub; eauto.
Qed.

(** C3, as amended. For a tree built by [build_toc] from a regular
    directory whose entry names hold no slash: no two nodes of the tree
    have the same [file]; a content file under the directory is in the
    tree under its identifier, its path without the format suffix, exactly
    when it is reached and its path holds no skip marker; and every node
    of the tree stands for such a file. So each of these files appears
    exactly once, and no other content file appears. A file is reached
    when every folder from the top down to its own holds a content file
    and no folder on the way below the top carries a skip marker. *)
Theorem reached_files_appear_once (path : string) (d : dir)
    (filename_split_char : string) (skip_text : option (list string))
    (out : string) (sk : list string) :
  fs_ok d -> fs_slashless d ->
  is_regular (skipped_by skip_text) (parse path) d ->
  build path d filename_split_char skip_text = (Ok out, sk) ->
  exists t,
    walk (parse path) d filename_split_char skip_text = (Ok (Some t), sk) /\
    out = yaml_safe_dump t /\
    NoDup (map file (preorder t)) /\
    (forall p, under SUPPORTED_FILE_SUFFIXES (parse path) d p ->
               (In (file_identifier p) (map file (preorder t)) <->
                reaches (skipped_by skip_text) (parse path) d p /\
                skipped_by skip_text p = false)) /\
    (forall n, In n (preorder t) ->
               exists p, reaches (skipped_by skip_text) (parse path) d p /\
                         skipped_by skip_text p = false /\
                         file n = file_identifier p).
Proof.
  intros Hok Hsl Hreg Hbuild. unfold build_toc in Hbuild.
  destruct (walk_correct SUPPORTED_FILE_SUFFIXES _filename_to_title cwd
              (skipped_by skip_text) filename_split_char d Hok
              (parse path) skip_text (fun p => eq_refl)) as (r & Hwalk & Hr).
  rewrite Hwalk in Hbuild. destruct r as [t|]; [|discriminate].
  inversion Hbuild; subst. destruct Hr as [Hfiles _].
  set (skipped := skipped_by skip_text) in *.
  set (L := keeps skipped (parse path) d) in *.
  assert (Hkept : forall p, In p L ->
                    reaches skipped (parse path) d p /\ skipped p = false).
  { intros p Hp. split.
    - now apply kept_reached.
    - now apply (kept_unskipped SUPPORTED_FILE_SUFFIXES skipped d Hok
                   (parse path) Hreg). }
  assert (Hid : forall p, In p L -> node_file p = file_identifier p).
  { intros p Hp. destruct (Hkept p Hp) as [Hr Hs].
    rewrite node_file_named by (eapply reached_named; eauto).
    unfold file_identifier. rewrite strip_idem; [reflexivity|].
    eapply reached_one_suffix; eauto. }
  assert (Hfiles' : map file (preorder t) = map file_identifier L).
  { rewrite Hfiles. apply map_ext_in. exact Hid. }
  assert (Hbase : Forall (fun x => has_char Py.slash x = false)
                    (parts (parse path))).
  { destruct (parse_canonical path) as [_ Hc].
    eapply Forall_impl; [|exact Hc]. intros x Hx. apply Hx. }
  assert (Hsame : forall q p,
            reaches skipped (parse path) d q ->
            under SUPPORTED_FILE_SUFFIXES (parse path) d p ->
            file_identifier q = file_identifier p -> q = p).
  { intros q p Rq Up E.
    apply (strip_under_inj skipped (parse path) d q Rq p Up Hok Hreg).
    destruct (reached_slashless _ _ _ _ Rq Hsl Hbase) as (Q1 & Q2 & Q3).
    destruct (under_slashless _ _ _ Up Hsl Hbase) as (P1 & P2 & P3).
    destruct (strip_slashless q Q2 Q3) as [Q4 Q5].
    destruct (strip_slashless p P2 P3) as [P4 P5].
    apply path_str_inj; auto.
    - unfold strip. simpl. congruence.
    - unfold file_identifier in E. now inversion E. }
  exists t. split; [exact Hwalk|]. split; [reflexivity|]. split; [|split].
  - rewrite Hfiles'. apply NoDup_map_in.
    + now apply kept_NoDup.
    + intros p q Hp Hq E. destruct (Hkept p Hp) as [Rp _].
      destruct (Hkept q Hq) as [Rq _].
      apply Hsame; auto. eapply reached_under; eauto.
  - intros p Up. rewrite Hfiles'. split.
    + intros Hin. apply in_map_iff in Hin. destruct Hin as (q & E & Hq).
      destruct (Hkept q Hq) as [Rq Sq].
      rewrite <- (Hsame q p Rq Up E). auto.
    + intros [Rp Sp]. apply in_map.
      now apply (reached_kept SUPPORTED_FILE_SUFFIXES skipped (parse path) d p).
  - intros n Hn. apply (in_map file) in Hn. rewrite Hfiles' in Hn.
    apply in_map_iff in Hn. destruct Hn as (p & E & Hp).
    exists p. destruct (Hkept p Hp) as [Rp Sp]. auto.
Qed.

End Identifiers.

(** ** The amended C3 on the examples *)

Ltac listing_is_ok :=
  constructor;
  [ names_differ
  | intros e He; entry_cases He; subst; discriminate
  | intros n sub H; entry_cases H; inversion H; subst; clear H;
    listing_is_ok ].

Ltac listing_is_slashless :=
  constructor;
  [ intros e He; entry_cases He; subst; reflexivity
  | intros n sub H; entry_cases H; inversion H; subst; clear H;
    listing_is_slashless ].

(** Folders that are skipped and folders below a folder without content
    files need not be regular. *)
Ltac listing_is_regular :=
  constructor;
  [ intros p q Hp Hq E; vm_compute in Hp, Hq;
    entry_cases Hp; entry_cases Hq; subst; try reflexivity;
    vm_compute in E; discriminate
  | intros p Hpar; vm_compute in Hpar; inversion Hpar; reflexivity
  | intros p Hp Hs; vm_compute in Hp; entry_cases Hp; subst;
    first [ vm_compute; reflexivity | vm_compute in Hs; discriminate ]
  | intros n sub Hne H Hsk; entry_cases H; inversion H; subst;
    first [ vm_compute in Hsk; discriminate
          | exfalso; apply Hne; reflexivity
          | clear Hne H Hsk; listing_is_regular ] ].

Lemma attic_example_ok : fs_ok attic_example.
Proof. listing_is_ok. Qed.

Lemma attic_example_slashless : fs_slashless attic_example.
Proof. listing_is_slashless. Qed.

Lemma attic_example_regular :
  regular supported_suffixes_spec (skipped_by (Some ["draft"])) (parse "book")
    attic_example.
Proof. listing_is_regular. Qed.

Lemma reached_files_appear_once_witness :
  exists t,
    walk_example (parse "book") attic_example "_" (Some ["draft"])
    = (Ok (Some t),
       ["draft"; ".ipynb_checkpoints"; ".ipynb_checkpoints";
        ".ipynb_checkpoints"]) /\
    NoDup (map file (preorder t)) /\
    (forall p, under supported_suffixes_spec (parse "book") attic_example p ->
               (In (file_identifier p) (map file (preorder t)) <->
                reached supported_suffixes_spec (skipped_by (Some ["draft"]))
                  (parse "book") attic_example p /\
                skipped_by (Some ["draft"]) p = false)) /\
    (forall n, In n (preorder t) ->
               exists p, reached supported_suffixes_spec
                           (skipped_by (Some ["draft"]))
                           (parse "book") attic_example p /\
                         skipped_by (Some ["draft"]) p = false /\
                         file n = file_identifier p).
Proof.
  assert (Hbuild :
    build_example "book" attic_example "_" (Some ["draft"])
    = (Ok (match fst (build_example "book" attic_example "_"
                        (Some ["draft"])) with
           | Ok out => out
           | Raise _ => ""
           end),
       ["draft"; ".ipynb_checkpoints"; ".ipynb_checkpoints";
        ".ipynb_checkpoints"]))
    by (vm_compute; reflexivity).
  destruct (reached_files_appear_once supported_suffixes_spec
              filename_to_title_spec cwd_example dump_example
              "book" attic_example "_" (Some ["draft"]) _ _
              attic_example_ok attic_example_slashless attic_example_regular
              Hbuild)
    as (t & H1 & _ & H2 & H3 & H4).
  exists t. auto.
Defined.

(** C3 fails on a folder without content files of its own: the file below
    it is a content file under the top, no skip marker is in its path, and
    no node of the tree carries its identifier. *)
Lemma barren_folder_hides_file :
  let p := parse "book" // "part" // "deep" // "a.md" in
  under supported_suffixes_spec (parse "book") barren_example p /\
  skipped_by None p = false /\
  exists out t sk,
    build_example "book" barren_example "_" None = (Ok out, sk) /\
    walk_example (parse "book") barren_example "_" None = (Ok (Some t), sk) /\
    ~ In (file_identifier p) (map file (preorder t)).
Proof.
  split; [|split].
  - eapply under_below; [right; left; reflexivity|].
    eapply under_below; [left; reflexivity|].
    apply (@under_here supported_suffixes_spec
             (parse "book" // "part" // "deep") [File "a.md"] (File "a.md"));
      [now left | reflexivity].
  - reflexivity.
  - eexists _, _, _. split; [vm_compute; reflexivity|].
    split; [vm_compute; reflexivity|].
    vm_compute. intros [H|H]; [discriminate | exact H].
Qed.

(** What the amended C3 sets aside with the files of one suffix and of
    different stems. The code strips the suffix twice, so a file with two
    suffixes is not in the tree under its identifier; and two files that
    differ in their suffix only have one identifier. Either way two nodes
    carry the same [file]. *)
Example second_suffix_is_stripped_too :
  file_identifier (parse "book" // "ch1.v2.md") = Some "book/ch1.v2" /\
  map file
    (tree_nodes
       (match fst (walk_example (parse "book")
                     (Listing [File "ch1.md"; File "ch1.v2.md"]) "_" None) with
        | Ok (Some t) => Single t
        | _ => Siblings []
        end))
  = [Some "book/ch1"; Some "book/ch1"].
Proof. split; vm_compute; reflexivity. Qed.

Example same_stem_same_identifier :
  file_identifier (parse "book" // "a.ipynb") = Some "book/a" /\
  file_identifier (parse "book" // "a.md") = Some "book/a" /\
  map file
    (tree_nodes
       (match fst (walk_example (parse "book")
                     (Listing [File "a.ipynb"; File "a.md"]) "_" None) with
        | Ok (Some t) => Single t
        | _ => Siblings []
        end))
  = [Some "book/a"; Some "book/a"].
Proof. split; [|split]; vm_compute; reflexivity. Qed.
